(** * time-confighub: the TSN configuration compiler, embedded and verified

    A shallow embedding of the parsing, extraction and command-synthesis
    core of the repository:

    - [Py]  : the Python values the generic document model is made of, with
              the builtin operations the sources rely on ([str], [int],
              [dict.get], [in], truthiness, [str.strip] ...), and the
              exception monad;
    - [GE]  : [tsn_config_parser/GE_dictionary.py];
    - [TC]  : [tsn_config_parser/tc_command.py];
    - [XML] : [tsn_config_parser/xml_parser.py];
    - [UP]  : [tsn_config_parser/universal_parser.py] (with the YAML parser
              it dispatches to).

    Definitions come first; the theorems about them follow in the second
    half of the file. *)

From Stdlib Require Import ZArith List String Ascii Bool Lia.
From Stdlib Require DecimalString HexadecimalString.
Import ListNotations.

Set Warnings "-register-all".

Local Open Scope string_scope.
Local Open Scope Z_scope.
Local Open Scope list_scope.

Declare Scope py_scope.
Delimit Scope py_scope with py.
Local Open Scope py_scope.

(** String concatenation gets its own symbol: [++] stays list append. *)
Infix "+s+" := String.append (right associativity, at level 60) : py_scope.

(* ====================================================================== *)
(** * Python values and builtins *)
(* ====================================================================== *)

Module Py.

(** The generic document model.  A Python [str] is a sequence of code
    points; the embedding covers the code points below 256 (one [ascii]
    each).  A [dict] keeps its insertion order, so it is an association
    list; its keys are strings, as both format parsers produce them for the
    schema at hand.  Floats are not part of the model. *)
Inductive PyVal : Type :=
| VNone
| VBool (b : bool)
| VInt (z : Z)
| VStr (s : string)
| VList (l : list PyVal)
| VDict (d : list (string * PyVal)).

(** Exceptions the embedded code can raise. *)
Inductive exc : Type :=
| AttributeError
| TypeError
| ValueError
| KeyError
| OSError
| ParseError.

Inductive result (A : Type) : Type :=
| Ok (a : A)
| Raise (e : exc).

Arguments Ok {A} a.
Arguments Raise {A} e.

Definition bind {A B : Type} (m : result A) (k : A -> result B) : result B :=
  match m with
  | Ok a => k a
  | Raise e => Raise e
  end.

Notation "x <- m ;; k" := (bind m (fun x => k))
  (at level 61, m at next level, right associativity) : py_scope.
Notation "m ;;; k" := (bind m (fun _ => k))
  (at level 61, right associativity) : py_scope.

(** A [for] loop over a list whose body may raise: the state is threaded
    from left to right and the first exception aborts the loop. *)
Fixpoint for_each {A S : Type} (body : S -> A -> result S) (xs : list A) (st : S)
  : result S :=
  match xs with
  | [] => Ok st
  | x :: rest => st' <- body st x ;; for_each body rest st'
  end.

(** A list comprehension whose element expression may raise. *)
Fixpoint map_result {A B : Type} (f : A -> result B) (xs : list A) : result (list B) :=
  match xs with
  | [] => Ok []
  | x :: rest => y <- f x ;; ys <- map_result f rest ;; Ok (y :: ys)
  end.

(** ** Characters and strings *)

Definition code (c : ascii) : Z := Z.of_N (N_of_ascii c).

Definition in_range (lo hi : Z) (c : ascii) : bool :=
  (lo <=? code c) && (code c <=? hi).

(** [str.isspace] on a code point below 256: what [str.strip()] removes. *)
Definition is_space (c : ascii) : bool :=
  in_range 9 13 c || in_range 28 32 c || (code c =? 133) || (code c =? 160).

(** The blanks [int(str)] skips around a number: the C-locale blanks and
    the non-ASCII spaces. *)
Definition is_int_blank (c : ascii) : bool :=
  in_range 9 13 c || (code c =? 32) || (code c =? 133) || (code c =? 160).

Definition is_digit (c : ascii) : bool := in_range 48 57 c.

Fixpoint lstrip_by (p : ascii -> bool) (s : string) : string :=
  match s with
  | EmptyString => EmptyString
  | String c r => if p c then lstrip_by p r else s
  end.

Fixpoint rstrip_by (p : ascii -> bool) (s : string) : string :=
  match s with
  | EmptyString => EmptyString
  | String c r =>
      match rstrip_by p r with
      | EmptyString => if p c then EmptyString else String c EmptyString
      | r' => String c r'
      end
  end.

Definition strip_by (p : ascii -> bool) (s : string) : string :=
  rstrip_by p (lstrip_by p s).

(** [s.strip()] *)
Definition strip (s : string) : string := strip_by is_space s.

Fixpoint map_chars (f : ascii -> ascii) (s : string) : string :=
  match s with
  | EmptyString => EmptyString
  | String c r => String (f c) (map_chars f r)
  end.

(** [s.lower()]: A-Z and the Latin-1 capitals move up by 32. *)
Definition lower_char (c : ascii) : ascii :=
  if in_range 65 90 c || (in_range 192 222 c && negb (code c =? 215))
  then ascii_of_N (N_of_ascii c + 32)
  else c.

Definition lower (s : string) : string := map_chars lower_char s.

Definition upper_char (c : ascii) : ascii :=
  if in_range 97 122 c then ascii_of_N (N_of_ascii c - 32) else c.

(** [s.replace("-", ":")] *)
Definition replace_dash (s : string) : string :=
  map_chars (fun c => if Ascii.eqb c "-" then ":"%char else c) s.

(** [needle in hay] on two strings. *)
Fixpoint contains (needle hay : string) : bool :=
  String.prefix needle hay ||
  match hay with
  | EmptyString => false
  | String _ r => contains needle r
  end.

Fixpoint has_char (c : ascii) (s : string) : bool :=
  match s with
  | EmptyString => false
  | String c' r => Ascii.eqb c c' || has_char c r
  end.

(** [sep.join(parts)] *)
Fixpoint join (sep : string) (parts : list string) : string :=
  match parts with
  | [] => EmptyString
  | [p] => p
  | p :: rest => p +s+ sep +s+ join sep rest
  end.

(** ** Numbers as text *)

(** [str(z)] for an [int]. *)
Definition str_of_Z (z : Z) : string :=
  DecimalString.NilZero.string_of_int (Z.to_int z).

(** The digits of [hex(n)] / [format(n, "x")] for [0 <= n]. *)
Definition hex_digits (n : Z) : string :=
  HexadecimalString.NilZero.string_of_int (Z.to_hex_int n).

(** [hex(z)] *)
Definition py_hex (z : Z) : string :=
  if z <? 0 then "-0x" +s+ hex_digits (- z) else "0x" +s+ hex_digits z.

(** [format(z, "02X")]: uppercase digits, sign first, zero-filled to a
    minimum width of two. *)
Definition format_02X (z : Z) : string :=
  let digits := map_chars upper_char (hex_digits (Z.abs z)) in
  if z <? 0 then "-" +s+ digits
  else if (String.length digits <? 2)%nat then "0" +s+ digits
  else digits.

(** The decimal literal [int(str)] accepts after the sign: digits, with
    single underscores allowed between two digits. *)
Fixpoint digits_value (s : string) (acc : Z) (after_digit : bool) : option Z :=
  match s with
  | EmptyString => if after_digit then Some acc else None
  | String c r =>
      if is_digit c then digits_value r (10 * acc + (code c - 48)) true
      else if Ascii.eqb c "_" && after_digit then
        match r with
        | String c' _ => if is_digit c' then digits_value r acc false else None
        | EmptyString => None
        end
      else None
  end.

Definition int_of_string (s : string) : option Z :=
  match strip_by is_int_blank s with
  | String "-" r => option_map Z.opp (digits_value r 0 false)
  | String "+" r => digits_value r 0 false
  | s' => digits_value s' 0 false
  end.

(** ** [repr] and [str] *)

Definition hex_nibble (n : Z) : ascii :=
  ascii_of_N (Z.to_N (if n <? 10 then 48 + n else 87 + n)).

(** A code point [repr] prints as it is. *)
Definition is_printable (c : ascii) : bool :=
  in_range 32 126 c || (in_range 161 255 c && negb (code c =? 173)).

Definition repr_char (quote : ascii) (c : ascii) : string :=
  if Ascii.eqb c quote || Ascii.eqb c "\" then String "\" (String c EmptyString)
  else if code c =? 9 then "\t"
  else if code c =? 10 then "\n"
  else if code c =? 13 then "\r"
  else if is_printable c then String c EmptyString
  else String "\" (String "x" (String (hex_nibble (code c / 16))
                                (String (hex_nibble (code c mod 16)) EmptyString))).

Fixpoint repr_chars (quote : ascii) (s : string) : string :=
  match s with
  | EmptyString => EmptyString
  | String c r => repr_char quote c +s+ repr_chars quote r
  end.

Definition double_quote : ascii := ascii_of_nat 34.

(** [repr(s)] for a [str]: single quotes, unless the text has a single
    quote and no double quote. *)
Definition repr_str (s : string) : string :=
  let quote : ascii :=
    if has_char "'" s && negb (has_char double_quote s) then double_quote
    else "'"%char in
  String quote (repr_chars quote s +s+ String quote EmptyString).

Fixpoint py_repr (v : PyVal) : string :=
  match v with
  | VNone => "None"
  | VBool true => "True"
  | VBool false => "False"
  | VInt z => str_of_Z z
  | VStr s => repr_str s
  | VList l => "[" +s+ join ", " (map py_repr l) +s+ "]"
  | VDict d =>
      "{" +s+ join ", " (map (fun kv => match kv with
                                        | (k, x) => repr_str k +s+ ": " +s+ py_repr x
                                        end) d) +s+ "}"
  end.

(** [str(v)], which is also what an f-string field [{v}] renders. *)
Definition py_str (v : PyVal) : string :=
  match v with
  | VStr s => s
  | _ => py_repr v
  end.

(** ** Builtin operations on values *)

(** Truthiness, as [if v:] and [not v] see it. *)
Definition truthy (v : PyVal) : bool :=
  match v with
  | VNone => false
  | VBool b => b
  | VInt z => negb (z =? 0)
  | VStr s => negb (String.eqb s EmptyString)
  | VList l => match l with [] => false | _ => true end
  | VDict d => match d with [] => false | _ => true end
  end.

Definition is_none (v : PyVal) : bool :=
  match v with VNone => true | _ => false end.

(** Lookup in an insertion-ordered dict. *)
Fixpoint lookup (k : string) (d : list (string * PyVal)) : option PyVal :=
  match d with
  | [] => None
  | (k', v) :: rest => if String.eqb k' k then Some v else lookup k rest
  end.

(** [v.get(k, default)]: only a dict has the method. *)
Definition py_get_default (v : PyVal) (k : string) (default : PyVal) : result PyVal :=
  match v with
  | VDict d => match lookup k d with
               | Some x => Ok x
               | None => Ok default
               end
  | _ => Raise AttributeError
  end.

(** [v.get(k)] *)
Definition py_get (v : PyVal) (k : string) : result PyVal :=
  py_get_default v k VNone.

Definition is_str_eq (k : string) (v : PyVal) : bool :=
  match v with
  | VStr s => String.eqb s k
  | _ => false
  end.

(** [k in v] for a string [k]: key membership on a dict, substring test on
    a string, element test on a list, [TypeError] on the other values. *)
Definition py_in (k : string) (v : PyVal) : result bool :=
  match v with
  | VDict d => Ok (match lookup k d with Some _ => true | None => false end)
  | VStr s => Ok (contains k s)
  | VList l => Ok (existsb (is_str_eq k) l)
  | _ => Raise TypeError
  end.

(** [v[k]] for a string [k]; the sources only index after [k in v]. *)
Definition py_getitem (v : PyVal) (k : string) : result PyVal :=
  match v with
  | VDict d => match lookup k d with
               | Some x => Ok x
               | None => Raise KeyError
               end
  | _ => Raise TypeError
  end.

(** [int(v)] *)
Definition py_int (v : PyVal) : result Z :=
  match v with
  | VInt z => Ok z
  | VBool b => Ok (if b then 1 else 0)
  | VStr s => match int_of_string s with
              | Some z => Ok z
              | None => Raise ValueError
              end
  | _ => Raise TypeError
  end.

(** The recurring coercion [if not isinstance(x, list): x = [x]]. *)
Definition as_list (v : PyVal) : list PyVal :=
  match v with
  | VList l => l
  | _ => [v]
  end.

(** [m.replace("-", ":") if m else None] *)
Definition normalize_mac (m : PyVal) : result PyVal :=
  if truthy m then
    match m with
    | VStr s => Ok (VStr (replace_dash s))
    | _ => Raise AttributeError
    end
  else Ok VNone.

(** Equality of two hashable scalars, as dict keys and set members are
    compared ([True == 1]); containers are not hashable. *)
Definition is_hashable (v : PyVal) : bool :=
  match v with
  | VList _ | VDict _ => false
  | _ => true
  end.

Definition key_eqb (a b : PyVal) : bool :=
  match a, b with
  | VNone, VNone => true
  | VStr s, VStr t => String.eqb s t
  | VInt x, VInt y => x =? y
  | VBool x, VBool y => Bool.eqb x y
  | VInt x, VBool y | VBool y, VInt x => x =? (if y then 1 else 0)
  | _, _ => false
  end.

(** The text after the last [c] of [s] (all of [s] when it has none):
    [s.split(c)[-1]]. *)
Fixpoint after_last (c : ascii) (s : string) : string :=
  match s with
  | EmptyString => EmptyString
  | String _ r => if has_char c s then after_last c r else s
  end.

(** [d[k] = v] on an insertion-ordered dict: an existing key keeps its
    place, a new key goes last. *)
Fixpoint dict_set (d : list (string * PyVal)) (k : string) (v : PyVal)
  : list (string * PyVal) :=
  match d with
  | [] => [(k, v)]
  | (k', v') :: rest =>
      if String.eqb k' k then (k', v) :: rest else (k', v') :: dict_set rest k v
  end.

Definition nonempty {A : Type} (l : list A) : bool :=
  match l with [] => false | _ => true end.

End Py.

(* ====================================================================== *)
(** * tsn_config_parser/GE_dictionary.py *)
(* ====================================================================== *)

Module GE.
Import Py.

(** The talker maps: stream id to the list of its talker dicts, in
    insertion order.  A stream id is whatever hashable value the document
    carries under [stream-id]. *)
Definition TalkerMap : Type := list (PyVal * list PyVal).

(** [_find_key]: depth-first, first occurrence; a hit whose value is
    [None] is indistinguishable from a miss and the search goes on. *)
Fixpoint _find_key (node : PyVal) (key : string) : PyVal :=
  match node with
  | VDict d =>
      (fix items (d : list (string * PyVal)) : PyVal :=
         match d with
         | [] => VNone
         | (k, v) :: rest =>
             if String.eqb k key then v
             else match _find_key v key with
                  | VNone => items rest
                  | found => found
                  end
         end) d
  | VList l =>
      (fix elems (l : list PyVal) : PyVal :=
         match l with
         | [] => VNone
         | item :: rest =>
             match _find_key item key with
             | VNone => elems rest
             | found => found
             end
         end) l
  | _ => VNone
  end.

(** Body of the [for iface in interface_list] loop of
    [get_gate_control_entries]. *)
Definition iface_gate_entries (entries : list PyVal) (iface : PyVal)
  : result (list PyVal) :=
  let gate_table := _find_key iface "gate-parameter-table" in
  if negb (truthy gate_table) then Ok entries else
  let admin_list := _find_key gate_table "admin-control-list" in
  if negb (truthy admin_list) then Ok entries else
  gate_entries <- py_get admin_list "gate-control-entry" ;;
  if negb (truthy gate_entries) then Ok entries else
  Ok (entries ++ as_list gate_entries).

(** Body of the [for doc in self.documents] loop. *)
Definition doc_gate_entries (entries : list PyVal) (doc : PyVal)
  : result (list PyVal) :=
  let interfaces_section := _find_key doc "interfaces" in
  if negb (truthy interfaces_section) then Ok entries else
  interface_list <- py_get interfaces_section "interface" ;;
  if negb (truthy interface_list) then Ok entries else
  for_each iface_gate_entries (as_list interface_list) entries.

Definition get_gate_control_entries (documents : list PyVal) : result (list PyVal) :=
  for_each doc_gate_entries documents [].

Definition set_gate_states : string := "sched:set-gate-states".

(** Body of the loop of [get_gate_control_entries_formatted]. *)
Definition format_entry (formatted_entries : list string) (entry : PyVal)
  : result (list string) :=
  op <- py_get entry "operation-name" ;;
  state_val <- py_get entry "gate-states-value" ;;
  interval <- py_get entry "time-interval-value" ;;
  let state_val := if is_none state_val then VStr "0" else state_val in
  let interval := if is_none interval then VStr "0" else interval in
  if is_str_eq set_gate_states op then
    hex_state <- py_int state_val ;;
    Ok (formatted_entries ++
        ["sched-entry S " +s+ format_02X hex_state +s+ " " +s+ py_str interval])
  else
    Ok (formatted_entries ++
        ["sched-entry ? " +s+ py_str state_val +s+ " " +s+ py_str interval]).

Definition get_gate_control_entries_formatted (documents : list PyVal)
  : result (list string) :=
  entries <- get_gate_control_entries documents ;;
  for_each format_entry entries [].

(** ** [get_all_talker_stream_info] *)

(** The locals of the talker loop that the [for cfg in cfg_lists] loop
    assigns. *)
Record TalkerVars : Type := mkVars {
  dst_mac : PyVal;
  vlan_tag : bool;
  vlan_id : PyVal;
  pcp : PyVal;
  src_ip : PyVal;
  dst_ip : PyVal;
  dscp : PyVal;
  ip_protocol : PyVal;
  src_port : PyVal;
  dst_port : PyVal;
  time_aware : bool;
  time_aware_offset : PyVal;
  earliest_tx_offset : PyVal;
  latest_tx_offset : PyVal
}.

(** The "Default values" block. *)
Definition default_vars : TalkerVars :=
  mkVars VNone false VNone VNone VNone VNone VNone VNone VNone VNone
         false VNone VNone VNone.

(** [val and str(val).strip() not in ("0", "0.0", "")] *)
Definition is_set_offset (val : PyVal) : bool :=
  truthy val && negb (existsb (String.eqb (strip (py_str val))) ["0"; "0.0"; ""]).

(** [if "ieee802-mac-addresses" in cfg: ...] *)
Definition cfg_mac (vars : TalkerVars) (cfg : PyVal) : result TalkerVars :=
  present <- py_in "ieee802-mac-addresses" cfg ;;
  if present then
    macs <- py_getitem cfg "ieee802-mac-addresses" ;;
    m <- py_get macs "destination-mac-address" ;;
    m' <- normalize_mac m ;;
    Ok (mkVars m' (vlan_tag vars) (vlan_id vars) (pcp vars) (src_ip vars)
               (dst_ip vars) (dscp vars) (ip_protocol vars) (src_port vars)
               (dst_port vars) (time_aware vars) (time_aware_offset vars)
               (earliest_tx_offset vars) (latest_tx_offset vars))
  else Ok vars.

(** [if "ieee802-vlan-tag" in cfg: ...] *)
Definition cfg_vlan (vars : TalkerVars) (cfg : PyVal) : result TalkerVars :=
  present <- py_in "ieee802-vlan-tag" cfg ;;
  if present then
    vlan <- py_getitem cfg "ieee802-vlan-tag" ;;
    id <- py_get vlan "vlan-id" ;;
    prio <- py_get vlan "priority-code-point" ;;
    Ok (mkVars (dst_mac vars) true id prio (src_ip vars)
               (dst_ip vars) (dscp vars) (ip_protocol vars) (src_port vars)
               (dst_port vars) (time_aware vars) (time_aware_offset vars)
               (earliest_tx_offset vars) (latest_tx_offset vars))
  else Ok vars.

(** [if "ipv4-tuple" in cfg: ...] *)
Definition cfg_ipv4 (vars : TalkerVars) (cfg : PyVal) : result TalkerVars :=
  present <- py_in "ipv4-tuple" cfg ;;
  if present then
    ipv4 <- py_getitem cfg "ipv4-tuple" ;;
    sip <- py_get ipv4 "source-ip-address" ;;
    dip <- py_get ipv4 "destination-ip-address" ;;
    ds <- py_get ipv4 "dscp" ;;
    proto <- py_get ipv4 "protocol" ;;
    sport <- py_get ipv4 "source-port" ;;
    dport <- py_get ipv4 "destination-port" ;;
    Ok (mkVars (dst_mac vars) (vlan_tag vars) (vlan_id vars) (pcp vars) sip
               dip ds proto sport
               dport (time_aware vars) (time_aware_offset vars)
               (earliest_tx_offset vars) (latest_tx_offset vars))
  else Ok vars.

(** [if "time-aware-offset" in cfg: ...] *)
Definition cfg_offset (vars : TalkerVars) (cfg : PyVal) : result TalkerVars :=
  present <- py_in "time-aware-offset" cfg ;;
  if present then
    offset_val <- py_get cfg "time-aware-offset" ;;
    if is_set_offset offset_val then
      Ok (mkVars (dst_mac vars) (vlan_tag vars) (vlan_id vars) (pcp vars)
                 (src_ip vars) (dst_ip vars) (dscp vars) (ip_protocol vars)
                 (src_port vars) (dst_port vars) true offset_val
                 (earliest_tx_offset vars) (latest_tx_offset vars))
    else Ok vars
  else Ok vars.

(** [if "time-aware" in cfg: ...]; the inner [for val in [earliest,
    latest]] loop sets the flag when either value passes the test. *)
Definition cfg_time_block (vars : TalkerVars) (cfg : PyVal) : result TalkerVars :=
  present <- py_in "time-aware" cfg ;;
  if present then
    time_block <- py_getitem cfg "time-aware" ;;
    earliest <- py_get time_block "earliest-transmit-offset" ;;
    latest <- py_get time_block "latest-transmit-offset" ;;
    Ok (mkVars (dst_mac vars) (vlan_tag vars) (vlan_id vars) (pcp vars)
               (src_ip vars) (dst_ip vars) (dscp vars) (ip_protocol vars)
               (src_port vars) (dst_port vars)
               (fold_left (fun flag val => if is_set_offset val then true else flag)
                          [earliest; latest] (time_aware vars))
               (time_aware_offset vars) earliest latest)
  else Ok vars.

(** Body of [for cfg in cfg_lists]. *)
Definition cfg_step (vars : TalkerVars) (cfg : PyVal) : result TalkerVars :=
  vars <- cfg_mac vars cfg ;;
  vars <- cfg_vlan vars cfg ;;
  vars <- cfg_ipv4 vars cfg ;;
  vars <- cfg_offset vars cfg ;;
  cfg_time_block vars cfg.

(** The [config-list] of a talker, coerced to a list:
    [talker.get("interface-configuration", {}).get("interface-list", {})
           .get("config-list", [])]. *)
Definition talker_iface_list (talker : PyVal) : result PyVal :=
  iface_cfg <- py_get_default talker "interface-configuration" (VDict []) ;;
  py_get_default iface_cfg "interface-list" (VDict []).

Definition talker_cfg_lists (talker : PyVal) : result (list PyVal) :=
  iface_list <- talker_iface_list talker ;;
  cfg_lists <- py_get_default iface_list "config-list" (VList []) ;;
  Ok (as_list cfg_lists).

(** Body of [for talker in talkers] up to the construction of
    [talker_entry]. *)
Definition talker_entry (talker : PyVal) : result PyVal :=
  end_iface <- py_get_default talker "end-station-interfaces" (VDict []) ;;
  src_mac <- py_get end_iface "mac-address" ;;
  src_mac <- normalize_mac src_mac ;;
  iface_list <- talker_iface_list talker ;;
  interface_mac <- py_get iface_list "mac-address" ;;
  interface_mac <- normalize_mac interface_mac ;;
  interface_name <- py_get iface_list "interface-name" ;;
  cfg_lists <- py_get_default iface_list "config-list" (VList []) ;;
  vars <- for_each cfg_step (as_list cfg_lists) default_vars ;;
  Ok (VDict [
    ("interface_name", interface_name);
    ("interface_mac", interface_mac);
    ("source_mac", src_mac);
    ("destination_mac", dst_mac vars);
    ("source_ip", src_ip vars);
    ("destination_ip", dst_ip vars);
    ("dscp", dscp vars);
    ("ip_protocol", ip_protocol vars);
    ("source_port", src_port vars);
    ("destination_port", dst_port vars);
    ("vlan_tag", VBool (vlan_tag vars));
    ("vlan_id", vlan_id vars);
    ("vlan_priority", pcp vars);
    ("time_aware", VBool (time_aware vars));
    ("time_aware_offset", time_aware_offset vars);
    ("earliest_transmit_offset", earliest_tx_offset vars);
    ("latest_transmit_offset", latest_tx_offset vars)
  ]).

(** [result.setdefault(stream_id, []).append(entry)]; an unhashable
    stream id is a [TypeError]. *)
Fixpoint append_under (m : TalkerMap) (k : PyVal) (entry : PyVal) : TalkerMap :=
  match m with
  | [] => [(k, [entry])]
  | (k', entries) :: rest =>
      if key_eqb k' k then (k', entries ++ [entry]) :: rest
      else (k', entries) :: append_under rest k entry
  end.

Definition setdefault_append (m : TalkerMap) (k : PyVal) (entry : PyVal)
  : result TalkerMap :=
  if is_hashable k then Ok (append_under m k entry) else Raise TypeError.

Definition talker_step (stream_id : PyVal) (res : TalkerMap) (talker : PyVal)
  : result TalkerMap :=
  entry <- talker_entry talker ;;
  setdefault_append res stream_id entry.

Definition stream_step (res : TalkerMap) (stream : PyVal) : result TalkerMap :=
  stream_id <- py_get stream "stream-id" ;;
  if negb (truthy stream_id) then Ok res else
  talkers <- py_get_default stream "talker" (VList []) ;;
  for_each (talker_step stream_id) (as_list talkers) res.

Definition cuc_step (res : TalkerMap) (cuc : PyVal) : result TalkerMap :=
  streams <- py_get_default cuc "stream" (VList []) ;;
  for_each stream_step (as_list streams) res.

Definition domain_step (res : TalkerMap) (domain : PyVal) : result TalkerMap :=
  cucs <- py_get_default domain "cuc" (VList []) ;;
  for_each cuc_step (as_list cucs) res.

Definition doc_step (res : TalkerMap) (doc : PyVal) : result TalkerMap :=
  cnc <- py_get_default doc "cnc-config" (VDict []) ;;
  domains <- py_get_default cnc "domain" (VList []) ;;
  for_each domain_step (as_list domains) res.

Definition get_all_talker_stream_info (documents : list PyVal) : result TalkerMap :=
  if negb (nonempty documents) then Ok []
  else for_each doc_step documents [].

(** ** The VLAN x time-aware filters *)

(** [m[k] = v] on a talker map. *)
Fixpoint map_set (m : TalkerMap) (k : PyVal) (v : list PyVal) : TalkerMap :=
  match m with
  | [] => [(k, v)]
  | (k', v') :: rest =>
      if key_eqb k' k then (k', v) :: rest else (k', v') :: map_set rest k v
  end.

(** A list comprehension with a condition that may raise. *)
Fixpoint filter_result {A : Type} (p : A -> result bool) (xs : list A)
  : result (list A) :=
  match xs with
  | [] => Ok []
  | x :: rest =>
      keep <- p x ;;
      ys <- filter_result p rest ;;
      Ok (if keep then x :: ys else ys)
  end.

(** [t.get("vlan_tag", False) and not t.get("time_aware", False)] *)
Definition is_vlan_non_time_aware (t : PyVal) : result bool :=
  vt <- py_get_default t "vlan_tag" (VBool false) ;;
  if truthy vt then
    ta <- py_get_default t "time_aware" (VBool false) ;;
    Ok (negb (truthy ta))
  else Ok false.

(** [t.get("vlan_tag", False) and t.get("time_aware", False)] *)
Definition is_vlan_time_aware (t : PyVal) : result bool :=
  vt <- py_get_default t "vlan_tag" (VBool false) ;;
  if truthy vt then
    ta <- py_get_default t "time_aware" (VBool false) ;;
    Ok (truthy ta)
  else Ok false.

Definition filter_step (p : PyVal -> result bool) (acc : TalkerMap)
  (item : PyVal * list PyVal) : result TalkerMap :=
  let (stream_id, talkers) := item in
  filtered <- filter_result p talkers ;;
  if nonempty filtered then Ok (map_set acc stream_id filtered) else Ok acc.

Definition get_vlan_tagged_non_time_aware_talker_info (all_talker_info : TalkerMap)
  : result TalkerMap :=
  for_each (filter_step is_vlan_non_time_aware) all_talker_info [].

Definition get_vlan_tagged_time_aware_talker_info (all_talker_info : TalkerMap)
  : result TalkerMap :=
  for_each (filter_step is_vlan_time_aware) all_talker_info [].

End GE.

(* ====================================================================== *)
(** * tsn_config_parser/tc_command.py *)
(* ====================================================================== *)

Module TC.
Import Py.

(** [s * n] *)
Fixpoint repeat_str (s : string) (n : nat) : string :=
  match n with
  | O => EmptyString
  | S n' => s +s+ repeat_str s n'
  end.

(** [range(lo, hi)] *)
Definition py_range (lo hi : Z) : list Z :=
  map (fun i => lo + Z.of_nat i) (seq 0 (Z.to_nat (hi - lo))).

(** ** [create_tc_qdisc_gcl_command] *)

Definition default_num_tc : Z := 4.
Definition default_flags : string := "0x1".
Definition default_txtime_delay : Z := 200000.
Definition default_delta : Z := 175000.

(** The taprio command of one interface (the joined [cmd_lines]). *)
Definition taprio_command (iface : string) (gcl : list string) (num_tc : Z)
  (base_time : Z) (map_str queues_str handle_id flags : string)
  (txtime_delay : Z) : string :=
  let cmd_lines :=
    [ "tc qdisc replace dev " +s+ iface +s+ " parent root handle " +s+ handle_id
        +s+ " taprio";
      " num_tc " +s+ str_of_Z num_tc +s+ " map " +s+ map_str;
      " queues " +s+ queues_str;
      " base-time " +s+ str_of_Z base_time ] in
  let cmd_lines :=
    fold_left (fun lines entry => lines ++ [" " +s+ entry +s+ " "]) gcl cmd_lines in
  let cmd_lines := cmd_lines ++ ["flags " +s+ flags] in
  let cmd_lines := cmd_lines ++ ["txtime-delay " +s+ str_of_Z txtime_delay +s+ " "] in
  let cmd_lines := cmd_lines ++ ["clockid CLOCK_TAI "] in
  join " " cmd_lines.

(** The ETF command of traffic class [q]. *)
Definition etf_command (iface handle_id : string) (q delta : Z) : string :=
  "tc qdisc replace dev " +s+ iface +s+ " parent " +s+ handle_id +s+ ":"
    +s+ str_of_Z q +s+ " etf "
    +s+ "skip_sock_check offload delta " +s+ str_of_Z delta
    +s+ " clockid CLOCK_TAI ".

Section Qdisc.

(** [time.time_ns()] at the moment of the call. *)
Variable now : Z.

(** Body of [for iface in interfaces]. *)
Definition iface_commands (gcl : list string) (num_tc base_time : Z)
  (map_str queues_str handle_id flags : string) (txtime_delay delta : Z)
  (commands : list string) (iface : string) : list string :=
  let commands :=
    commands ++ [taprio_command iface gcl num_tc base_time map_str queues_str
                                handle_id flags txtime_delay] in
  fold_left (fun commands q => commands ++ [etf_command iface handle_id q delta])
            (py_range 1 (num_tc + 1)) commands.

Definition create_tc_qdisc_gcl_command (interfaces : list string)
  (gcl : list string) (num_tc : Z) (base_time : option Z)
  (map_str queues_str handle_id : option string) (flags : string)
  (txtime_delay delta : Z) : list string :=
  let base_time := match base_time with Some t => t | None => now end in
  let map_str :=
    match map_str with Some m => m | None => "0 1 2 3" +s+ repeat_str " 0" 12 end in
  let queues_str :=
    match queues_str with Some q => q | None => "1@0 1@1 1@2 1@3" end in
  let handle_id := match handle_id with Some h => h | None => "100" end in
  fold_left (iface_commands gcl num_tc base_time map_str queues_str handle_id
                            flags txtime_delay delta)
            interfaces [].

End Qdisc.

(** ** Protocol and port matching *)

Definition IPPROTO_TCP : Z := 6.
Definition IPPROTO_UDP : Z := 17.
Definition IPPROTO_SCTP : Z := 132.

Definition _is_port_in_range (port : Z) : bool :=
  (1 <=? port) && (port <=? 65535).

Definition _get_ip_protocol_and_ports_filter_configuration
  (protocol_number destination_port source_port : Z) : string :=
  let finish (protocol_name : string) (use_port : bool) : string :=
    let protocol_port_cmd :=
      if negb (String.eqb protocol_name "")
      then "ip_proto " +s+ protocol_name +s+ " " else "" in
    let protocol_port_cmd :=
      if _is_port_in_range destination_port && use_port
      then protocol_port_cmd +s+ "dst_port " +s+ str_of_Z destination_port +s+ " "
      else protocol_port_cmd in
    if _is_port_in_range source_port && use_port
    then protocol_port_cmd +s+ "src_port " +s+ str_of_Z source_port +s+ " "
    else protocol_port_cmd in
  if protocol_number =? 65535 then ""
  else if protocol_number =? IPPROTO_TCP then finish "tcp" true
  else if protocol_number =? IPPROTO_UDP then finish "udp" true
  else if protocol_number =? IPPROTO_SCTP then finish "sctp" true
  else if protocol_number <=? 255 then finish (py_hex protocol_number) false
  else "".

(** ** Flow classification *)

Import GE.

(** [int(x) if x is not None else default] *)
Definition int_or (x : PyVal) (default : Z) : result Z :=
  if is_none x then Ok default else py_int x.

(** [if field: cmd += f"<name> {field} "] *)
Definition opt_match (name : string) (field : PyVal) : string :=
  if truthy field then name +s+ " " +s+ py_str field +s+ " " else "".

(** The flower filter command of one talker; both generators build it in
    the same way.  [None] stands for the [continue] taken when the talker
    has no interface name. *)
Definition filter_command (talker : PyVal) : result (option (PyVal * string)) :=
  interface <- py_get talker "interface_name" ;;
  if negb (truthy interface) then Ok None else
  src_mac <- py_get talker "source_mac" ;;
  dst_mac <- py_get talker "destination_mac" ;;
  src_ip <- py_get talker "source_ip" ;;
  dst_ip <- py_get talker "destination_ip" ;;
  dst_port <- py_get talker "destination_port" ;;
  src_port <- py_get talker "source_port" ;;
  vlan_id <- py_get talker "vlan_id" ;;
  vlan_prio <- py_get talker "vlan_priority" ;;
  ip_proto <- py_get talker "ip_protocol" ;;
  proto_num <- int_or ip_proto 65535 ;;
  dst_port_num <- int_or dst_port 0 ;;
  src_port_num <- int_or src_port 0 ;;
  let layer3_proto_cmd :=
    _get_ip_protocol_and_ports_filter_configuration proto_num dst_port_num
                                                    src_port_num in
  let cmd :=
    "tc filter add dev " +s+ py_str interface +s+ " egress protocol ip flower "
    +s+ opt_match "src_mac" src_mac
    +s+ opt_match "dst_mac" dst_mac
    +s+ opt_match "src_ip" src_ip
    +s+ opt_match "dst_ip" dst_ip
    +s+ (if negb (String.eqb layer3_proto_cmd "") then layer3_proto_cmd +s+ " " else "")
    +s+ "action vlan push id " +s+ py_str vlan_id +s+ " protocol 802.1Q priority "
    +s+ py_str vlan_prio +s+ " pipe "
    +s+ "action skbedit priority " +s+ py_str vlan_prio in
  Ok (Some (interface, strip cmd)).

Definition clsact_command (interface : PyVal) : string :=
  "tc qdisc add dev " +s+ py_str interface +s+ " clsact".

Section Filters.

(** What [tc qdisc show dev <interface>] prints; [None] when running it
    raises. *)
Variable tc_qdisc_show : string -> option string.

(** [_clsact_exists]: the substring test on the query output; any
    exception (also the one for an interface that is not a string) gives
    [False]. *)
Definition _clsact_exists (interface : PyVal) : bool :=
  match interface with
  | VStr name =>
      match tc_qdisc_show name with
      | Some stdout => contains "clsact" stdout
      | None => false
      end
  | _ => false
  end.

(** The state of the time-aware generator: the commands so far and the
    [processed_ifaces] set. *)
Definition GenState : Type := (list string * list PyVal)%type.

(** Body of [for talker in talkers] of the time-aware generator. *)
Definition time_aware_step (st : GenState) (talker : PyVal) : result GenState :=
  let (commands, processed_ifaces) := st in
  fc <- filter_command talker ;;
  match fc with
  | None => Ok st
  | Some (interface, cmd_ip) =>
      if negb (is_hashable interface) then Raise TypeError else
      let st' :=
        if negb (existsb (key_eqb interface) processed_ifaces) then
          (if negb (_clsact_exists interface)
           then commands ++ [clsact_command interface] else commands,
           processed_ifaces ++ [interface])
        else (commands, processed_ifaces) in
      Ok (fst st' ++ [cmd_ip], snd st')
  end.

Definition create_tc_filter_commands_for_time_aware_talkers
  (vlan_time_aware_info : TalkerMap) : result (list string) :=
  st <- for_each (fun st item => for_each time_aware_step (snd item) st)
                 vlan_time_aware_info ([], []) ;;
  Ok (fst st).

End Filters.

(** Body of [for talker in talkers] of the non-time-aware generator. *)
Definition non_time_aware_step (commands : list string) (talker : PyVal)
  : result (list string) :=
  fc <- filter_command talker ;;
  match fc with
  | None => Ok commands
  | Some (_, cmd) => Ok (commands ++ [cmd])
  end.

Definition create_tc_filter_commands_for_non_time_aware_talkers
  (vlan_non_time_aware_info : TalkerMap) : result (list string) :=
  for_each (fun commands item => for_each non_time_aware_step (snd item) commands)
           vlan_non_time_aware_info [].

End TC.

(* ====================================================================== *)
(** * tsn_config_parser/xml_parser.py *)
(* ====================================================================== *)

Module XML.
Import Py.

(** An [xml.etree.ElementTree.Element]: tag, attributes, text and the
    child elements in document order. *)
Inductive Element : Type :=
| Elem (tag : string) (attrib : list (string * string)) (text : option string)
       (children : list Element).

Definition tag_of (e : Element) : string :=
  match e with Elem t _ _ _ => t end.

Definition attrib_of (e : Element) : list (string * string) :=
  match e with Elem _ a _ _ => a end.

Definition text_of (e : Element) : option string :=
  match e with Elem _ _ t _ => t end.

Definition children_of (e : Element) : list Element :=
  match e with Elem _ _ _ c => c end.

(** [tag.split("}")[-1] if "}" in tag else tag] *)
Definition _strip_namespace (tag : string) : string :=
  if has_char "}" tag then after_last "}" tag else tag.

(** [node.update({f"@{k}": v for k, v in element.attrib.items()})] *)
Definition add_attributes (node : list (string * PyVal))
  (attrib : list (string * string)) : list (string * PyVal) :=
  fold_left (fun node kv => dict_set node ("@" +s+ fst kv) (VStr (snd kv)))
            attrib node.

(** The merge of one converted child into [node]: a tag seen before turns
    into (or grows) a list, a new tag is stored as it is. *)
Definition add_child (node : list (string * PyVal)) (child_tag : string)
  (child_value : PyVal) : list (string * PyVal) :=
  match lookup child_tag node with
  | Some existing =>
      let items := match existing with
                   | VList l => l
                   | _ => [existing]
                   end in
      dict_set node child_tag (VList (items ++ [child_value]))
  | None => dict_set node child_tag child_value
  end.

(** The last steps of [_element_to_dict], once the children are merged. *)
Definition finish_element (has_children has_attrib : bool) (text : option string)
  (node : list (string * PyVal)) : PyVal :=
  let text := match text with Some t => strip t | None => "" end in
  if negb (String.eqb text "") then
    if has_children || has_attrib then VDict (dict_set node "#text" (VStr text))
    else VStr text
  else if nonempty node then VDict node else VNone.

(** [_element_to_dict]; the one-entry dict [{tag: value}] it returns is
    the pair [(tag, value)]. *)
Fixpoint _element_to_dict (element : Element) : string * PyVal :=
  match element with
  | Elem etag attrib text children =>
      let node := add_attributes [] attrib in
      let node :=
        fold_left (fun node child =>
                     let child_dict := _element_to_dict child in
                     add_child node (fst child_dict) (snd child_dict))
                  children node in
      (_strip_namespace etag,
       finish_element (nonempty children) (nonempty attrib) text node)
  end.

(** The [for child in children] loop, from a given [node]. *)
Definition merge_children (children : list Element) (node : list (string * PyVal))
  : list (string * PyVal) :=
  fold_left (fun node child =>
               let child_dict := _element_to_dict child in
               add_child node (fst child_dict) (snd child_dict))
            children node.

(** The mapping built for an element, before its text is looked at. *)
Definition node_of (element : Element) : list (string * PyVal) :=
  merge_children (children_of element) (add_attributes [] (attrib_of element)).

(** A top-level document: the dict [{tag: value}] itself. *)
Definition document_of (element : Element) : PyVal :=
  VDict [_element_to_dict element].

End XML.

(* ====================================================================== *)
(** * tsn_config_parser/universal_parser.py, with the format parsers *)
(* ====================================================================== *)

Module UP.
Import Py.

(** [_contains_chronos], the same in [XMLParser] and [YAMLParser]. *)
Fixpoint _contains_chronos (node : PyVal) : bool :=
  match node with
  | VDict d =>
      (fix items (d : list (string * PyVal)) : bool :=
         match d with
         | [] => false
         | (k, v) :: rest =>
             if contains "chronos-domain" (lower k)
                || contains "chronos-domain" (lower (py_str v))
             then true
             else if _contains_chronos v then true
             else items rest
         end) d
  | VList l => existsb _contains_chronos l
  | _ => false
  end.

(** The suffix of [s] that starts at its last [c]. *)
Fixpoint from_last (c : ascii) (s : string) : option string :=
  match s with
  | EmptyString => None
  | String c' r =>
      match from_last c r with
      | Some suffix => Some suffix
      | None => if Ascii.eqb c' c then Some s else None
      end
  end.

(** The second component of [os.path.splitext(p)] (POSIX paths): the last
    dot of the base name starts the extension, unless only dots precede
    it. *)
Definition splitext_ext (p : string) : string :=
  let base := after_last "/" p in
  let base := lstrip_by (fun c => Ascii.eqb c ".") base in
  match from_last "." base with
  | Some ext => ext
  | None => ""
  end.

(** The three parser instances held in [self.parsers]. *)
Inductive ParserKey : Type :=
| XmlParser
| YamlParser
| YmlParser.

(** [self.parsers.get(ext)] *)
Definition parsers_get (ext : string) : option ParserKey :=
  if String.eqb ext ".xml" then Some XmlParser
  else if String.eqb ext ".yaml" then Some YamlParser
  else if String.eqb ext ".yml" then Some YmlParser
  else None.

(** The parser object: the [documents] attribute of each of the three
    format parser instances, the current parser and the cached documents. *)
Record UniversalParser : Type := mkUP {
  xml_documents : list PyVal;
  yaml_documents : list PyVal;
  yml_documents : list PyVal;
  current_parser : option ParserKey;
  documents : list PyVal
}.

(** [UniversalParser()] *)
Definition init : UniversalParser := mkUP [] [] [] None [].

Definition parser_documents (up : UniversalParser) (k : ParserKey) : list PyVal :=
  match k with
  | XmlParser => xml_documents up
  | YamlParser => yaml_documents up
  | YmlParser => yml_documents up
  end.

Definition set_parser_documents (up : UniversalParser) (k : ParserKey)
  (docs : list PyVal) : UniversalParser :=
  match k with
  | XmlParser =>
      mkUP docs (yaml_documents up) (yml_documents up) (current_parser up) (documents up)
  | YamlParser =>
      mkUP (xml_documents up) docs (yml_documents up) (current_parser up) (documents up)
  | YmlParser =>
      mkUP (xml_documents up) (yaml_documents up) docs (current_parser up) (documents up)
  end.

Definition set_current_parser (up : UniversalParser) (k : ParserKey) : UniversalParser :=
  mkUP (xml_documents up) (yaml_documents up) (yml_documents up) (Some k) (documents up).

Definition set_documents (up : UniversalParser) (docs : list PyVal) : UniversalParser :=
  mkUP (xml_documents up) (yaml_documents up) (yml_documents up) (current_parser up) docs.

Section Parsing.

(** The environment: reading a file as UTF-8 text, [ET.fromstring] and
    [yaml.safe_load_all]; each may raise. *)
Variable read_file : string -> result string.
Variable et_fromstring : string -> result XML.Element.
Variable yaml_safe_load_all : string -> result (list PyVal).

(** What [XMLParser.parse] computes from the file. *)
Definition xml_load (file_path : string) : result (list PyVal) :=
  content <- read_file file_path ;;
  root <- et_fromstring ("<root>" +s+ content +s+ "</root>") ;;
  Ok (map XML.document_of (XML.children_of root)).

(** What [YAMLParser.parse] computes from the file: the documents that
    are not [None]. *)
Definition yaml_load (file_path : string) : result (list PyVal) :=
  content <- read_file file_path ;;
  docs <- yaml_safe_load_all content ;;
  Ok (filter (fun doc => negb (is_none doc)) docs).

Definition load (k : ParserKey) (file_path : string) : result (list PyVal) :=
  match k with
  | XmlParser => xml_load file_path
  | YamlParser | YmlParser => yaml_load file_path
  end.

(** [parser.parse(file_path)] on the instance [k]: its [documents] are
    reset first and filled when the load went through. *)
Definition format_parse (up : UniversalParser) (k : ParserKey) (file_path : string)
  : UniversalParser * result (list PyVal) :=
  let up := set_parser_documents up k [] in
  match load k file_path with
  | Ok docs => (set_parser_documents up k docs, Ok docs)
  | Raise e => (up, Raise e)
  end.

(** [UniversalParser.parse]: the new state and the returned documents or
    the exception. *)
Definition parse (up : UniversalParser) (file_path : string)
  : UniversalParser * result (list PyVal) :=
  let ext := splitext_ext (lower file_path) in
  match parsers_get ext with
  | None => (up, Raise ValueError)
  | Some parser =>
      let up := set_current_parser up parser in
      match format_parse up parser file_path with
      | (up, Ok docs) => (set_documents up docs, Ok docs)
      | (up, Raise e) => (up, Raise e)
      end
  end.

(** [UniversalParser.refresh] *)
Definition refresh (up : UniversalParser) (file_path : string)
  : UniversalParser * result (list PyVal) :=
  parse up file_path.

End Parsing.

(** [has_chronos_domain] of a format parser instance. *)
Definition parser_has_chronos_domain (docs : list PyVal) : bool :=
  existsb _contains_chronos docs.

(** [UniversalParser.has_chronos_domain] *)
Definition has_chronos_domain (up : UniversalParser) : bool :=
  match current_parser up with
  | None => false
  | Some k => parser_has_chronos_domain (parser_documents up k)
  end.

(** [UniversalParser.get_dictionary_helper]: the [GE_Dictionary] is its
    document list. *)
Definition get_dictionary_helper (up : UniversalParser) : option (list PyVal) :=
  if has_chronos_domain up then Some (documents up) else None.

End UP.

(* ====================================================================== *)
(** * Specification-side vocabulary *)
(* ====================================================================== *)

(** The notions the statements of Part II are phrased with.  They are
    written from the specification's wording, independently of the code
    above. *)

Module Spec.
Import Py.



(** A field of a mapping is absent when the key is missing or carries no
    value. *)
Definition absent (k : string) (d : list (string * PyVal)) : Prop :=
  lookup k d = None \/ lookup k d = Some VNone.

(** The value of a field, with the text "0" standing in for an absent one. *)
Definition field_or_zero (k : string) (d : list (string * PyVal)) : PyVal :=
  match lookup k d with
  | Some VNone | None => VStr "0"
  | Some v => v
  end.

(** The entry's operation is the recognized state-setting one. *)
Definition is_set_gate_states (d : list (string * PyVal)) : Prop :=
  lookup "operation-name" d = Some (VStr "sched:set-gate-states").



(** One optional port clause of the protocol/port match fragment. *)
Definition port_clause (keyword : string) (port : Z) : string :=
  if Z_le_dec 1 port then
    if Z_le_dec port 65535 then keyword +s+ " " +s+ str_of_Z port +s+ " " else ""
  else "".

(** A document with one interface and a two-entry gate control list: a
    state-setting entry and one with an operation outside the model. *)
Definition example_gate_document : PyVal :=
  VDict [("interfaces", VDict [("interface", VDict [
    ("name", VStr "eth0");
    ("gate-parameter-table", VDict [("admin-control-list", VDict [
      ("gate-control-entry", VList [
        VDict [("operation-name", VStr "sched:set-gate-states");
               ("gate-states-value", VStr "15");
               ("time-interval-value", VStr "500000")];
        VDict [("operation-name", VStr "sched:hold-mac");
               ("gate-states-value", VInt 7);
               ("time-interval-value", VInt 1000)]])])])])])].

(** The same shape with a single state-setting entry that carries neither
    a gate-states value nor a time interval. *)
Definition example_bare_gate_document : PyVal :=
  VDict [("interfaces", VDict [("interface", VDict [
    ("name", VStr "eth0");
    ("gate-parameter-table", VDict [("admin-control-list", VDict [
      ("gate-control-entry",
        VDict [("operation-name", VStr "sched:set-gate-states");
               ("index", VStr "0")])])])])])].




(** A boolean attribute of a talker record, false when it is missing. *)
Definition flag (k : string) (t : PyVal) : bool :=
  match t with
  | VDict d => match lookup k d with
               | Some v => truthy v
               | None => false
               end
  | _ => false
  end.

Definition vlan_time_aware (t : PyVal) : bool :=
  flag "vlan_tag" t && flag "time_aware" t.

Definition vlan_non_time_aware (t : PyVal) : bool :=
  flag "vlan_tag" t && negb (flag "time_aware" t).

Definition is_dict (v : PyVal) : Prop :=
  match v with
  | VDict _ => True
  | _ => False
  end.

(** The keys of a map are pairwise different. *)
Fixpoint distinct_keys (m : GE.TalkerMap) : Prop :=
  match m with
  | [] => True
  | (k, _) :: rest =>
      Forall (fun kv => key_eqb k (fst kv) = false) rest /\ distinct_keys rest
  end.

(** A talker map: a dict (so its keys differ) from stream ids to lists of
    talker records. *)
Definition talker_map (m : GE.TalkerMap) : Prop :=
  distinct_keys m /\ Forall (fun kv => Forall is_dict (snd kv)) m.

(** The streams of [m] cut down to the talkers that satisfy [keep], without
    the streams left with none. *)
Definition select (keep : PyVal -> bool) (m : GE.TalkerMap) : GE.TalkerMap :=
  flat_map (fun kv => match filter keep (snd kv) with
                      | [] => []
                      | kept => [(fst kv, kept)]
                      end) m.

(** [t] is a talker of stream [sid] in [m]. *)
Definition talker_of (m : GE.TalkerMap) (sid t : PyVal) : Prop :=
  exists ts, In (sid, ts) m /\ In t ts.

(** The talker set of the repository's own filter test. *)
Definition sample_all_talker_info : GE.TalkerMap :=
  [ (VStr "stream1",
     [ VDict [("vlan_tag", VBool true); ("time_aware", VBool true);
              ("interface_name", VStr "eth0")];
       VDict [("vlan_tag", VBool true); ("time_aware", VBool false);
              ("interface_name", VStr "eth1")];
       VDict [("vlan_tag", VBool false); ("time_aware", VBool true);
              ("interface_name", VStr "eth2")] ]);
    (VStr "stream2",
     [ VDict [("vlan_tag", VBool true); ("time_aware", VBool true);
              ("interface_name", VStr "enp1s0")];
       VDict [("vlan_tag", VBool false); ("time_aware", VBool false);
              ("interface_name", VStr "enp2s0")] ]) ].

(** ** Time-aware detection *)

(** [v] occurs in [w]: it is [w] itself, or it occurs in an element or in a
    field of [w]. *)
Inductive occurs_in (v : PyVal) : PyVal -> Prop :=
| occurs_here : occurs_in v v
| occurs_in_element (l : list PyVal) (x : PyVal) :
    In x l -> occurs_in v x -> occurs_in v (VList l)
| occurs_in_field (d : list (string * PyVal)) (k : string) (x : PyVal) :
    In (k, x) d -> occurs_in v x -> occurs_in v (VDict d).

(** [v] is a node of one of the documents. *)
Definition node_of_documents (documents : list PyVal) (v : PyVal) : Prop :=
  exists doc, In doc documents /\ occurs_in v doc.

(** [v] is one of the three time-aware source values of the config-list
    entry [cfg]: its [time-aware-offset], or the [earliest-transmit-offset]
    or [latest-transmit-offset] of its [time-aware] block. *)
Inductive offset_source (cfg : PyVal) (v : PyVal) : Prop :=
| source_time_aware_offset (d : list (string * PyVal)) :
    cfg = VDict d ->
    lookup "time-aware-offset" d = Some v ->
    offset_source cfg v
| source_earliest (d block : list (string * PyVal)) :
    cfg = VDict d ->
    lookup "time-aware" d = Some (VDict block) ->
    lookup "earliest-transmit-offset" block = Some v ->
    offset_source cfg v
| source_latest (d block : list (string * PyVal)) :
    cfg = VDict d ->
    lookup "time-aware" d = Some (VDict block) ->
    lookup "latest-transmit-offset" block = Some v ->
    offset_source cfg v.

Definition zero_equivalent (s : string) : Prop :=
  s = "0" \/ s = "0.0" \/ s = "".

(** The value is not falsy and its trimmed text is not a zero. *)
Definition non_zero_value (v : PyVal) : Prop :=
  truthy v = true /\ ~ zero_equivalent (strip (py_str v)).

(** Some source value of the config-list is present and not a zero. *)
Definition has_time_aware_source (cfg_lists : list PyVal) : Prop :=
  exists cfg v, In cfg cfg_lists /\ offset_source cfg v /\ non_zero_value v.

(** [rec] is the record built from a talker node of the documents. *)
Definition record_of_talker (documents : list PyVal) (rec talker : PyVal) : Prop :=
  node_of_documents documents talker /\ GE.talker_entry talker = Ok rec.

(** Every record of the map was built from a talker of the documents. *)
Definition records_from (documents : list PyVal) (m : GE.TalkerMap) : Prop :=
  forall sid recs rec,
    In (sid, recs) m -> In rec recs ->
    exists talker, record_of_talker documents rec talker.

(** A document with one stream and two talkers: the first has a
    time-aware offset, the second a zero one. *)
Definition example_talker (offset : string) : PyVal :=
  VDict [
    ("end-station-interfaces", VDict [("mac-address", VStr "DE-AD-BE-EF-00-01")]);
    ("interface-configuration", VDict [("interface-list", VDict [
      ("mac-address", VStr "DE-AD-BE-EF-00-01");
      ("interface-name", VStr "eth0");
      ("config-list", VList [
        VDict [("index", VStr "0");
               ("ieee802-mac-addresses",
                VDict [("destination-mac-address", VStr "01-00-5E-00-00-01")])];
        VDict [("index", VStr "1");
               ("ieee802-vlan-tag",
                VDict [("priority-code-point", VStr "2"); ("vlan-id", VStr "22")])];
        VDict [("index", VStr "2"); ("time-aware-offset", VStr offset)]])])])].

Definition example_stream_document : PyVal :=
  VDict [("cnc-config", VDict [("domain", VDict [
    ("domain-id", VStr "chronos-domain");
    ("cuc", VDict [
      ("cuc-id", VStr "cuc-1");
      ("stream", VDict [
        ("stream-id", VStr "de-ad-be-ef-00-01:00-05");
        ("talker", VList [example_talker "78600"; example_talker " 0 "])])])])])].

(** ** XML element conversion *)

(** The tag under which a child is stored in its parent's mapping, and the
    value it is converted to. *)
Definition child_tag (c : XML.Element) : string := fst (XML._element_to_dict c).
Definition child_value (c : XML.Element) : PyVal := snd (XML._element_to_dict c).

(** The converted values of the children stored under tag [t], in
    document order. *)
Definition child_values (children : list XML.Element) (t : string) : list PyVal :=
  map child_value (filter (fun c => String.eqb (child_tag c) t) children).

(** The first character of an element name is neither the attribute
    marker nor the one of the synthetic text key. *)
Definition is_element_name (t : string) : bool :=
  match t with
  | EmptyString => false
  | String c _ => negb (Ascii.eqb c "@") && negb (Ascii.eqb c "#")
  end.

Definition is_list (v : PyVal) : Prop := exists l, v = VList l.

(** <a id="7"><b>1</b><c>x</c><b>2</b><b>3</b></a> *)
Definition example_element : XML.Element :=
  XML.Elem "{urn:tsn}a" [("id", "7")] (Some " ")
    [ XML.Elem "b" [] (Some "1") [];
      XML.Elem "c" [] (Some " x ") [];
      XML.Elem "{urn:tsn}b" [] (Some "2") [];
      XML.Elem "b" [] (Some "3") [] ].

(** ** Flow classification *)

(** The talkers of a map in iteration order. *)
Definition talkers_of_map (info : GE.TalkerMap) : list PyVal :=
  flat_map snd info.

(** The talkers that have an interface name, each with its interface and
    its flower filter command. *)
Fixpoint usable_talkers (talkers : list PyVal) : result (list (PyVal * string)) :=
  match talkers with
  | [] => Ok []
  | t :: rest =>
      fc <- TC.filter_command t ;;
      items <- usable_talkers rest ;;
      Ok (match fc with
          | Some item => item :: items
          | None => items
          end)
  end.

Definition seen_before (iface : PyVal) (seen : list PyVal) : bool :=
  existsb (key_eqb iface) seen.

(** [interleaved present seen items out]: [out] lists the filter commands
    of [items] in order, and the command that creates the clsact qdisc of an
    interface stands right before the filter command of the first talker on
    that interface, provided the interface was not among [seen] and no
    clsact qdisc was detected on it; there is no other command. *)
Inductive interleaved (present : PyVal -> bool)
  : list PyVal -> list (PyVal * string) -> list string -> Prop :=
| interleaved_done (seen : list PyVal) :
    interleaved present seen [] []
| interleaved_create (seen : list PyVal) (iface : PyVal) (cmd : string)
    (items : list (PyVal * string)) (out : list string) :
    seen_before iface seen = false ->
    present iface = false ->
    interleaved present (seen ++ [iface]) items out ->
    interleaved present seen ((iface, cmd) :: items)
                (("tc qdisc add dev " +s+ py_str iface +s+ " clsact") :: cmd :: out)
| interleaved_found (seen : list PyVal) (iface : PyVal) (cmd : string)
    (items : list (PyVal * string)) (out : list string) :
    seen_before iface seen = false ->
    present iface = true ->
    interleaved present (seen ++ [iface]) items out ->
    interleaved present seen ((iface, cmd) :: items) (cmd :: out)
| interleaved_again (seen : list PyVal) (iface : PyVal) (cmd : string)
    (items : list (PyVal * string)) (out : list string) :
    seen_before iface seen = true ->
    interleaved present seen items out ->
    interleaved present seen ((iface, cmd) :: items) (cmd :: out).

(** What the specification says of a flow-classification generator. *)
Definition creates_missing_clsact
  (generator : (string -> option string) -> GE.TalkerMap -> result (list string))
  : Prop :=
  forall tc_qdisc_show info items,
    usable_talkers (talkers_of_map info) = Ok items ->
    Forall (fun item => is_hashable (fst item) = true) items ->
    exists commands,
      generator tc_qdisc_show info = Ok commands
      /\ interleaved (TC._clsact_exists tc_qdisc_show) [] items commands.

(** The minimal talker data of the repository's test. *)
Definition minimal_data : GE.TalkerMap :=
  [ (VStr "streamZ",
     [ VDict [("interface_name", VStr "eth0");
              ("vlan_id", VInt 300);
              ("vlan_priority", VInt 2)] ]) ].

(** Two streams: three talkers on two interfaces, and one talker without
    an interface name. *)
Definition example_time_aware_info : GE.TalkerMap :=
  [ (VStr "streamA",
     [ VDict [("interface_name", VStr "enp170s0");
              ("source_mac", VStr "aa:bb:cc:dd:ee:ff");
              ("destination_mac", VStr "11:22:33:44:55:66");
              ("source_ip", VStr "192.168.1.10");
              ("destination_ip", VStr "192.168.1.20");
              ("ip_protocol", VStr "6");
              ("destination_port", VInt 8080);
              ("vlan_id", VInt 22);
              ("vlan_priority", VInt 3)];
       VDict [("interface_name", VStr "enp170s1");
              ("vlan_id", VInt 33);
              ("vlan_priority", VInt 4)] ]);
    (VStr "streamB",
     [ VDict [("interface_name", VNone); ("vlan_id", VInt 1)];
       VDict [("interface_name", VStr "enp170s0");
              ("ip_protocol", VInt 17);
              ("source_port", VStr "5050");
              ("vlan_id", VInt 44);
              ("vlan_priority", VInt 5)] ]) ].

(** ** The universal parser *)

Section ParserHistory.

Variable read_file : string -> result string.
Variable et_fromstring : string -> result XML.Element.
Variable yaml_safe_load_all : string -> result (list PyVal).

(** A parser object on which no [parse] call has succeeded yet: a fresh
    one, or one on which every call so far has raised. *)
Inductive no_parse_succeeded : UP.UniversalParser -> Prop :=
| fresh_parser : no_parse_succeeded UP.init
| failed_parse (up up' : UP.UniversalParser) (file_path : string) (e : exc) :
    no_parse_succeeded up ->
    UP.parse read_file et_fromstring yaml_safe_load_all up file_path = (up', Raise e) ->
    no_parse_succeeded up'
| failed_refresh (up up' : UP.UniversalParser) (file_path : string) (e : exc) :
    no_parse_succeeded up ->
    UP.refresh read_file et_fromstring yaml_safe_load_all up file_path = (up', Raise e) ->
    no_parse_succeeded up'.

End ParserHistory.

(** A small file system: one YAML file with two documents and an empty
    one between them, and one XML file that is not well formed. *)
Definition example_read_file (file_path : string) : result string :=
  if String.eqb file_path "Config.YAML" then Ok "yaml text"
  else if String.eqb file_path "broken.xml" then Ok "<a>"
  else Raise OSError.

Definition example_et_fromstring (text : string) : result XML.Element :=
  Raise ParseError.

Definition example_yaml_safe_load_all (text : string) : result (list PyVal) :=
  Ok [ VDict [("cnc-config",
               VDict [("domain", VDict [("domain-id", VStr "Chronos-Domain")])])];
       VNone;
       VDict [("interfaces", VNone)] ].

(** An optional argument, with the value it defaults to. *)
Definition or_else {A : Type} (o : option A) (default : A) : A :=
  match o with
  | Some a => a
  | None => default
  end.

End Spec.

(* ====================================================================== *)
(** * Key searches (GE_dictionary.py, universal_parser.py, yaml_parser.py,
      universal_dictionary.py) *)
(* ====================================================================== *)

Module Search.
Import Py.

(** [GE_Dictionary._find_all_keys], which is also
    [UniversalDictionary.find_all_by_key]: every value stored under [key],
    depth first, a hit before what lies below it. *)
Fixpoint _find_all_keys (node : PyVal) (key : string) : list PyVal :=
  match node with
  | VDict d =>
      (fix items (d : list (string * PyVal)) : list PyVal :=
         match d with
         | [] => []
         | (k, v) :: rest =>
             (if String.eqb k key then [v] else [])
             ++ _find_all_keys v key ++ items rest
         end) d
  | VList l =>
      (fix elems (l : list PyVal) : list PyVal :=
         match l with
         | [] => []
         | item :: rest => _find_all_keys item key ++ elems rest
         end) l
  | _ => []
  end.

(** The closure [_recursive_search] of [UniversalParser.find_all_by_key]
    and of [YAMLParser.find_all_by_key]: it appends to the [results] list
    of the enclosing call, threaded here as an accumulator. *)
Fixpoint _recursive_search (key : string) (obj : PyVal) (results : list PyVal)
  : list PyVal :=
  match obj with
  | VDict d =>
      (fix items (d : list (string * PyVal)) (results : list PyVal) : list PyVal :=
         match d with
         | [] => results
         | (k, v) :: rest =>
             let results := if String.eqb k key then results ++ [v] else results in
             items rest (_recursive_search key v results)
         end) d results
  | VList l =>
      (fix elems (l : list PyVal) (results : list PyVal) : list PyVal :=
         match l with
         | [] => results
         | item :: rest => elems rest (_recursive_search key item results)
         end) l results
  | _ => results
  end.

(** [find_all_by_key] over the cached documents. *)
Definition find_all_by_key (documents : list PyVal) (key : string) : list PyVal :=
  fold_left (fun results doc => _recursive_search key doc results) documents [].

(** [str(s["#text"] if isinstance(s, dict) and "#text" in s else s)] *)
Definition stream_id_text (s : PyVal) : string :=
  match s with
  | VDict d => match lookup "#text" d with
               | Some text => py_str text
               | None => py_str s
               end
  | _ => py_str s
  end.

(** [GE_Dictionary.get_stream_ids] *)
Definition get_stream_ids (documents : list PyVal) : list string :=
  fold_left (fun stream_ids doc =>
               stream_ids ++ map stream_id_text (_find_all_keys doc "stream-id"))
            documents [].

End Search.

(* ====================================================================== *)
(** * Command execution and resets (tc_command.py) *)
(* ====================================================================== *)

Module Shell.
Import Py.

(** The dict [{"stdout": ..., "stderr": ..., "returncode": ...}]. *)
Record Completed : Type := mkCompleted {
  stdout : string;
  stderr : string;
  returncode : Z
}.

(** [{"stdout": "", "stderr": "", "returncode": 0}] *)
Definition success_result : Completed := mkCompleted "" "" 0.

(** The results dict of [reset_qdisc_interface]. *)
Record ResetResults : Type := mkResetResults {
  interface : string;
  egress_filters : Completed;
  clsact : Completed;
  root : Completed
}.

Section Exec.

(** The system the commands act on, and [subprocess.run(cmd, shell=True,
    capture_output=True, text=True)] on it: the new system and the
    completed process, or an exception. *)
Variable World : Type.
Variable subprocess_run : World -> string -> World * result Completed.

(** [str(exc)] *)
Variable exc_message : exc -> string.

(** A computation on the system that may raise. *)
Definition Run (A : Type) : Type := World -> World * result A.

Definition ret {A : Type} (a : A) : Run A := fun w => (w, Ok a).

Definition rbind {A B : Type} (m : Run A) (k : A -> Run B) : Run B :=
  fun w => match m w with
           | (w', Ok a) => k a w'
           | (w', Raise e) => (w', Raise e)
           end.

(** [run_tc_command]; the pause after the command changes nothing that is
    modelled. *)
Definition run_tc_command (command : string) : Run Completed :=
  rbind (fun w => subprocess_run w ("sudo " +s+ command))
        (fun process => ret (mkCompleted (strip (stdout process))
                                         (strip (stderr process))
                                         (returncode process))).

Definition show_qdisc (interface : string) : Run Completed :=
  run_tc_command ("tc qdisc show dev " +s+ interface).

Definition show_tc_egress_filters (interface : string) : Run Completed :=
  run_tc_command ("tc filter show dev " +s+ interface +s+ " egress").

(** The common shape of the three single resets: query, delete when the
    marker is in the output, and return the success dict, which replaces
    whatever the delete returned. *)
Definition reset_when (show : Run Completed) (marker cmd : string) : Run Completed :=
  rbind show (fun output =>
    if contains marker (stdout output)
    then rbind (run_tc_command cmd) (fun _ => ret success_result)
    else ret success_result).

Definition reset_root_qdisc_interface (interface : string) : Run Completed :=
  reset_when (show_qdisc interface) "root"
             ("tc qdisc del dev " +s+ interface +s+ " root").

Definition reset_clsact_qdisc_interface (interface : string) : Run Completed :=
  reset_when (show_qdisc interface) "clsact"
             ("tc qdisc del dev " +s+ interface +s+ " clsact").

Definition reset_egress_filter_interface (interface : string) : Run Completed :=
  reset_when (show_tc_egress_filters interface) "filter"
             ("tc filter del dev " +s+ interface +s+ " egress").

(** One [try] block of [reset_qdisc_interface]: the step's entry of the
    results dict keeps the success dict unless the delete runs, and an
    exception turns into a result with return code 1. *)
Definition reset_step (show : Run Completed) (marker cmd : string)
  : World -> World * Completed :=
  fun w =>
    match show w with
    | (w1, Raise e) => (w1, mkCompleted "" (exc_message e) 1)
    | (w1, Ok state) =>
        if negb (String.eqb (stdout state) "") && contains marker (stdout state)
        then match run_tc_command cmd w1 with
             | (w2, Ok res) => (w2, res)
             | (w2, Raise e) => (w2, mkCompleted "" (exc_message e) 1)
             end
        else (w1, success_result)
    end.

Definition reset_qdisc_interface (interface : string) (w : World)
  : World * ResetResults :=
  let (w1, filters) :=
    reset_step (show_tc_egress_filters interface) "filter"
               ("tc filter del dev " +s+ interface +s+ " egress") w in
  let (w2, cls) :=
    reset_step (show_qdisc interface) "clsact"
               ("tc qdisc del dev " +s+ interface +s+ " clsact") w1 in
  let (w3, rt) :=
    reset_step (show_qdisc interface) "root"
               ("tc qdisc del dev " +s+ interface +s+ " root") w2 in
  (w3, mkResetResults interface filters cls rt).

End Exec.

Arguments ret {World A} a _.
Arguments rbind {World A B} m k _.

End Shell.

(* ====================================================================== *)
(** * The callers in time_config_hub/core.py *)
(* ====================================================================== *)

Module Core.
Import Py Shell.

(** What a method of [TIMEConfigHub] ends with: a value, or
    [TSNConfigError]. *)
Inductive outcome (A : Type) : Type :=
| Returned (a : A)
| TSNConfigError.

Arguments Returned {A} a.
Arguments TSNConfigError {A}.

Section Hub.

Variable World : Type.
Variable subprocess_run : World -> string -> World * result Completed.

(** [TIMEConfigHub.reset_config]: the three single resets in order, the
    check of their return codes, and every exception turned into
    [TSNConfigError]. *)
Definition reset_config (interface : string) (w : World) : World * outcome bool :=
  let resets :=
    rbind (reset_egress_filter_interface World subprocess_run interface) (fun r1 =>
    rbind (reset_clsact_qdisc_interface World subprocess_run interface) (fun r2 =>
    rbind (reset_root_qdisc_interface World subprocess_run interface) (fun r3 =>
    ret [r1; r2; r3]))) in
  match resets w with
  | (w', Ok results) =>
      if forallb (fun res => returncode res =? 0) results
      then (w', Returned true)
      else (w', TSNConfigError)
  | (w', Raise _) => (w', TSNConfigError)
  end.

(** [TIMEConfigHub._run_tc_commands]: the number of commands that ended
    with a return code other than 0. *)
Fixpoint run_tc_commands_from (commands : list string) (dry_run : bool)
  (fail_count : Z) : Run World Z :=
  match commands with
  | [] => ret fail_count
  | cmd :: rest =>
      if dry_run then run_tc_commands_from rest dry_run fail_count
      else rbind (run_tc_command World subprocess_run cmd) (fun result =>
             run_tc_commands_from rest dry_run
               (if negb (returncode result =? 0) then fail_count + 1 else fail_count))
  end.

Definition _run_tc_commands (commands : list string) (dry_run : bool) : Run World Z :=
  run_tc_commands_from commands dry_run 0.

End Hub.

End Core.

(* ====================================================================== *)
(** * Vocabulary for the further properties *)
(* ====================================================================== *)

Module Terms.
Import Py Shell.

Section Traces.

Variable World : Type.
Variable subprocess_run : World -> string -> World * result Completed.

(** The system after the shell has run the command lines in order. *)
Fixpoint after_commands (lines : list string) (w : World) : World :=
  match lines with
  | [] => w
  | line :: rest => after_commands rest (fst (subprocess_run w line))
  end.

(** What each of the command lines ends with, run in order. *)
Fixpoint outputs (lines : list string) (w : World) : list (result Completed) :=
  match lines with
  | [] => []
  | line :: rest =>
      snd (subprocess_run w line) :: outputs rest (fst (subprocess_run w line))
  end.

(** The shell runs every command line to completion. *)
Definition never_raises : Prop :=
  forall w line, exists w' process, subprocess_run w line = (w', Ok process).

(** Whatever the state of the system, the output of the command line
    does not mention [marker]. *)
Definition never_shows (line marker : string) : Prop :=
  forall w, exists w' process,
    subprocess_run w line = (w', Ok process)
    /\ contains marker (strip (stdout process)) = false.

End Traces.

Definition failed (r : result Completed) : bool :=
  match r with
  | Ok process => negb (returncode process =? 0)
  | Raise _ => false
  end.

Definition sudo (command : string) : string := "sudo " +s+ command.

(** A system that is the log of the command lines run on it: every query
    shows a taprio root qdisc with a clsact qdisc and a filter, and every
    delete fails. *)
Definition logging_run (log : list string) (line : string)
  : list string * result Completed :=
  (log ++ [line],
   Ok (if contains " show " line
       then mkCompleted "qdisc taprio 100: root  filter clsact ffff: " "" 0
       else mkCompleted "" "RTNETLINK answers: Operation not permitted" 2)).

(** A system without qdisc or filter: every command prints nothing. *)
Definition silent_run (log : list string) (line : string)
  : list string * result Completed :=
  (log ++ [line], Ok (mkCompleted "" "" 0)).

End Terms.

Module Terms2.
Import Py.

(** The text holds the marker token, whatever its case. *)
Definition has_marker (s : string) : bool :=
  contains "chronos-domain" (lower s).

(** [suffix] ends [s]. *)
Definition ends_with (s suffix : string) : Prop :=
  exists before, s = before +s+ suffix.

(** The keys of a talker map as the extraction builds it: truthy,
    hashable, and none with an empty talker list. *)
Definition stream_keys_ok (m : GE.TalkerMap) : Prop :=
  Forall (fun kv => truthy (fst kv) = true /\ is_hashable (fst kv) = true
                    /\ snd kv <> []) m.

(** Some entry of the config-list carries a VLAN-tag block. *)
Definition has_vlan_block (cfg_lists : list PyVal) : Prop :=
  exists cfg d block,
    In cfg cfg_lists /\ cfg = VDict d
    /\ lookup "ieee802-vlan-tag" d = Some (VDict block).

(** A talker map whose second talker gives its protocol by name. *)
Definition example_bad_protocol_info : GE.TalkerMap :=
  [ (VStr "streamA",
     [ VDict [("interface_name", VStr "eth0"); ("vlan_id", VInt 10);
              ("vlan_priority", VInt 1)];
       VDict [("interface_name", VStr "eth1"); ("ip_protocol", VStr "udp");
              ("vlan_id", VInt 11); ("vlan_priority", VInt 2)] ]) ].

(** The value of a field of a mapping, [None] when it is missing. *)
Definition field_or_none (k : string) (d : list (string * PyVal)) : PyVal :=
  match lookup k d with
  | Some v => v
  | None => VNone
  end.

(** The parts put end to end. *)
Definition glue (parts : list string) : string :=
  fold_right String.append "" parts.

(** A normalized MAC address field: nothing, or text without a hyphen. *)
Definition mac_field (v : PyVal) : Prop :=
  v = VNone \/ exists s, v = VStr s /\ has_char "-" s = false.

End Terms2.

(* ====================================================================== *)
(** * Part II: theorems *)
(* ====================================================================== *)

Import Py.

(** ** General facts about the exception monad and the loops *)

Section Loops.

Context {A S : Type}.

Lemma for_each_app (body : S -> A -> result S) (xs ys : list A) (st : S) :
  for_each body (xs ++ ys) st = (st' <- for_each body xs st ;; for_each body ys st').
Proof.
  revert st; induction xs as [|x xs IH]; intros st; simpl; [reflexivity|].
  destruct (body st x); simpl; auto.
Qed.

(** A loop that keeps an invariant. *)
Lemma for_each_invariant (P : S -> Prop) (body : S -> A -> result S) (xs : list A) :
  (forall st x st', In x xs -> P st -> body st x = Ok st' -> P st') ->
  forall st st', P st -> for_each body xs st = Ok st' -> P st'.
Proof.
  induction xs as [|x xs IH]; intros Hstep st st' HP Hrun; simpl in Hrun.
  - now inversion Hrun; subst.
  - destruct (body st x) as [st1|e] eqn:Hb; simpl in Hrun; [|discriminate].
    apply IH with (st := st1); auto.
    + intros s y s' Hy. apply Hstep. now right.
    + apply (Hstep st x st1); auto. now left.
Qed.

End Loops.

(** A loop whose body appends one computed element per item is a map. *)
Lemma for_each_collect {A B : Type} (f : A -> result B) (xs : list A) (acc : list B) :
  for_each (fun acc x => y <- f x ;; Ok (acc ++ [y])) xs acc
  = (ys <- map_result f xs ;; Ok (acc ++ ys)).
Proof.
  revert acc; induction xs as [|x xs IH]; intros acc; simpl.
  - now rewrite app_nil_r.
  - destruct (f x) as [y|e]; simpl; [|reflexivity].
    rewrite IH. destruct (map_result f xs) as [ys|e]; simpl; [|reflexivity].
    now rewrite <- app_assoc.
Qed.

Lemma map_result_Forall2 {A B : Type} (f : A -> result B) (R : A -> B -> Prop)
  (xs : list A) :
  (forall x, In x xs -> exists y, f x = Ok y /\ R x y) ->
  exists ys, map_result f xs = Ok ys /\ Forall2 R xs ys.
Proof.
  induction xs as [|x xs IH]; intros H; simpl.
  - exists []. split; [reflexivity|constructor].
  - destruct (H x (or_introl eq_refl)) as (y & Hy & HR).
    destruct IH as (ys & Hys & HF); [intros z Hz; apply H; now right|].
    exists (y :: ys). rewrite Hy, Hys. simpl. split; [reflexivity|now constructor].
Qed.

(* ====================================================================== *)
(** * Protocol and port matching (tc_command.py) *)
(* ====================================================================== *)

Module TCFacts.
Import TC Spec Terms2.

Lemma port_clause_in_range (keyword : string) (port : Z) :
  port_clause keyword port
  = if _is_port_in_range port then keyword +s+ " " +s+ str_of_Z port +s+ " " else "".
Proof.
  unfold port_clause, _is_port_in_range.
  destruct (Z_le_dec 1 port) as [H1|H1], (Z_le_dec port 65535) as [H2|H2];
    destruct (Z.leb_spec 1 port), (Z.leb_spec port 65535); simpl; try lia; reflexivity.
Qed.

Lemma append_assoc (a b c : string) : (a +s+ b) +s+ c = a +s+ (b +s+ c).
Proof. induction a as [|ch a IH]; simpl; [reflexivity|now rewrite IH]. Qed.

Lemma append_empty_r (a : string) : a +s+ "" = a.
Proof. induction a as [|ch a IH]; simpl; [reflexivity|now rewrite IH]. Qed.

(** The fragment of a protocol that matches ports. *)
Lemma named_protocol_fragment (name : string) :
  name <> "" ->
  (if negb (String.eqb name "") then "ip_proto " +s+ name +s+ " " else "")
  = "ip_proto " +s+ name +s+ " ".
Proof.
  intros Hn. destruct (String.eqb_spec name ""); [contradiction|reflexivity].
Qed.

(** C3. The protocol/port match fragment: empty for the match-any
    protocol 65535; the lowercase name of TCP (6), UDP (17) or SCTP (132)
    followed by the destination-port and then the source-port clause, each
    present exactly when its port lies in 1..65535; the hexadecimal protocol
    number without port clauses for any other protocol up to 255; empty for
    any other protocol above 255.  Protocol 65535 gives the empty fragment
    whatever the ports, and TCP with destination port 8080 and source port 0
    gives "ip_proto tcp dst_port 8080 ". *)
Theorem protocol_ports_fragment (p d s : Z) :
  0 <= p <= 65535 ->
  let fragment := _get_ip_protocol_and_ports_filter_configuration p d s in
  (p = 65535 -> fragment = "") /\
  (p = 6 -> fragment = "ip_proto tcp " +s+ port_clause "dst_port" d
                                       +s+ port_clause "src_port" s) /\
  (p = 17 -> fragment = "ip_proto udp " +s+ port_clause "dst_port" d
                                        +s+ port_clause "src_port" s) /\
  (p = 132 -> fragment = "ip_proto sctp " +s+ port_clause "dst_port" d
                                          +s+ port_clause "src_port" s) /\
  (p <> 6 -> p <> 17 -> p <> 132 -> p <= 255 ->
   fragment = "ip_proto " +s+ py_hex p +s+ " ") /\
  (p <> 65535 -> 255 < p -> fragment = "") /\
  _get_ip_protocol_and_ports_filter_configuration 65535 d s = "" /\
  _get_ip_protocol_and_ports_filter_configuration 6 8080 0
  = "ip_proto tcp dst_port 8080 ".
Proof.
  intros Hp fragment.
  assert (Hnamed : forall name, name <> "" ->
            (let protocol_port_cmd :=
               if negb (String.eqb name "") then "ip_proto " +s+ name +s+ " " else "" in
             let protocol_port_cmd :=
               if _is_port_in_range d && true
               then protocol_port_cmd +s+ "dst_port " +s+ str_of_Z d +s+ " "
               else protocol_port_cmd in
             if _is_port_in_range s && true
             then protocol_port_cmd +s+ "src_port " +s+ str_of_Z s +s+ " "
             else protocol_port_cmd)
            = ("ip_proto " +s+ name +s+ " ") +s+ port_clause "dst_port" d
                                             +s+ port_clause "src_port" s).
  { intros name Hn. cbv zeta. rewrite !port_clause_in_range, !andb_true_r.
    rewrite (named_protocol_fragment name Hn).
    destruct (_is_port_in_range d), (_is_port_in_range s);
      rewrite ?append_assoc, ?append_empty_r; reflexivity. }
  repeat split.
  - intros ->. reflexivity.
  - intros ->. subst fragment.
    unfold _get_ip_protocol_and_ports_filter_configuration. simpl Z.eqb. cbv iota.
    rewrite Hnamed by discriminate. reflexivity.
  - intros ->. subst fragment.
    unfold _get_ip_protocol_and_ports_filter_configuration. simpl Z.eqb. cbv iota.
    rewrite Hnamed by discriminate. reflexivity.
  - intros ->. subst fragment.
    unfold _get_ip_protocol_and_ports_filter_configuration. simpl Z.eqb. cbv iota.
    rewrite Hnamed by discriminate. reflexivity.
  - intros H6 H17 H132 H255. subst fragment.
    unfold _get_ip_protocol_and_ports_filter_configuration, IPPROTO_TCP, IPPROTO_UDP,
      IPPROTO_SCTP.
    destruct (Z.eqb_spec p 65535); [lia|].
    destruct (Z.eqb_spec p 6); [lia|].
    destruct (Z.eqb_spec p 17); [lia|].
    destruct (Z.eqb_spec p 132); [lia|].
    destruct (Z.leb_spec p 255); [|lia].
    rewrite !andb_false_r.
    assert (Hhex : py_hex p <> "").
    { unfold py_hex. destruct (p <? 0); discriminate. }
    destruct (String.eqb_spec (py_hex p) ""); [contradiction|reflexivity].
  - intros H65535 H255. subst fragment.
    unfold _get_ip_protocol_and_ports_filter_configuration, IPPROTO_TCP, IPPROTO_UDP,
      IPPROTO_SCTP.
    destruct (Z.eqb_spec p 65535); [lia|].
    destruct (Z.eqb_spec p 6); [lia|].
    destruct (Z.eqb_spec p 17); [lia|].
    destruct (Z.eqb_spec p 132); [lia|].
    destruct (Z.leb_spec p 255); [lia|reflexivity].
Qed.

Lemma protocol_ports_fragment_witness :
  _get_ip_protocol_and_ports_filter_configuration 6 8080 0
  = "ip_proto tcp dst_port 8080 ".
Proof.
  assert (H : 0 <= 6 <= 65535) by lia.
  exact (proj2 (proj2 (proj2 (proj2 (proj2 (proj2 (proj2
           (protocol_ports_fragment 6 8080 0 H)))))))).
Defined.

(** ** Schedule command generation *)

Lemma fold_left_snoc_map {A B : Type} (g : A -> B) (xs : list A) (acc : list B) :
  fold_left (fun acc x => acc ++ [g x]) xs acc = acc ++ map g xs.
Proof.
  revert acc; induction xs as [|x xs IH]; intros acc; simpl.
  - now rewrite app_nil_r.
  - rewrite IH, <- app_assoc. reflexivity.
Qed.

Lemma fold_left_app_flat_map {A B : Type} (f : A -> list B) (xs : list A)
  (acc : list B) :
  fold_left (fun acc x => acc ++ f x) xs acc = acc ++ flat_map f xs.
Proof.
  revert acc; induction xs as [|x xs IH]; intros acc; simpl.
  - now rewrite app_nil_r.
  - rewrite IH, <- app_assoc. reflexivity.
Qed.

(** [range(1, n + 1)] counts 1, 2, ..., n. *)
Lemma py_range_from_one (n : Z) :
  py_range 1 (n + 1) = map Z.of_nat (seq 1 (Z.to_nat n)).
Proof.
  unfold py_range. replace (n + 1 - 1) with n by lia.
  rewrite <- seq_shift, map_map. apply map_ext. intros i. lia.
Qed.

Lemma iface_commands_block (gcl : list string) (num_tc base_time : Z)
  (map_str queues_str handle_id flags : string) (txtime_delay delta : Z)
  (commands : list string) (iface : string) :
  iface_commands gcl num_tc base_time map_str queues_str handle_id flags
                 txtime_delay delta commands iface
  = commands ++
    taprio_command iface gcl num_tc base_time map_str queues_str handle_id flags
                   txtime_delay
    :: map (fun q => etf_command iface handle_id (Z.of_nat q) delta)
           (seq 1 (Z.to_nat num_tc)).
Proof.
  unfold iface_commands.
  rewrite (fold_left_snoc_map (fun q => etf_command iface handle_id q delta)).
  rewrite py_range_from_one, map_map, <- app_assoc. reflexivity.
Qed.

Lemma length_flat_map_const {A B : Type} (f : A -> list B) (n : nat) (xs : list A) :
  (forall x, List.length (f x) = n) ->
  List.length (flat_map f xs) = (List.length xs * n)%nat.
Proof.
  intros H. induction xs as [|x xs IH]; simpl; [reflexivity|].
  rewrite List.length_app, H, IH. reflexivity.
Qed.

Lemma glue_app (a b : list string) : glue (a ++ b) = glue a +s+ glue b.
Proof.
  unfold glue. induction a as [|x a IH]; cbn; [reflexivity|].
  now rewrite IH, append_assoc.
Qed.

Lemma join_glue (sep x : string) (xs : list string) :
  join sep (x :: xs) = x +s+ glue (map (fun y => sep +s+ y) xs).
Proof.
  revert x. induction xs as [|y xs IH]; intros x.
  - cbn. now rewrite append_empty_r.
  - change (join sep (x :: y :: xs)) with (x +s+ sep +s+ join sep (y :: xs)).
    rewrite IH. cbn [map glue fold_right].
    now rewrite append_assoc.
Qed.

(** The text of the taprio command. *)
Lemma taprio_command_text (iface : string) (gcl : list string) (num_tc base_time : Z)
  (map_str queues_str handle_id flags : string) (txtime_delay : Z) :
  taprio_command iface gcl num_tc base_time map_str queues_str handle_id flags
                 txtime_delay
  = "tc qdisc replace dev " +s+ iface +s+ " parent root handle " +s+ handle_id
    +s+ " taprio  num_tc " +s+ str_of_Z num_tc +s+ " map " +s+ map_str
    +s+ "  queues " +s+ queues_str
    +s+ "  base-time " +s+ str_of_Z base_time
    +s+ glue (map (fun entry => "  " +s+ entry +s+ " ") gcl)
    +s+ " flags " +s+ flags
    +s+ " txtime-delay " +s+ str_of_Z txtime_delay +s+ "  clockid CLOCK_TAI ".
Proof.
  unfold taprio_command.
  rewrite (fold_left_snoc_map (fun entry => " " +s+ entry +s+ " ")).
  cbn [app]. rewrite <- !app_assoc. cbn [app].
  rewrite join_glue. cbn [map].
  assert (Hcons : forall x xs, glue (x :: xs) = x +s+ glue xs) by reflexivity.
  rewrite !Hcons, map_app, glue_app, map_map. cbn [map]. rewrite !Hcons.
  change (glue []) with "".
  change (glue (map (fun x => " " +s+ " " +s+ x +s+ " ") gcl))
    with (glue (map (fun entry => "  " +s+ entry +s+ " ") gcl)).
  generalize (glue (map (fun entry => "  " +s+ entry +s+ " ") gcl)). intros entries.
  rewrite !append_assoc. cbn [String.append]. reflexivity.
Qed.

(** The text of the ETF command of a traffic class. *)
Lemma etf_command_text (iface handle_id : string) (q delta : Z) :
  etf_command iface handle_id q delta
  = "tc qdisc replace dev " +s+ iface +s+ " parent " +s+ handle_id
    +s+ ":" +s+ str_of_Z q
    +s+ " etf skip_sock_check offload delta " +s+ str_of_Z delta
    +s+ " clockid CLOCK_TAI ".
Proof.
  unfold etf_command. cbn [String.append]. reflexivity.
Qed.

(** C6. For any interfaces, gate-control list and [num_tc >= 1], the
    commands are, interface by interface in order, one taprio command
    followed by the ETF commands of the traffic classes 1, 2, ..., [num_tc]:
    [1 + num_tc] commands per interface.  The taprio command of an interface
    reads "tc qdisc replace dev <interface> parent root handle <handle>
    taprio ...", and the ETF command of class [q] on that interface reads
    "tc qdisc replace dev <interface> parent <handle>:<q> etf ... delta
    <delta> ...", with the same handle.  For ["enp170s0"], one gate-control
    entry and four traffic classes these are one taprio command and the four
    ETF commands of classes 1 to 4 under handle 100. *)
Theorem qdisc_commands_per_interface (now : Z) (interfaces gcl : list string)
  (num_tc : Z) (base_time : option Z) (map_str queues_str handle_id : option string)
  (flags : string) (txtime_delay delta : Z) :
  1 <= num_tc ->
  let base := or_else base_time now in
  let map_s := or_else map_str "0 1 2 3 0 0 0 0 0 0 0 0 0 0 0 0" in
  let queues := or_else queues_str "1@0 1@1 1@2 1@3" in
  let handle := or_else handle_id "100" in
  let commands :=
    create_tc_qdisc_gcl_command now interfaces gcl num_tc base_time map_str
                                queues_str handle_id flags txtime_delay delta in
  commands
  = flat_map (fun iface =>
                ("tc qdisc replace dev " +s+ iface +s+ " parent root handle " +s+ handle
                 +s+ " taprio  num_tc " +s+ str_of_Z num_tc +s+ " map " +s+ map_s
                 +s+ "  queues " +s+ queues
                 +s+ "  base-time " +s+ str_of_Z base
                 +s+ glue (map (fun entry => "  " +s+ entry +s+ " ") gcl)
                 +s+ " flags " +s+ flags
                 +s+ " txtime-delay " +s+ str_of_Z txtime_delay
                 +s+ "  clockid CLOCK_TAI ")
                :: map (fun q =>
                          "tc qdisc replace dev " +s+ iface +s+ " parent " +s+ handle
                          +s+ ":" +s+ str_of_Z (Z.of_nat q)
                          +s+ " etf skip_sock_check offload delta " +s+ str_of_Z delta
                          +s+ " clockid CLOCK_TAI ")
                       (seq 1 (Z.to_nat num_tc)))
             interfaces
  /\ Z.of_nat (List.length commands) = Z.of_nat (List.length interfaces) * (1 + num_tc)
  /\ create_tc_qdisc_gcl_command 1700000000000000000 ["enp170s0"]
       ["sched-entry S 0F 500000"] 4 None None None None default_flags
       default_txtime_delay default_delta
     = [ "tc qdisc replace dev enp170s0 parent root handle 100 taprio  num_tc 4 map 0 1 2 3 0 0 0 0 0 0 0 0 0 0 0 0  queues 1@0 1@1 1@2 1@3  base-time 1700000000000000000  sched-entry S 0F 500000  flags 0x1 txtime-delay 200000  clockid CLOCK_TAI ";
         "tc qdisc replace dev enp170s0 parent 100:1 etf skip_sock_check offload delta 175000 clockid CLOCK_TAI ";
         "tc qdisc replace dev enp170s0 parent 100:2 etf skip_sock_check offload delta 175000 clockid CLOCK_TAI ";
         "tc qdisc replace dev enp170s0 parent 100:3 etf skip_sock_check offload delta 175000 clockid CLOCK_TAI ";
         "tc qdisc replace dev enp170s0 parent 100:4 etf skip_sock_check offload delta 175000 clockid CLOCK_TAI " ].
Proof.
  intros Hn base map_s queues handle commands.
  assert (Heq : commands
    = flat_map (fun iface =>
                  taprio_command iface gcl num_tc base map_s queues handle flags
                                 txtime_delay
                  :: map (fun q => etf_command iface handle (Z.of_nat q) delta)
                         (seq 1 (Z.to_nat num_tc)))
               interfaces).
  { subst commands. unfold create_tc_qdisc_gcl_command.
    replace (match base_time with Some t => t | None => now end) with base
      by reflexivity.
    replace (match map_str with
             | Some m => m
             | None => "0 1 2 3" +s+ repeat_str " 0" 12
             end) with map_s by (destruct map_str; reflexivity).
    replace (match queues_str with Some q => q | None => "1@0 1@1 1@2 1@3" end)
      with queues by reflexivity.
    replace (match handle_id with Some h => h | None => "100" end)
      with handle by reflexivity.
    rewrite <- (app_nil_l (flat_map _ interfaces)).
    rewrite <- fold_left_app_flat_map.
    generalize (@nil string).
    induction interfaces as [|iface rest IH]; intros acc; simpl; [reflexivity|].
    rewrite iface_commands_block. apply IH. }
  split; [|split; [|reflexivity]].
  - rewrite Heq. apply flat_map_ext. intros iface.
    rewrite taprio_command_text.
    f_equal; apply map_ext; intros q; apply etf_command_text.
  - rewrite Heq.
    rewrite (length_flat_map_const _ (S (Z.to_nat num_tc))).
    + lia.
    + intros iface. simpl. now rewrite List.length_map, List.length_seq.
Qed.

Lemma qdisc_commands_per_interface_witness :
  Z.of_nat (List.length (create_tc_qdisc_gcl_command 0 ["enp170s0"; "enp171s0"]
                      ["sched-entry S 0F 500000"] 4 (Some 1000) None None None
                      default_flags default_txtime_delay default_delta))
  = 10.
Proof.
  assert (H : 1 <= 4) by lia.
  exact (proj1 (proj2 (qdisc_commands_per_interface 0 ["enp170s0"; "enp171s0"]
                         ["sched-entry S 0F 500000"] 4 (Some 1000) None None None
                         default_flags default_txtime_delay default_delta H))).
Defined.

End TCFacts.

(* ====================================================================== *)
(** * Gate-control entries (GE_dictionary.py) *)
(* ====================================================================== *)

Module GateFacts.
Import GE Spec.

Lemma py_get_dict (d : list (string * PyVal)) (k : string) :
  py_get (VDict d) k = Ok (match lookup k d with Some x => x | None => VNone end).
Proof. unfold py_get, py_get_default. now destruct (lookup k d). Qed.

(** The defaulting of the two numeric fields. *)
Lemma defaulted_field (d : list (string * PyVal)) (k : string) :
  (let x := match lookup k d with Some x => x | None => VNone end in
   if is_none x then VStr "0" else x) = field_or_zero k d.
Proof. unfold field_or_zero. destruct (lookup k d) as [[]|]; reflexivity. Qed.

Lemma is_set_gate_states_test (d : list (string * PyVal)) :
  is_str_eq set_gate_states
    (match lookup "operation-name" d with Some x => x | None => VNone end) = true
  <-> is_set_gate_states d.
Proof.
  unfold is_set_gate_states, set_gate_states.
  destruct (lookup "operation-name" d) as [[]|]; simpl; split; intros H;
    try discriminate.
  - apply String.eqb_eq in H. now subst.
  - inversion H. apply String.eqb_refl.
Qed.

(** What the loop body does with an entry that is a mapping. *)
Lemma format_entry_dict (acc : list string) (d : list (string * PyVal)) :
  format_entry acc (VDict d)
  = if is_str_eq set_gate_states
         (match lookup "operation-name" d with Some x => x | None => VNone end)
    then v <- py_int (field_or_zero "gate-states-value" d) ;;
         Ok (acc ++ ["sched-entry S " +s+ format_02X v +s+ " "
                     +s+ py_str (field_or_zero "time-interval-value" d)])
    else Ok (acc ++ ["sched-entry ? " +s+ py_str (field_or_zero "gate-states-value" d)
                     +s+ " " +s+ py_str (field_or_zero "time-interval-value" d)]).
Proof.
  unfold format_entry. rewrite !py_get_dict. cbn [bind].
  rewrite <- (defaulted_field d "gate-states-value").
  rewrite <- (defaulted_field d "time-interval-value").
  reflexivity.
Qed.


(** Above a byte the format is a minimum width, not a truncation. *)
Example format_02X_wide :
  format_02X 256 = "100" /\ format_02X 4095 = "FFF" /\ format_02X 9 = "09".
Proof. repeat split. Qed.







(** C9. A state-setting entry without a gate-states value is rendered
    with the hexadecimal field "00", and an entry without a time interval is
    rendered with the interval "0": the entry is neither skipped nor an
    error. *)
Theorem missing_gate_fields_default_to_zero (acc : list string)
  (d : list (string * PyVal)) :
  is_set_gate_states d ->
  (absent "gate-states-value" d ->
   format_entry acc (VDict d)
   = Ok (acc ++ ["sched-entry S 00 "
                 +s+ py_str (field_or_zero "time-interval-value" d)]))
  /\ (absent "time-interval-value" d ->
      forall v, py_int (field_or_zero "gate-states-value" d) = Ok v ->
      format_entry acc (VDict d)
      = Ok (acc ++ ["sched-entry S " +s+ format_02X v +s+ " 0"]))
  /\ (absent "gate-states-value" d -> absent "time-interval-value" d ->
      format_entry acc (VDict d) = Ok (acc ++ ["sched-entry S 00 0"]))
  /\ get_gate_control_entries_formatted [example_bare_gate_document]
     = Ok ["sched-entry S 00 0"].
Proof.
  intros Hset.
  assert (Hzero : forall k, absent k d -> field_or_zero k d = VStr "0").
  { intros k [H|H]; unfold field_or_zero; now rewrite H. }
  apply is_set_gate_states_test in Hset.
  repeat split.
  - intros Hs. rewrite format_entry_dict, Hset, (Hzero _ Hs). reflexivity.
  - intros Hi v Hv. rewrite format_entry_dict, Hset, Hv, (Hzero _ Hi). reflexivity.
  - intros Hs Hi. rewrite format_entry_dict, Hset, (Hzero _ Hs), (Hzero _ Hi).
    reflexivity.
Qed.

Lemma missing_gate_fields_default_to_zero_witness :
  format_entry [] (VDict [("operation-name", VStr "sched:set-gate-states")])
  = Ok ["sched-entry S 00 0"].
Proof.
  refine (proj1 (proj2 (proj2 (missing_gate_fields_default_to_zero []
            [("operation-name", VStr "sched:set-gate-states")] eq_refl))) _ _);
    left; reflexivity.
Defined.

End GateFacts.

(* ====================================================================== *)
(** * The VLAN x time-aware filters (GE_dictionary.py) *)
(* ====================================================================== *)

Module FilterFacts.
Import GE Spec.

Lemma is_vlan_time_aware_dict (t : PyVal) :
  is_dict t -> is_vlan_time_aware t = Ok (vlan_time_aware t).
Proof.
  destruct t; simpl; try contradiction. intros _.
  unfold is_vlan_time_aware, vlan_time_aware, flag, py_get_default.
  destruct (lookup "vlan_tag" d) as [vt|]; cbn [bind truthy];
    [destruct (truthy vt)|]; cbn [andb]; try reflexivity;
    destruct (lookup "time_aware" d); reflexivity.
Qed.

Lemma is_vlan_non_time_aware_dict (t : PyVal) :
  is_dict t -> is_vlan_non_time_aware t = Ok (vlan_non_time_aware t).
Proof.
  destruct t; simpl; try contradiction. intros _.
  unfold is_vlan_non_time_aware, vlan_non_time_aware, flag, py_get_default.
  destruct (lookup "vlan_tag" d) as [vt|]; cbn [bind truthy];
    [destruct (truthy vt)|]; cbn [andb]; try reflexivity;
    destruct (lookup "time_aware" d); reflexivity.
Qed.

Section Selection.

Variable p : PyVal -> result bool.
Variable keep : PyVal -> bool.
Hypothesis p_dict : forall t, is_dict t -> p t = Ok (keep t).

Lemma filter_result_filter (ts : list PyVal) :
  Forall is_dict ts -> filter_result p ts = Ok (filter keep ts).
Proof.
  induction 1 as [|t ts Ht _ IH]; simpl; [reflexivity|].
  rewrite (p_dict t Ht), IH. cbn [bind]. reflexivity.
Qed.

Lemma map_set_fresh (acc : TalkerMap) (k : PyVal) (v : list PyVal) :
  Forall (fun kv => key_eqb (fst kv) k = false) acc ->
  map_set acc k v = acc ++ [(k, v)].
Proof.
  induction 1 as [|[k' v'] acc Hk _ IH]; simpl; [reflexivity|].
  simpl in Hk. rewrite Hk, IH. reflexivity.
Qed.

(** The filter loop appends, stream by stream, what [select] keeps. *)
Lemma filter_loop (m acc : TalkerMap) :
  talker_map m ->
  (forall kv kv', In kv acc -> In kv' m -> key_eqb (fst kv) (fst kv') = false) ->
  for_each (filter_step p) m acc = Ok (acc ++ select keep m).
Proof.
  revert acc. induction m as [|[sid ts] m IH]; intros acc [Hkeys Hdicts] Hfresh.
  - simpl. now rewrite app_nil_r.
  - simpl in Hkeys. destruct Hkeys as [Hsid Hkeys].
    inversion Hdicts as [|? ? Hts Hrest]; subst. simpl in Hts.
    cbn [for_each filter_step select flat_map fst snd].
    rewrite (filter_result_filter ts Hts). cbn [bind].
    destruct (filter keep ts) as [|t kept] eqn:Hkept; cbn [nonempty bind].
    + apply IH; [split; assumption|].
      intros kv kv' Hin Hin'. apply Hfresh; [assumption|now right].
    + rewrite map_set_fresh.
      * rewrite IH.
        -- now rewrite <- app_assoc.
        -- split; assumption.
        -- intros kv kv' Hin Hin'. apply in_app_or in Hin as [Hin|[<-|[]]].
           ++ apply Hfresh; [assumption|now right].
           ++ rewrite Forall_forall in Hsid. now apply Hsid.
      * apply Forall_forall. intros kv Hin.
        apply (Hfresh kv (sid, ts)); [assumption|now left].
Qed.

Lemma filter_select (m : TalkerMap) :
  talker_map m -> for_each (filter_step p) m [] = Ok (select keep m).
Proof.
  intros Hm. rewrite (filter_loop m [] Hm); [reflexivity|]. intros ? ? [].
Qed.

End Selection.

(** Membership in a selection. *)
Lemma in_select (keep : PyVal -> bool) (m : TalkerMap) (sid : PyVal)
  (ts : list PyVal) :
  In (sid, ts) (select keep m)
  <-> exists ts0, In (sid, ts0) m /\ ts = filter keep ts0 /\ ts <> [].
Proof.
  unfold select. rewrite in_flat_map. split.
  - intros ([sid0 ts0] & Hin & Hsel). simpl in Hsel.
    destruct (filter keep ts0) as [|t kept] eqn:Hf; [contradiction|].
    destruct Hsel as [Heq|[]]. inversion Heq; subst.
    exists ts0. repeat split; [assumption|now symmetry|discriminate].
  - intros (ts0 & Hin & -> & Hne). exists (sid, ts0). split; [assumption|].
    simpl. destruct (filter keep ts0); [contradiction|now left].
Qed.

Lemma talker_of_select (keep : PyVal -> bool) (m : TalkerMap) (sid t : PyVal) :
  talker_of (select keep m) sid t <-> talker_of m sid t /\ keep t = true.
Proof.
  unfold talker_of. split.
  - intros (ts & Hin & Ht). apply in_select in Hin as (ts0 & Hin & -> & _).
    apply filter_In in Ht as [Ht Hk]. split; [now exists ts0|assumption].
  - intros [(ts0 & Hin & Ht) Hk]. exists (filter keep ts0). split.
    + apply in_select. exists ts0. repeat split; [assumption|].
      intros Hnil. assert (Hf : In t (filter keep ts0)) by (apply filter_In; auto).
      rewrite Hnil in Hf. contradiction.
    + apply filter_In. auto.
Qed.

(** C5. On a talker map the two filters return, stream by stream, the
    talkers with [vlan_tag] and [time_aware] both true, and the talkers with
    [vlan_tag] true and [time_aware] false; no talker is in both results,
    and a stream without a matching talker is absent from the result, never
    present with an empty list. *)
Theorem vlan_filters_partition (all_talker_info : TalkerMap) :
  talker_map all_talker_info ->
  exists aware non_aware,
    get_vlan_tagged_time_aware_talker_info all_talker_info = Ok aware
    /\ get_vlan_tagged_non_time_aware_talker_info all_talker_info = Ok non_aware
    /\ (forall sid t,
          talker_of aware sid t
          <-> talker_of all_talker_info sid t
              /\ flag "vlan_tag" t = true /\ flag "time_aware" t = true)
    /\ (forall sid t,
          talker_of non_aware sid t
          <-> talker_of all_talker_info sid t
              /\ flag "vlan_tag" t = true /\ flag "time_aware" t = false)
    /\ (forall sid sid' t, talker_of aware sid t -> ~ talker_of non_aware sid' t)
    /\ (forall sid ts, In (sid, ts) aware \/ In (sid, ts) non_aware -> ts <> [])
    /\ (forall sid,
          (forall t, talker_of all_talker_info sid t -> vlan_time_aware t = false) ->
          forall ts, ~ In (sid, ts) aware)
    /\ (forall sid,
          (forall t, talker_of all_talker_info sid t -> vlan_non_time_aware t = false) ->
          forall ts, ~ In (sid, ts) non_aware).
Proof.
  intros Hm.
  exists (select vlan_time_aware all_talker_info),
         (select vlan_non_time_aware all_talker_info).
  assert (Hempty : forall keep sid,
            (forall t, talker_of all_talker_info sid t -> keep t = false) ->
            forall ts, ~ In (sid, ts) (select keep all_talker_info)).
  { intros keep sid Hnone ts Hin.
    apply in_select in Hin as (ts0 & Hin & -> & Hne).
    destruct (filter keep ts0) as [|t kept] eqn:Hf; [now apply Hne|].
    assert (Ht : In t (filter keep ts0)) by (rewrite Hf; now left).
    apply filter_In in Ht as [Ht Hk].
    rewrite (Hnone t) in Hk; [discriminate|]. now exists ts0. }
  split; [|split; [|split; [|split; [|split; [|split; [|split]]]]]].
  - unfold get_vlan_tagged_time_aware_talker_info.
    apply filter_select; [apply is_vlan_time_aware_dict|exact Hm].
  - unfold get_vlan_tagged_non_time_aware_talker_info.
    apply filter_select; [apply is_vlan_non_time_aware_dict|exact Hm].
  - intros sid t. rewrite talker_of_select. unfold vlan_time_aware.
    rewrite andb_true_iff. tauto.
  - intros sid t. rewrite talker_of_select. unfold vlan_non_time_aware.
    rewrite andb_true_iff, negb_true_iff. tauto.
  - intros sid sid' t H1 H2.
    apply talker_of_select in H1 as [_ H1]. apply talker_of_select in H2 as [_ H2].
    unfold vlan_time_aware, vlan_non_time_aware in *.
    destruct (flag "vlan_tag" t), (flag "time_aware" t); discriminate.
  - intros sid ts [H|H]; apply in_select in H as (? & _ & _ & Hne); exact Hne.
  - apply Hempty.
  - apply Hempty.
Qed.

Lemma sample_is_talker_map : talker_map sample_all_talker_info.
Proof.
  split.
  - simpl. repeat split; repeat constructor.
  - repeat constructor.
Defined.

Lemma vlan_filters_partition_witness :
  exists aware non_aware,
    get_vlan_tagged_time_aware_talker_info sample_all_talker_info = Ok aware
    /\ get_vlan_tagged_non_time_aware_talker_info sample_all_talker_info = Ok non_aware
    /\ forall sid sid' t, talker_of aware sid t -> ~ talker_of non_aware sid' t.
Proof.
  destruct (vlan_filters_partition sample_all_talker_info sample_is_talker_map)
    as (aware & non_aware & Ha & Hn & _ & _ & Hdisjoint & _).
  exists aware, non_aware. repeat split; assumption.
Defined.

(** The two results on the sample: stream2 has no VLAN-tagged talker that
    is not time-aware and is absent from the second one. *)
Example sample_filters :
  get_vlan_tagged_time_aware_talker_info sample_all_talker_info
  = Ok [ (VStr "stream1", [ VDict [("vlan_tag", VBool true); ("time_aware", VBool true);
                                   ("interface_name", VStr "eth0")] ]);
         (VStr "stream2", [ VDict [("vlan_tag", VBool true); ("time_aware", VBool true);
                                   ("interface_name", VStr "enp1s0")] ]) ]
  /\ get_vlan_tagged_non_time_aware_talker_info sample_all_talker_info
     = Ok [ (VStr "stream1", [ VDict [("vlan_tag", VBool true);
                                      ("time_aware", VBool false);
                                      ("interface_name", VStr "eth1")] ]) ].
Proof. split; reflexivity. Qed.

End FilterFacts.

(* ====================================================================== *)
(** * Talker records (GE_dictionary.py) *)
(* ====================================================================== *)

Module TalkerFacts.
Import GE Spec.

(** Runs a successful computation backwards through its binds and tests. *)
Ltac run_ok H :=
  repeat match type of H with
         | bind ?m _ = Ok _ =>
             let E := fresh "E" in
             destruct m eqn:E; cbn [bind] in H; [|discriminate H]
         | (if ?b then _ else _) = Ok _ =>
             let E := fresh "E" in destruct b eqn:E
         | Raise _ = Ok _ => discriminate H
         end.

Lemma is_set_offset_spec (v : PyVal) : is_set_offset v = true <-> non_zero_value v.
Proof.
  unfold is_set_offset, non_zero_value, zero_equivalent.
  rewrite andb_true_iff, negb_true_iff. cbn [existsb].
  destruct (String.eqb_spec (strip (py_str v)) "0") as [H0|H0];
  destruct (String.eqb_spec (strip (py_str v)) "0.0") as [H1|H1];
  destruct (String.eqb_spec (strip (py_str v)) "") as [H2|H2];
    cbn [orb]; split; intros [Ht Hz]; split; auto; try discriminate;
    try (exfalso; apply Hz; tauto).
  intros [H|[H|H]]; contradiction.
Qed.

Lemma is_set_offset_none : is_set_offset VNone = false.
Proof. reflexivity. Qed.

(** The three blocks that do not touch the flag. *)
Lemma cfg_mac_time_aware (vars vars' : TalkerVars) (cfg : PyVal) :
  cfg_mac vars cfg = Ok vars' -> time_aware vars' = time_aware vars.
Proof.
  unfold cfg_mac. intros H. run_ok H; inversion H; reflexivity.
Qed.

Lemma cfg_vlan_time_aware (vars vars' : TalkerVars) (cfg : PyVal) :
  cfg_vlan vars cfg = Ok vars' -> time_aware vars' = time_aware vars.
Proof.
  unfold cfg_vlan. intros H. run_ok H; inversion H; reflexivity.
Qed.

Lemma cfg_ipv4_time_aware (vars vars' : TalkerVars) (cfg : PyVal) :
  cfg_ipv4 vars cfg = Ok vars' -> time_aware vars' = time_aware vars.
Proof.
  unfold cfg_ipv4. intros H. run_ok H; inversion H; reflexivity.
Qed.

(** The [time-aware-offset] block sets the flag exactly for an entry that
    carries a non-zero offset. *)
Lemma cfg_offset_time_aware (vars vars' : TalkerVars) (cfg : PyVal) :
  cfg_offset vars cfg = Ok vars' ->
  (time_aware vars' = true
   <-> time_aware vars = true
       \/ exists d v, cfg = VDict d /\ lookup "time-aware-offset" d = Some v
                      /\ non_zero_value v).
Proof.
  unfold cfg_offset. intros H.
  destruct cfg as [| | |s|l|d]; cbn [py_in bind] in H; try discriminate H.
  - destruct (contains _ s); [discriminate H|]. inversion H; subst.
    split; [auto|]. intros [Hf|(d & v & Hd & _)]; [assumption|discriminate Hd].
  - destruct (existsb _ l); [discriminate H|]. inversion H; subst.
    split; [auto|]. intros [Hf|(d & v & Hd & _)]; [assumption|discriminate Hd].
  - unfold py_get, py_get_default in H.
    destruct (lookup "time-aware-offset" d) as [v|] eqn:Hl; cbn [bind] in H.
    + destruct (is_set_offset v) eqn:Hset; inversion H; subst; cbn [time_aware].
      * split; [|reflexivity]. intros _. right. exists d, v.
        repeat split; [assumption|now apply is_set_offset_spec..].
      * split; [auto|]. intros [Hf|(d' & v' & Hd & Hl' & Hnz)]; [assumption|].
        inversion Hd; subst d'. rewrite Hl in Hl'. inversion Hl'; subst v'.
        apply is_set_offset_spec in Hnz. congruence.
    + inversion H; subst. split; [auto|].
      intros [Hf|(d' & v' & Hd & Hl' & _)]; [assumption|].
      inversion Hd; subst d'. congruence.
Qed.

(** The [time-aware] block sets the flag exactly for an entry whose block
    carries a non-zero earliest or latest transmit offset. *)
Lemma cfg_time_block_time_aware (vars vars' : TalkerVars) (cfg : PyVal) :
  cfg_time_block vars cfg = Ok vars' ->
  (time_aware vars' = true
   <-> time_aware vars = true
       \/ exists d block v,
            cfg = VDict d /\ lookup "time-aware" d = Some (VDict block)
            /\ (lookup "earliest-transmit-offset" block = Some v
                \/ lookup "latest-transmit-offset" block = Some v)
            /\ non_zero_value v).
Proof.
  unfold cfg_time_block. intros H.
  destruct cfg as [| | |s|l|d]; cbn [py_in bind] in H; try discriminate H.
  - destruct (contains _ s); [discriminate H|]. inversion H; subst.
    split; [auto|]. intros [Hf|(d & b & v & Hd & _)]; [assumption|discriminate Hd].
  - destruct (existsb _ l); [discriminate H|]. inversion H; subst.
    split; [auto|]. intros [Hf|(d & b & v & Hd & _)]; [assumption|discriminate Hd].
  - unfold py_getitem in H.
    destruct (lookup "time-aware" d) as [tb|] eqn:Hl; cbn [bind] in H.
    + destruct tb as [| | | | |block]; try discriminate H.
      unfold py_get, py_get_default in H.
      set (earliest := match lookup "earliest-transmit-offset" block with
                       | Some x => x | None => VNone end) in *.
      set (latest := match lookup "latest-transmit-offset" block with
                     | Some x => x | None => VNone end) in *.
      assert (He : is_set_offset earliest = true
                   <-> exists v, lookup "earliest-transmit-offset" block = Some v
                                 /\ non_zero_value v).
      { subst earliest. destruct (lookup "earliest-transmit-offset" block) as [v|].
        - rewrite is_set_offset_spec. split; [intros Hv; now exists v|].
          intros (v' & Hv & Hnz). now inversion Hv; subst.
        - rewrite is_set_offset_none. split; [discriminate|].
          intros (v' & Hv & _). discriminate Hv. }
      assert (Hla : is_set_offset latest = true
                    <-> exists v, lookup "latest-transmit-offset" block = Some v
                                  /\ non_zero_value v).
      { subst latest. destruct (lookup "latest-transmit-offset" block) as [v|].
        - rewrite is_set_offset_spec. split; [intros Hv; now exists v|].
          intros (v' & Hv & Hnz). now inversion Hv; subst.
        - rewrite is_set_offset_none. split; [discriminate|].
          intros (v' & Hv & _). discriminate Hv. }
      assert (Hlk : match lookup "earliest-transmit-offset" block with
                    | Some x => Ok x | None => Ok VNone end = Ok earliest)
        by (subst earliest; now destruct (lookup "earliest-transmit-offset" block)).
      assert (Hlk' : match lookup "latest-transmit-offset" block with
                     | Some x => Ok x | None => Ok VNone end = Ok latest)
        by (subst latest; now destruct (lookup "latest-transmit-offset" block)).
      rewrite Hlk in H. cbn [bind] in H. rewrite Hlk' in H. cbn [bind] in H.
      inversion H; subst vars'; cbn [time_aware fold_left].
      split.
      * intros Hflag.
        destruct (is_set_offset latest) eqn:Hsl.
        { right. destruct (proj1 Hla eq_refl) as (v & Hv & Hnz).
          exists d, block, v. auto. }
        destruct (is_set_offset earliest) eqn:Hse.
        { right. destruct (proj1 He eq_refl) as (v & Hv & Hnz).
          exists d, block, v. auto. }
        now left.
      * intros [Hf|(d' & b' & v & Hd & Hb & Hv & Hnz)].
        { rewrite Hf. now destruct (is_set_offset latest), (is_set_offset earliest). }
        inversion Hd; subst d'. rewrite Hl in Hb. inversion Hb; subst b'.
        destruct Hv as [Hv|Hv].
        { assert (Hs : is_set_offset earliest = true) by (apply He; now exists v).
          rewrite Hs. now destruct (is_set_offset latest). }
        assert (Hs : is_set_offset latest = true) by (apply Hla; now exists v).
        now rewrite Hs.
    + inversion H; subst. split; [auto|].
      intros [Hf|(d' & b & v & Hd & Hb & _)]; [assumption|].
      inversion Hd; subst d'. congruence.
Qed.

(** One config-list entry raises the flag exactly when it has a non-zero
    source value. *)
Lemma cfg_step_time_aware (vars vars' : TalkerVars) (cfg : PyVal) :
  cfg_step vars cfg = Ok vars' ->
  (time_aware vars' = true
   <-> time_aware vars = true
       \/ exists v, offset_source cfg v /\ non_zero_value v).
Proof.
  unfold cfg_step. intros H.
  destruct (cfg_mac vars cfg) as [v1|] eqn:H1; cbn [bind] in H; [|discriminate H].
  destruct (cfg_vlan v1 cfg) as [v2|] eqn:H2; cbn [bind] in H; [|discriminate H].
  destruct (cfg_ipv4 v2 cfg) as [v3|] eqn:H3; cbn [bind] in H; [|discriminate H].
  destruct (cfg_offset v3 cfg) as [v4|] eqn:H4; cbn [bind] in H; [|discriminate H].
  apply cfg_mac_time_aware in H1. apply cfg_vlan_time_aware in H2.
  apply cfg_ipv4_time_aware in H3. apply cfg_offset_time_aware in H4.
  apply cfg_time_block_time_aware in H.
  rewrite H, H4, H3, H2, H1. split.
  - intros [[Hf|(d & v & Hd & Hl & Hnz)]|(d & b & v & Hd & Hb & Hv & Hnz)].
    + now left.
    + right. exists v. split; [|assumption]. now apply source_time_aware_offset with d.
    + right. exists v. split; [|assumption]. destruct Hv.
      * now apply source_earliest with d b.
      * now apply source_latest with d b.
  - intros [Hf|(v & Hsrc & Hnz)]; [now left; left|].
    destruct Hsrc as [d Hd Hl|d b Hd Hb Hv|d b Hd Hb Hv].
    + left. right. now exists d, v.
    + right. exists d, b, v. auto.
    + right. exists d, b, v. auto.
Qed.

(** The whole config-list loop. *)
Lemma cfg_loop_time_aware (cfg_lists : list PyVal) (vars vars' : TalkerVars) :
  for_each cfg_step cfg_lists vars = Ok vars' ->
  (time_aware vars' = true
   <-> time_aware vars = true \/ has_time_aware_source cfg_lists).
Proof.
  revert vars. induction cfg_lists as [|cfg rest IH]; intros vars H; simpl in H.
  - inversion H; subst. split; [auto|].
    intros [Hf|(cfg & v & [] & _)]. assumption.
  - destruct (cfg_step vars cfg) as [v1|] eqn:H1; cbn [bind] in H; [|discriminate H].
    rewrite (IH v1 H), (cfg_step_time_aware vars v1 cfg H1).
    unfold has_time_aware_source. split.
    + intros [[Hf|(v & Hs & Hnz)]|(c & v & Hin & Hs & Hnz)].
      * now left.
      * right. exists cfg, v. split; [now left|split; assumption].
      * right. exists c, v. split; [now right|split; assumption].
    + intros [Hf|(c & v & [<-|Hin] & Hs & Hnz)].
      * now left; left.
      * left. right. now exists v.
      * right. now exists c, v.
Qed.

(** The record of a talker carries the flag its config-list loop ends
    with. *)
Lemma talker_entry_time_aware (talker rec : PyVal) :
  talker_entry talker = Ok rec ->
  exists cfg_lists fields b,
    talker_cfg_lists talker = Ok cfg_lists
    /\ rec = VDict fields
    /\ lookup "time_aware" fields = Some (VBool b)
    /\ (b = true <-> has_time_aware_source cfg_lists).
Proof.
  unfold talker_entry, talker_cfg_lists. intros H.
  destruct (py_get_default talker "end-station-interfaces" (VDict []))
    as [end_iface|]; cbn [bind] in H; [|discriminate H].
  destruct (py_get end_iface "mac-address") as [m1|]; cbn [bind] in H;
    [|discriminate H].
  destruct (normalize_mac m1) as [src|]; cbn [bind] in H; [|discriminate H].
  destruct (talker_iface_list talker) as [iface_list|]; cbn [bind] in H |- *;
    [|discriminate H].
  destruct (py_get iface_list "mac-address") as [m2|]; cbn [bind] in H;
    [|discriminate H].
  destruct (normalize_mac m2) as [imac|]; cbn [bind] in H; [|discriminate H].
  destruct (py_get iface_list "interface-name") as [name|]; cbn [bind] in H;
    [|discriminate H].
  destruct (py_get_default iface_list "config-list" (VList [])) as [cfgs|];
    cbn [bind] in H |- *; [|discriminate H].
  destruct (for_each cfg_step (as_list cfgs) default_vars) as [vars|] eqn:Hloop;
    cbn [bind] in H; [|discriminate H].
  inversion H; subst rec. clear H.
  exists (as_list cfgs). eexists. exists (time_aware vars).
  split; [reflexivity|]. split; [reflexivity|]. split; [reflexivity|].
  apply cfg_loop_time_aware in Hloop. cbn [time_aware default_vars] in Hloop.
  rewrite Hloop. split; [intros [Hf|Hs]; [discriminate Hf|assumption]|].
  intros Hs. now right.
Qed.

(** *** Provenance of the records *)

Lemma occurs_in_trans (a b c : PyVal) :
  occurs_in a b -> occurs_in b c -> occurs_in a c.
Proof.
  intros Hab Hbc. induction Hbc as [|l x Hin _ IH|d k x Hin _ IH].
  - assumption.
  - now apply occurs_in_element with x.
  - now apply occurs_in_field with k x.
Qed.

Lemma lookup_In (k : string) (d : list (string * PyVal)) (x : PyVal) :
  lookup k d = Some x -> In (k, x) d.
Proof.
  induction d as [|[k' v] d IH]; simpl; [discriminate|].
  destruct (String.eqb_spec k' k) as [->|_].
  - intros H. inversion H. now left.
  - intros H. right. now apply IH.
Qed.

(** What [get] returns is the default or a field of the mapping. *)
Lemma get_default_child (v : PyVal) (k : string) (default x : PyVal) :
  py_get_default v k default = Ok x -> x = default \/ occurs_in x v.
Proof.
  destruct v; simpl; try discriminate.
  destruct (lookup k d) as [y|] eqn:Hl; intros H; inversion H; subst.
  - right. apply occurs_in_field with k x; [now apply lookup_In|constructor].
  - now left.
Qed.

Lemma as_list_occurs (x y : PyVal) : In y (as_list x) -> occurs_in y x.
Proof.
  destruct x; simpl; try (intros [<-|[]]; constructor).
  intros Hin. apply occurs_in_element with y; [assumption|constructor].
Qed.

Lemma append_under_in (m : TalkerMap) (k entry sid : PyVal) (recs : list PyVal)
  (rec : PyVal) :
  In (sid, recs) (append_under m k entry) -> In rec recs ->
  rec = entry \/ exists sid' recs', In (sid', recs') m /\ In rec recs'.
Proof.
  induction m as [|[k' es] m IH]; simpl.
  - intros [H|[]] Hrec. inversion H; subst. destruct Hrec as [<-|[]]. now left.
  - destruct (key_eqb k' k); simpl.
    + intros [H|H] Hrec.
      * inversion H; subst. apply in_app_or in Hrec as [Hrec|[<-|[]]].
        -- right. exists sid, es. split; [now left|assumption].
        -- now left.
      * right. exists sid, recs. split; [now right|assumption].
    + intros [H|H] Hrec.
      * inversion H; subst. right. exists sid, recs. split; [now left|assumption].
      * destruct (IH H Hrec) as [->|(sid' & recs' & Hin & Hr)]; [now left|].
        right. exists sid', recs'. split; [now right|assumption].
Qed.

Section Provenance.

Variable documents : list PyVal.

Lemma node_child (parent x : PyVal) :
  node_of_documents documents parent -> occurs_in x parent ->
  node_of_documents documents x.
Proof.
  intros (doc & Hdoc & Hp) Hx. exists doc. split; [assumption|].
  now apply occurs_in_trans with parent.
Qed.

Lemma talker_step_from (sid : PyVal) (m m' : TalkerMap) (talker : PyVal) :
  node_of_documents documents talker -> records_from documents m ->
  talker_step sid m talker = Ok m' ->
  records_from documents m'.
Proof.
  intros Hnode Hm H. unfold talker_step in H.
  destruct (talker_entry talker) as [entry|] eqn:He; cbn [bind] in H; [|discriminate H].
  unfold setdefault_append in H. destruct (is_hashable sid); [|discriminate H].
  inversion H; subst m'. intros s recs rec Hin Hrec.
  destruct (append_under_in m sid entry s recs rec Hin Hrec)
    as [->|(s' & recs' & Hin' & Hrec')].
  - exists talker. split; assumption.
  - now apply (Hm s' recs').
Qed.

(** A level of the nested loops: the children under key [k] of a node
    are nodes, and the loop over them keeps the provenance. *)
Lemma level_from (step : TalkerMap -> PyVal -> result TalkerMap) (k : string)
  (parent : PyVal) (m m' : TalkerMap) :
  (forall x m m',
     node_of_documents documents x -> records_from documents m ->
     step m x = Ok m' -> records_from documents m') ->
  node_of_documents documents parent \/ parent = VDict [] ->
  records_from documents m ->
  (children <- py_get_default parent k (VList []) ;;
   for_each step (as_list children) m) = Ok m' ->
  records_from documents m'.
Proof.
  intros Hstep Hparent Hm H.
  destruct (py_get_default parent k (VList [])) as [children|] eqn:Hc;
    cbn [bind] in H; [|discriminate H].
  apply (for_each_invariant (records_from documents) step (as_list children))
    with (st := m); [|assumption..].
  intros st x st' Hx Hst Hrun. apply (Hstep x st st'); [|assumption..].
  destruct Hparent as [Hnode| ->].
  - apply get_default_child in Hc as [->|Hocc]; [destruct Hx|].
    apply node_child with parent; [assumption|].
    apply occurs_in_trans with children; [now apply as_list_occurs|assumption].
  - simpl in Hc. inversion Hc; subst. destruct Hx.
Qed.

Lemma stream_step_from (m m' : TalkerMap) (stream : PyVal) :
  node_of_documents documents stream -> records_from documents m ->
  stream_step m stream = Ok m' ->
  records_from documents m'.
Proof.
  intros Hnode Hm H. unfold stream_step in H.
  destruct (py_get stream "stream-id") as [sid|]; cbn [bind] in H; [|discriminate H].
  destruct (negb (truthy sid)); [now inversion H; subst|].
  apply (level_from (talker_step sid) "talker" stream m m'); auto.
  intros x st st'. apply talker_step_from.
Qed.

Lemma cuc_step_from (m m' : TalkerMap) (cuc : PyVal) :
  node_of_documents documents cuc -> records_from documents m ->
  cuc_step m cuc = Ok m' ->
  records_from documents m'.
Proof.
  intros Hnode Hm H.
  apply (level_from stream_step "stream" cuc m m'); auto.
  intros x st st'. apply stream_step_from.
Qed.

Lemma domain_step_from (m m' : TalkerMap) (domain : PyVal) :
  node_of_documents documents domain -> records_from documents m ->
  domain_step m domain = Ok m' ->
  records_from documents m'.
Proof.
  intros Hnode Hm H.
  apply (level_from cuc_step "cuc" domain m m'); auto.
  intros x st st'. apply cuc_step_from.
Qed.

Lemma doc_step_from (m m' : TalkerMap) (doc : PyVal) :
  In doc documents -> records_from documents m -> doc_step m doc = Ok m' ->
  records_from documents m'.
Proof.
  intros Hdoc Hm H. unfold doc_step in H.
  destruct (py_get_default doc "cnc-config" (VDict [])) as [cnc|] eqn:Hc;
    cbn [bind] in H; [|discriminate H].
  apply (level_from domain_step "domain" cnc m m'); auto.
  - intros x st st'. apply domain_step_from.
  - apply get_default_child in Hc as [->|Hocc]; [now right|].
    left. exists doc. split; assumption.
Qed.

Lemma get_all_talker_stream_info_from (info : TalkerMap) :
  get_all_talker_stream_info documents = Ok info -> records_from documents info.
Proof.
  unfold get_all_talker_stream_info. intros H.
  destruct (negb (nonempty documents)).
  - inversion H; subst. intros sid recs rec [].
  - apply (for_each_invariant (records_from documents) doc_step documents)
      with (st := []).
    + intros st doc st' Hdoc. now apply doc_step_from.
    + intros sid recs rec [].
    + assumption.
Qed.

End Provenance.



End TalkerFacts.

(* ====================================================================== *)
(** * XML element conversion (xml_parser.py) *)
(* ====================================================================== *)

Module XMLFacts.
Import XML Spec.

Lemma lookup_dict_set (d : list (string * PyVal)) (k t : string) (v : PyVal) :
  lookup t (dict_set d k v) = if String.eqb k t then Some v else lookup t d.
Proof.
  induction d as [|[k' v'] d IH]; simpl.
  - reflexivity.
  - destruct (String.eqb_spec k' k) as [->|Hk]; simpl.
    + destruct (String.eqb k t); reflexivity.
    + rewrite IH. destruct (String.eqb_spec k' t) as [->|Ht]; [|reflexivity].
      destruct (String.eqb_spec k t); [congruence|reflexivity].
Qed.

(** How one merged child changes what is stored under a tag. *)
Lemma lookup_add_child (node : list (string * PyVal)) (ct t : string) (cv : PyVal) :
  lookup t (add_child node ct cv)
  = if String.eqb ct t
    then Some (match lookup t node with
               | Some (VList l) => VList (l ++ [cv])
               | Some existing => VList [existing; cv]
               | None => cv
               end)
    else lookup t node.
Proof.
  unfold add_child.
  destruct (String.eqb_spec ct t) as [->|Hne].
  - destruct (lookup t node) as [existing|]; rewrite lookup_dict_set, String.eqb_refl;
      [destruct existing|]; reflexivity.
  - destruct (lookup ct node); rewrite lookup_dict_set;
      destruct (String.eqb_spec ct t); try contradiction; reflexivity.
Qed.

(** A converted element is text, a mapping or nothing: never a list. *)
Lemma child_value_not_list (c : Element) : ~ is_list (child_value c).
Proof.
  unfold child_value, is_list. destruct c as [etag attrib text children].
  cbn [_element_to_dict snd]. unfold finish_element.
  intros (l & H).
  destruct (negb _); [destruct (_ || _)|destruct (nonempty _)]; discriminate H.
Qed.

Section Merge.

Variable t : string.

(** Once a list is stored under the tag, further children extend it. *)
Lemma merge_into_list (children : list Element) (node : list (string * PyVal))
  (l : list PyVal) :
  lookup t node = Some (VList l) ->
  lookup t (merge_children children node) = Some (VList (l ++ child_values children t)).
Proof.
  revert node l. induction children as [|c rest IH]; intros node l Hl.
  - simpl. unfold child_values. simpl. now rewrite app_nil_r.
  - cbn [merge_children fold_left]. fold (merge_children rest).
    unfold child_values. cbn [filter]. fold (child_tag c) (child_value c).
    destruct (String.eqb (child_tag c) t) eqn:Htag.
    + rewrite (IH _ (l ++ [child_value c])).
      * cbn [map]. fold (child_values rest t). now rewrite <- app_assoc.
      * rewrite lookup_add_child, Htag, Hl. reflexivity.
    + apply IH. now rewrite lookup_add_child, Htag.
Qed.

(** A bare value stored under the tag is wrapped when a further child
    arrives. *)
Lemma merge_onto_value (children : list Element) (node : list (string * PyVal))
  (x : PyVal) :
  lookup t node = Some x -> ~ is_list x ->
  lookup t (merge_children children node)
  = Some (match child_values children t with
          | [] => x
          | values => VList (x :: values)
          end).
Proof.
  revert node. induction children as [|c rest IH]; intros node Hx Hbare.
  - assumption.
  - cbn [merge_children fold_left]. fold (merge_children rest).
    unfold child_values. cbn [filter]. fold (child_tag c) (child_value c).
    destruct (String.eqb (child_tag c) t) eqn:Htag.
    + rewrite (merge_into_list rest _ [x; child_value c]).
      * reflexivity.
      * rewrite lookup_add_child, Htag, Hx.
        destruct x; try reflexivity. exfalso. apply Hbare. now exists l.
    + apply IH; [|assumption]. now rewrite lookup_add_child, Htag.
Qed.

(** Starting without the tag: nothing, the bare value, or the list. *)
Lemma merge_from_nothing (children : list Element) (node : list (string * PyVal)) :
  lookup t node = None ->
  lookup t (merge_children children node)
  = match child_values children t with
    | [] => None
    | [v] => Some v
    | values => Some (VList values)
    end.
Proof.
  revert node. induction children as [|c rest IH]; intros node Hnone.
  - assumption.
  - cbn [merge_children fold_left]. fold (merge_children rest).
    unfold child_values. cbn [filter]. fold (child_tag c) (child_value c).
    destruct (String.eqb (child_tag c) t) eqn:Htag.
    + rewrite (merge_onto_value rest _ (child_value c)).
      * cbn [map]. fold (child_values rest t).
        destruct (child_values rest t); reflexivity.
      * now rewrite lookup_add_child, Htag, Hnone.
      * apply child_value_not_list.
    + apply IH. now rewrite lookup_add_child, Htag.
Qed.

End Merge.

Lemma element_name_not_attribute (t k : string) :
  is_element_name t = true -> String.eqb ("@" +s+ k) t = false.
Proof.
  destruct t as [|c t]; [discriminate|]. intros H.
  change (String.eqb ("@" +s+ k) (String c t))
    with (if Ascii.eqb "@" c then String.eqb k t else false).
  destruct (Ascii.eqb_spec "@" c) as [<-|_]; [|reflexivity].
  cbv in H. discriminate H.
Qed.

Lemma element_name_not_text (t : string) :
  is_element_name t = true -> String.eqb "#text" t = false.
Proof.
  destruct t as [|c t]; [discriminate|]. intros H.
  change (String.eqb "#text" (String c t))
    with (if Ascii.eqb "#" c then String.eqb "text" t else false).
  destruct (Ascii.eqb_spec "#" c) as [<-|_]; [|reflexivity].
  cbv in H. discriminate H.
Qed.

(** The attribute keys do not shadow an element name. *)
Lemma lookup_add_attributes (t : string) (attrib : list (string * string))
  (node : list (string * PyVal)) :
  is_element_name t = true ->
  lookup t (add_attributes node attrib) = lookup t node.
Proof.
  intros Ht. unfold add_attributes. revert node.
  induction attrib as [|[k v] attrib IH]; intros node; cbn [fold_left fst snd];
    [reflexivity|].
  rewrite IH, lookup_dict_set, (element_name_not_attribute t k Ht). reflexivity.
Qed.

Lemma child_values_tag (children : list Element) (t : string) :
  Forall (fun c => is_element_name (child_tag c) = true) children ->
  child_values children t <> [] -> is_element_name t = true.
Proof.
  intros Hnames Hne. unfold child_values in Hne.
  destruct (filter _ children) as [|c rest] eqn:Hf; [now contradiction Hne|].
  assert (Hin : In c (filter (fun c => String.eqb (child_tag c) t) children))
    by (rewrite Hf; now left).
  apply filter_In in Hin as [Hin Htag]. apply String.eqb_eq in Htag. subst t.
  rewrite Forall_forall in Hnames. now apply Hnames.
Qed.

(** What the converted element holds under a tag that some child has. *)
Lemma converted_lookup (e : Element) (t : string) :
  Forall (fun c => is_element_name (child_tag c) = true) (children_of e) ->
  child_values (children_of e) t <> [] ->
  exists node,
    child_value e = VDict node
    /\ lookup t node = match child_values (children_of e) t with
                       | [v] => Some v
                       | values => Some (VList values)
                       end.
Proof.
  intros Hnames Hne.
  pose proof (child_values_tag (children_of e) t Hnames Hne) as Ht.
  assert (Hnode : lookup t (node_of e)
                  = match child_values (children_of e) t with
                    | [v] => Some v
                    | values => Some (VList values)
                    end).
  { unfold node_of. rewrite merge_from_nothing.
    - destruct (child_values (children_of e) t); [contradiction|reflexivity].
    - now rewrite lookup_add_attributes. }
  assert (Hchildren : nonempty (children_of e) = true).
  { destruct (children_of e); [now contradiction Hne|reflexivity]. }
  destruct e as [etag attrib text children]. unfold child_value.
  cbn [_element_to_dict snd]. fold (merge_children children (add_attributes [] attrib)).
  change (merge_children children (add_attributes [] attrib))
    with (node_of (Elem etag attrib text children)) in *.
  cbn [children_of] in Hchildren. rewrite Hchildren.
  unfold finish_element. cbn [orb].
  destruct (negb (String.eqb _ "")).
  - eexists. split; [reflexivity|].
    now rewrite lookup_dict_set, (element_name_not_text t Ht).
  - destruct (node_of (Elem etag attrib text children)) as [|kv node] eqn:Hn.
    + cbn [lookup] in Hnode. destruct (child_values _ t) as [|? [|? ?]]; discriminate.
    + cbn [nonempty]. eexists. split; [reflexivity|assumption].
Qed.

(** C7. In the conversion of an element, a tag that two or more children
    have maps to the sequence of their converted values in document order,
    and a tag that exactly one child has maps to the bare converted value of
    that child, which is not a sequence. *)
Theorem repeated_child_tags_fold (e : Element) (t : string) :
  Forall (fun c => is_element_name (child_tag c) = true) (children_of e) ->
  let values := child_values (children_of e) t in
  ((2 <= List.length values)%nat ->
   exists node, child_value e = VDict node /\ lookup t node = Some (VList values))
  /\ (forall v, values = [v] ->
      exists node, child_value e = VDict node /\ lookup t node = Some v
                   /\ ~ is_list v)
  /\ _element_to_dict example_element
     = ("a", VDict [("@id", VStr "7");
                    ("b", VList [VStr "1"; VStr "2"; VStr "3"]);
                    ("c", VStr "x")]).
Proof.
  intros Hnames values. split; [|split; [|reflexivity]].
  - intros Hlen.
    destruct (converted_lookup e t Hnames) as (node & Hv & Hl).
    { fold values. destruct values; [simpl in Hlen; lia|discriminate]. }
    exists node. split; [assumption|]. fold values in Hl.
    destruct values as [|v1 [|v2 rest]]; simpl in Hlen; try lia. assumption.
  - intros v Hv.
    destruct (converted_lookup e t Hnames) as (node & Hval & Hl).
    { fold values. rewrite Hv. discriminate. }
    exists node. fold values in Hl. rewrite Hv in Hl.
    repeat split; try assumption.
    assert (Hin : In v (child_values (children_of e) t))
      by (fold values; rewrite Hv; now left).
    unfold child_values in Hin. apply in_map_iff in Hin as (c & <- & _).
    apply child_value_not_list.
Qed.

Lemma example_children_named :
  Forall (fun c => is_element_name (child_tag c) = true) (children_of example_element).
Proof. repeat constructor. Defined.

Lemma repeated_child_tags_fold_witness :
  exists node,
    child_value example_element = VDict node
    /\ lookup "b" node = Some (VList [VStr "1"; VStr "2"; VStr "3"])
    /\ lookup "c" node = Some (VStr "x").
Proof.
  destruct (repeated_child_tags_fold example_element "b" example_children_named)
    as [Hb _].
  destruct (Hb ltac:(simpl; lia)) as (node & Hnode & Hlb).
  exists node. repeat split; [exact Hnode|exact Hlb|].
  inversion Hnode. reflexivity.
Defined.

End XMLFacts.

(* ====================================================================== *)
(** * Flow classification (tc_command.py) *)
(* ====================================================================== *)

Module FlowFacts.
Import GE TC Spec.

(** The two nested loops visit the talkers of the map in order. *)
Lemma nested_loops_flat {S : Type} (body : S -> PyVal -> result S)
  (info : TalkerMap) (st : S) :
  for_each (fun st item => for_each body (snd item) st) info st
  = for_each body (talkers_of_map info) st.
Proof.
  unfold talkers_of_map. revert st.
  induction info as [|item info IH]; intros st; simpl; [reflexivity|].
  rewrite for_each_app.
  destruct (for_each body (snd item) st); simpl; [apply IH|reflexivity].
Qed.

Section TimeAware.

Variable tc_qdisc_show : string -> option string.

(** The loop of the time-aware generator, from any state. *)
Lemma time_aware_loop (talkers : list PyVal) (items : list (PyVal * string))
  (commands : list string) (processed : list PyVal) :
  usable_talkers talkers = Ok items ->
  Forall (fun item => is_hashable (fst item) = true) items ->
  exists out processed',
    for_each (time_aware_step tc_qdisc_show) talkers (commands, processed)
    = Ok (commands ++ out, processed')
    /\ interleaved (_clsact_exists tc_qdisc_show) processed items out.
Proof.
  revert items commands processed.
  induction talkers as [|t rest IH]; intros items commands processed Hitems Hhash.
  - simpl in Hitems. inversion Hitems; subst. exists [], processed. simpl.
    rewrite app_nil_r. split; [reflexivity|constructor].
  - simpl in Hitems.
    destruct (filter_command t) as [fc|] eqn:Hfc; cbn [bind] in Hitems;
      [|discriminate Hitems].
    destruct (usable_talkers rest) as [items'|] eqn:Hrest; cbn [bind] in Hitems;
      [|discriminate Hitems].
    inversion Hitems; subst items. clear Hitems.
    cbn [for_each time_aware_step]. rewrite Hfc. cbn [bind].
    destruct fc as [[iface cmd]|].
    + inversion Hhash as [|? ? Hiface Hhash']; subst. cbn [fst] in Hiface.
      rewrite Hiface. cbn [negb].
      destruct (existsb (key_eqb iface) processed) eqn:Hseen; cbn [negb fst snd bind].
      * destruct (IH items' (commands ++ [cmd]) processed eq_refl Hhash')
          as (out & processed' & Hrun & Hout).
        exists (cmd :: out), processed'. rewrite Hrun, <- app_assoc.
        split; [reflexivity|]. now apply interleaved_again.
      * destruct (_clsact_exists tc_qdisc_show iface) eqn:Hpresent; cbn [negb].
        -- destruct (IH items' (commands ++ [cmd]) (processed ++ [iface]) eq_refl Hhash')
             as (out & processed' & Hrun & Hout).
           exists (cmd :: out), processed'. rewrite Hrun, <- app_assoc.
           split; [reflexivity|]. now apply interleaved_found.
        -- destruct (IH items' ((commands ++ [clsact_command iface]) ++ [cmd])
                        (processed ++ [iface]) eq_refl Hhash')
             as (out & processed' & Hrun & Hout).
           exists (clsact_command iface :: cmd :: out), processed'.
           rewrite Hrun, <- !app_assoc. split; [reflexivity|].
           now apply interleaved_create.
    + destruct (IH items' commands processed eq_refl Hhash)
        as (out & processed' & Hrun & Hout).
      exists out, processed'. split; assumption.
Qed.

End TimeAware.

(** The loop of the non-time-aware generator: the filter commands of the
    usable talkers and nothing else. *)
Lemma non_time_aware_loop (talkers : list PyVal) (commands : list string) :
  for_each non_time_aware_step talkers commands
  = (items <- usable_talkers talkers ;; Ok (commands ++ map snd items)).
Proof.
  revert commands. induction talkers as [|t rest IH]; intros commands; simpl.
  - now rewrite app_nil_r.
  - unfold non_time_aware_step at 1.
    destruct (filter_command t) as [[[iface cmd]|]|]; cbn [bind]; [| |reflexivity].
    + rewrite IH. destruct (usable_talkers rest); cbn [bind map snd]; [|reflexivity].
      now rewrite <- app_assoc.
    + rewrite IH. destruct (usable_talkers rest); reflexivity.
Qed.

(** The claim as the specification states it fails for the
    non-time-aware generator: on the minimal talker data, with no clsact
    qdisc on the interface, it emits the filter command alone. *)
Lemma non_time_aware_creates_no_clsact :
  ~ creates_missing_clsact
      (fun _ => create_tc_filter_commands_for_non_time_aware_talkers).
Proof.
  intros Hclaim.
  destruct (Hclaim (fun _ => Some "qdisc mq 0: root") minimal_data
              [(VStr "eth0",
                "tc filter add dev eth0 egress protocol ip flower action vlan push id 300 protocol 802.1Q priority 2 pipe action skbedit priority 2")]
              eq_refl)
    as (commands & Hrun & Hout).
  - repeat constructor.
  - vm_compute in Hrun. inversion Hrun; subst commands. clear Hrun.
    inversion Hout as [| ? ? ? ? ? _ Hpresent _ | ? ? ? ? ? _ Hpresent _
                       | ? ? ? ? ? Hseen _ ]; subst.
    + vm_compute in Hpresent. discriminate Hpresent.
    + vm_compute in Hseen. discriminate Hseen.
Qed.

(** C4 (amended). The time-aware generator emits, for each interface met
    for the first time in the call on which the query finds no clsact qdisc,
    the command that creates one right before the first filter command of
    that interface, and never again in the call.  The non-time-aware
    generator performs no such check: it emits the filter commands of the
    talkers that have an interface name, one each, and nothing else. *)
Theorem clsact_created_by_time_aware_generator :
  creates_missing_clsact create_tc_filter_commands_for_time_aware_talkers
  /\ forall info,
       create_tc_filter_commands_for_non_time_aware_talkers info
       = (items <- usable_talkers (talkers_of_map info) ;; Ok (map snd items)).
Proof.
  split.
  - intros tc_qdisc_show info items Hitems Hhash.
    unfold create_tc_filter_commands_for_time_aware_talkers.
    rewrite (nested_loops_flat (time_aware_step tc_qdisc_show)).
    destruct (time_aware_loop tc_qdisc_show (talkers_of_map info) items [] []
                Hitems Hhash) as (out & processed' & Hrun & Hout).
    rewrite Hrun. cbn [bind fst app]. exists out. split; [reflexivity|assumption].
  - intros info. unfold create_tc_filter_commands_for_non_time_aware_talkers.
    rewrite (nested_loops_flat non_time_aware_step), non_time_aware_loop.
    reflexivity.
Qed.

Lemma clsact_created_by_time_aware_generator_witness :
  exists commands,
    create_tc_filter_commands_for_time_aware_talkers
      (fun _ => Some "qdisc mq 0: root") example_time_aware_info = Ok commands.
Proof.
  edestruct (proj1 clsact_created_by_time_aware_generator
               (fun _ => Some "qdisc mq 0: root") example_time_aware_info)
    as (commands & Hrun & _).
  - vm_compute. reflexivity.
  - repeat constructor.
  - exists commands. exact Hrun.
Defined.

(** The time-aware generator on two streams: the second interface has a
    clsact qdisc, the first has none and is met twice. *)
Example time_aware_commands :
  create_tc_filter_commands_for_time_aware_talkers
    (fun name => if String.eqb name "enp170s1"
                 then Some "qdisc clsact ffff: parent ffff:fff1"
                 else Some "qdisc mq 0: root")
    example_time_aware_info
  = Ok [ "tc qdisc add dev enp170s0 clsact";
         "tc filter add dev enp170s0 egress protocol ip flower src_mac aa:bb:cc:dd:ee:ff dst_mac 11:22:33:44:55:66 src_ip 192.168.1.10 dst_ip 192.168.1.20 ip_proto tcp dst_port 8080  action vlan push id 22 protocol 802.1Q priority 3 pipe action skbedit priority 3";
         "tc filter add dev enp170s1 egress protocol ip flower action vlan push id 33 protocol 802.1Q priority 4 pipe action skbedit priority 4";
         "tc filter add dev enp170s0 egress protocol ip flower ip_proto udp src_port 5050  action vlan push id 44 protocol 802.1Q priority 5 pipe action skbedit priority 5" ].
Proof. reflexivity. Qed.

End FlowFacts.

(* ====================================================================== *)
(** * The universal parser (universal_parser.py) *)
(* ====================================================================== *)

Module ParserFacts.
Import UP Spec.

Section Parsing.

Variable read_file : string -> result string.
Variable et_fromstring : string -> result XML.Element.
Variable yaml_safe_load_all : string -> result (list PyVal).

Lemma parser_documents_set (up : UniversalParser) (k : ParserKey) (docs : list PyVal) :
  parser_documents (set_parser_documents up k docs) k = docs.
Proof. destruct k; reflexivity. Qed.

Lemma set_parser_documents_twice (up : UniversalParser) (k : ParserKey)
  (docs docs' : list PyVal) :
  set_parser_documents (set_parser_documents up k docs) k docs'
  = set_parser_documents up k docs'.
Proof. destruct k; reflexivity. Qed.

(** The shape of a successful parse: which parser was chosen, what it
    loaded, and the state it leaves. *)
Lemma parse_ok (up up' : UniversalParser) (file_path : string) (docs : list PyVal) :
  parse read_file et_fromstring yaml_safe_load_all up file_path = (up', Ok docs) ->
  exists k,
    parsers_get (splitext_ext (lower file_path)) = Some k
    /\ load read_file et_fromstring yaml_safe_load_all k file_path = Ok docs
    /\ up' = set_documents
               (set_parser_documents (set_current_parser up k) k docs) docs.
Proof.
  unfold parse, format_parse. intros H.
  destruct (parsers_get (splitext_ext (lower file_path))) as [k|]; [|discriminate H].
  destruct (load read_file et_fromstring yaml_safe_load_all k file_path) as [d|e]
    eqn:Hload; inversion H; subst.
  exists k. rewrite set_parser_documents_twice. auto.
Qed.

(** And conversely. *)
Lemma parse_loaded (up : UniversalParser) (file_path : string) (k : ParserKey)
  (docs : list PyVal) :
  parsers_get (splitext_ext (lower file_path)) = Some k ->
  load read_file et_fromstring yaml_safe_load_all k file_path = Ok docs ->
  parse read_file et_fromstring yaml_safe_load_all up file_path
  = (set_documents (set_parser_documents (set_current_parser up k) k docs) docs,
     Ok docs).
Proof.
  intros Hk Hload. unfold parse, format_parse. rewrite Hk, Hload.
  now rewrite set_parser_documents_twice.
Qed.

(** C8. [refresh] is [parse]: the same returned documents or exception
    and the same resulting parser state.  Hence on an unchanged file a
    refresh after a parse returns the same documents and leaves the parser as
    it was, and from any other state of the parser it returns the same
    documents with the same current parser and cached document set. *)
Theorem refresh_is_parse (up : UniversalParser) (file_path : string) :
  refresh read_file et_fromstring yaml_safe_load_all up file_path
  = parse read_file et_fromstring yaml_safe_load_all up file_path
  /\ (forall up' docs,
        parse read_file et_fromstring yaml_safe_load_all up file_path = (up', Ok docs) ->
        refresh read_file et_fromstring yaml_safe_load_all up' file_path
        = (up', Ok docs))
  /\ (forall up' docs other,
        parse read_file et_fromstring yaml_safe_load_all up file_path = (up', Ok docs) ->
        exists other',
          refresh read_file et_fromstring yaml_safe_load_all other file_path
          = (other', Ok docs)
          /\ current_parser other' = current_parser up'
          /\ documents other' = documents up').
Proof.
  split; [reflexivity|]. split.
  - intros up' docs H. unfold refresh.
    destruct (parse_ok up up' file_path docs H) as (k & Hk & Hload & ->).
    rewrite (parse_loaded _ file_path k docs Hk Hload).
    destruct k; reflexivity.
  - intros up' docs other H. unfold refresh.
    destruct (parse_ok up up' file_path docs H) as (k & Hk & Hload & ->).
    rewrite (parse_loaded other file_path k docs Hk Hload).
    eexists. split; [reflexivity|]. destruct k; split; reflexivity.
Qed.

(** Until a parse succeeds, every format parser holds no document. *)
Lemma no_parse_succeeded_empty (up : UniversalParser) :
  no_parse_succeeded read_file et_fromstring yaml_safe_load_all up ->
  forall k, parser_documents up k = [].
Proof.
  induction 1 as [|up up' file_path e _ IH Hparse|up up' file_path e _ IH Hparse];
    intros k; [destruct k; reflexivity| |unfold refresh in Hparse].
  all: unfold parse, format_parse in Hparse.
  all: destruct (parsers_get (splitext_ext (lower file_path))) as [k'|];
    [|inversion Hparse; subst; apply IH].
  all: destruct (load read_file et_fromstring yaml_safe_load_all k' file_path);
    inversion Hparse; subst.
  all: pose proof (IH XmlParser); pose proof (IH YamlParser);
    pose proof (IH YmlParser).
  all: destruct k, k'; simpl in *; congruence.
Qed.

(** C10. On a parser on which no parse call has succeeded yet,
    [has_chronos_domain] answers false and [get_dictionary_helper] answers
    [None]; both functions are total, so neither raises. *)
Theorem no_helper_before_parse (up : UniversalParser) :
  no_parse_succeeded read_file et_fromstring yaml_safe_load_all up ->
  has_chronos_domain up = false /\ get_dictionary_helper up = None.
Proof.
  intros Hup.
  assert (Hfalse : has_chronos_domain up = false).
  { unfold has_chronos_domain. destruct (current_parser up) as [k|]; [|reflexivity].
    now rewrite (no_parse_succeeded_empty up Hup k). }
  split; [assumption|]. unfold get_dictionary_helper. now rewrite Hfalse.
Qed.

End Parsing.

Lemma refresh_is_parse_witness :
  exists up docs,
    parse example_read_file example_et_fromstring example_yaml_safe_load_all
          init "Config.YAML" = (up, Ok docs)
    /\ refresh example_read_file example_et_fromstring example_yaml_safe_load_all
               up "Config.YAML" = (up, Ok docs)
    /\ List.length docs = 2%nat
    /\ has_chronos_domain up = true.
Proof.
  eexists. eexists. split; [vm_compute; reflexivity|]. split; [|split; reflexivity].
  apply (proj1 (proj2 (refresh_is_parse example_read_file example_et_fromstring
                         example_yaml_safe_load_all init "Config.YAML"))).
  vm_compute. reflexivity.
Defined.

Lemma no_helper_before_parse_witness :
  exists up,
    parse example_read_file example_et_fromstring example_yaml_safe_load_all
          init "broken.xml" = (up, Raise ParseError)
    /\ current_parser up = Some XmlParser
    /\ has_chronos_domain up = false
    /\ get_dictionary_helper up = None.
Proof.
  eexists. split; [vm_compute; reflexivity|]. split; [reflexivity|].
  apply (no_helper_before_parse example_read_file example_et_fromstring
           example_yaml_safe_load_all).
  apply failed_parse with (up := init) (file_path := "broken.xml") (e := ParseError).
  - apply fresh_parser.
  - vm_compute. reflexivity.
Defined.

End ParserFacts.

(* ====================================================================== *)
(** * Resets and command batches (tc_command.py, core.py) *)
(* ====================================================================== *)

Module ShellFacts.
Import Shell Core Terms.

Section Exec.

Variable World : Type.
Variable subprocess_run : World -> string -> World * result Completed.
Variable exc_message : exc -> string.

Lemma run_tc_command_step (command : string) (w : World) :
  run_tc_command World subprocess_run command w
  = match subprocess_run w (sudo command) with
    | (w', Ok process) =>
        (w', Ok (mkCompleted (strip (stdout process)) (strip (stderr process))
                             (returncode process)))
    | (w', Raise e) => (w', Raise e)
    end.
Proof.
  unfold run_tc_command, rbind, ret, sudo.
  destruct (subprocess_run w ("sudo " +s+ command)) as [w' [process|e]]; reflexivity.
Qed.

(** A single reset, step by step. *)
Lemma reset_when_run (query marker cmd : string) (w : World) :
  reset_when World subprocess_run (run_tc_command World subprocess_run query) marker cmd w
  = match subprocess_run w (sudo query) with
    | (w1, Raise e) => (w1, Raise e)
    | (w1, Ok shown) =>
        if contains marker (strip (stdout shown))
        then match subprocess_run w1 (sudo cmd) with
             | (w2, Ok _) => (w2, Ok success_result)
             | (w2, Raise e) => (w2, Raise e)
             end
        else (w1, Ok success_result)
    end.
Proof.
  unfold reset_when, rbind at 1. rewrite run_tc_command_step.
  destruct (subprocess_run w (sudo query)) as [w1 [shown|e]]; [|reflexivity].
  cbn [stdout]. destruct (contains marker (strip (stdout shown))); [|reflexivity].
  unfold rbind, ret. rewrite run_tc_command_step.
  destruct (subprocess_run w1 (sudo cmd)) as [w2 [res|e]]; reflexivity.
Qed.

Lemma reset_when_success (query marker cmd : string) (w w' : World) (r : Completed) :
  reset_when World subprocess_run (run_tc_command World subprocess_run query) marker cmd w
  = (w', Ok r) ->
  r = success_result.
Proof.
  rewrite reset_when_run.
  destruct (subprocess_run w (sudo query)) as [w1 [shown|e]]; [|discriminate].
  destruct (contains marker (strip (stdout shown))).
  - destruct (subprocess_run w1 (sudo cmd)) as [w2 [res|e]]; [|discriminate].
    intros H. now inversion H.
  - intros H. now inversion H.
Qed.

(** X1. Each single reset that returns reports the success result with
    return code 0, also when the delete command it ran failed; it runs the
    query, and the delete command after it exactly when the query output
    holds the marker ("root", "clsact", "filter"). *)
Theorem single_resets_mask_the_delete (interface : string) (w : World) :
  (forall w' r,
     reset_root_qdisc_interface World subprocess_run interface w = (w', Ok r)
     \/ reset_clsact_qdisc_interface World subprocess_run interface w = (w', Ok r)
     \/ reset_egress_filter_interface World subprocess_run interface w = (w', Ok r) ->
     r = success_result)
  /\ (forall w1 shown,
        subprocess_run w (sudo ("tc qdisc show dev " +s+ interface)) = (w1, Ok shown) ->
        fst (reset_root_qdisc_interface World subprocess_run interface w)
        = (if contains "root" (strip (stdout shown))
           then after_commands World subprocess_run
                  [sudo ("tc qdisc del dev " +s+ interface +s+ " root")] w1
           else w1)
        /\ fst (reset_clsact_qdisc_interface World subprocess_run interface w)
           = (if contains "clsact" (strip (stdout shown))
              then after_commands World subprocess_run
                     [sudo ("tc qdisc del dev " +s+ interface +s+ " clsact")] w1
              else w1))
  /\ (forall w1 shown,
        subprocess_run w (sudo ("tc filter show dev " +s+ interface +s+ " egress"))
        = (w1, Ok shown) ->
        fst (reset_egress_filter_interface World subprocess_run interface w)
        = (if contains "filter" (strip (stdout shown))
           then after_commands World subprocess_run
                  [sudo ("tc filter del dev " +s+ interface +s+ " egress")] w1
           else w1)).
Proof.
  assert (Hworld : forall query marker cmd w1 shown,
            subprocess_run w (sudo query) = (w1, Ok shown) ->
            fst (reset_when World subprocess_run (run_tc_command World subprocess_run query)
                            marker cmd w)
            = (if contains marker (strip (stdout shown))
               then after_commands World subprocess_run [sudo cmd] w1
               else w1)).
  { intros query marker cmd w1 shown Hshow. rewrite reset_when_run, Hshow.
    destruct (contains marker (strip (stdout shown))); [|reflexivity].
    cbn [after_commands].
    destruct (subprocess_run w1 (sudo cmd)) as [w2 [res|e]]; reflexivity. }
  split; [|split].
  - intros w' r [H|[H|H]]; eapply reset_when_success; exact H.
  - intros w1 shown Hshow. split; now apply Hworld.
  - intros w1 shown Hshow. now apply Hworld.
Qed.

End Exec.

Lemma single_resets_mask_the_delete_witness :
  reset_root_qdisc_interface (list string) logging_run "eth0" []
  = (["sudo tc qdisc show dev eth0"; "sudo tc qdisc del dev eth0 root"],
     Ok success_result)
  /\ success_result = success_result.
Proof.
  split; [reflexivity|].
  apply (proj1 (single_resets_mask_the_delete (list string) logging_run "eth0" []))
    with (w' := ["sudo tc qdisc show dev eth0"; "sudo tc qdisc del dev eth0 root"]).
  left. reflexivity.
Defined.

Section Batches.

Variable World : Type.
Variable subprocess_run : World -> string -> World * result Completed.
Variable exc_message : exc -> string.

Lemma reset_when_never_raises (query marker cmd : string) (w : World) :
  never_raises World subprocess_run ->
  exists w',
    reset_when World subprocess_run (run_tc_command World subprocess_run query)
               marker cmd w = (w', Ok success_result).
Proof.
  intros Hrun. rewrite reset_when_run.
  destruct (Hrun w (sudo query)) as (w1 & shown & ->).
  destruct (contains marker (strip (stdout shown))); [|now exists w1].
  destruct (Hrun w1 (sudo cmd)) as (w2 & res & ->). now exists w2.
Qed.

(** X2. When the shell runs every command to completion,
    [reset_config] returns [True] whatever the commands report: the return
    codes it checks are those of the single resets, which are always 0, so a
    failed delete is not noticed. *)
Theorem reset_config_ignores_failures (interface : string) (w : World) :
  never_raises World subprocess_run ->
  snd (reset_config World subprocess_run interface w) = Returned true.
Proof.
  intros Hrun. unfold reset_config, reset_egress_filter_interface,
    reset_clsact_qdisc_interface, reset_root_qdisc_interface, show_qdisc,
    show_tc_egress_filters.
  unfold rbind at 1.
  destruct (reset_when_never_raises ("tc filter show dev " +s+ interface +s+ " egress")
              "filter" ("tc filter del dev " +s+ interface +s+ " egress") w Hrun)
    as (w1 & ->).
  unfold rbind at 1.
  destruct (reset_when_never_raises ("tc qdisc show dev " +s+ interface)
              "clsact" ("tc qdisc del dev " +s+ interface +s+ " clsact") w1 Hrun)
    as (w2 & ->).
  unfold rbind at 1.
  destruct (reset_when_never_raises ("tc qdisc show dev " +s+ interface)
              "root" ("tc qdisc del dev " +s+ interface +s+ " root") w2 Hrun)
    as (w3 & ->).
  reflexivity.
Qed.

Lemma run_tc_commands_from_count (commands : list string) (acc : Z) (w w' : World)
  (n : Z) :
  run_tc_commands_from World subprocess_run commands false acc w = (w', Ok n) ->
  w' = after_commands World subprocess_run (map sudo commands) w
  /\ n = acc + Z.of_nat (List.length
                           (filter failed (outputs World subprocess_run
                                                   (map sudo commands) w))).
Proof.
  revert acc w. induction commands as [|cmd rest IH]; intros acc w H.
  - cbn in H. inversion H; subst. cbn. split; [reflexivity|lia].
  - cbn [run_tc_commands_from] in H. unfold rbind at 1 in H.
    rewrite run_tc_command_step in H.
    cbn [map after_commands outputs].
    destruct (subprocess_run w (sudo cmd)) as [w1 [process|e]]; [|discriminate H].
    cbn [returncode fst snd] in *. apply IH in H as [-> ->].
    split; [reflexivity|]. cbn [filter failed].
    destruct (negb (returncode process =? 0)); cbn [List.length]; lia.
Qed.

(** X3. [_run_tc_commands]: a dry run executes nothing and counts no
    failure; otherwise the commands are run in order, each once, and the
    count is the number of them that ended with a return code other than 0,
    between 0 and the number of commands. *)
Theorem run_tc_commands_counts_failures (commands : list string) (w : World) :
  _run_tc_commands World subprocess_run commands true w = (w, Ok 0)
  /\ forall w' n,
       _run_tc_commands World subprocess_run commands false w = (w', Ok n) ->
       w' = after_commands World subprocess_run (map sudo commands) w
       /\ n = Z.of_nat (List.length
                          (filter failed (outputs World subprocess_run
                                                  (map sudo commands) w)))
       /\ 0 <= n <= Z.of_nat (List.length commands).
Proof.
  split.
  - unfold _run_tc_commands. induction commands as [|cmd rest IH]; [reflexivity|].
    exact IH.
  - intros w' n H. unfold _run_tc_commands in H.
    apply run_tc_commands_from_count in H as [-> ->].
    split; [reflexivity|]. split; [reflexivity|].
    assert (Hlen : forall lines w0,
              List.length (outputs World subprocess_run lines w0) = List.length lines).
    { induction lines as [|l ls IHl]; intros w0; cbn; [reflexivity|].
      now rewrite IHl. }
    pose proof (filter_length_le failed
                  (outputs World subprocess_run (map sudo commands) w)) as Hle.
    rewrite Hlen, List.length_map in Hle. lia.
Qed.

(** One step of the combined reset on an interface that shows no marker. *)
Lemma reset_step_clean (query marker cmd : string) (w : World) :
  never_shows World subprocess_run (sudo query) marker ->
  reset_step World subprocess_run exc_message
             (run_tc_command World subprocess_run query) marker cmd w
  = (after_commands World subprocess_run [sudo query] w, success_result).
Proof.
  intros Hclean. unfold reset_step. rewrite run_tc_command_step.
  cbn [after_commands].
  destruct (Hclean w) as (w1 & shown & Hrun & Hmarker). rewrite Hrun.
  cbn [stdout fst]. rewrite Hmarker, andb_false_r. reflexivity.
Qed.

(** X4. On an interface whose queries show neither "filter" nor
    "clsact" nor "root", the combined reset reports success for the three
    steps and runs the three queries only, filters first, then the two qdisc
    queries: no delete command is issued. *)
Theorem reset_of_clean_interface (interface : string) (w : World) :
  let show_filters := sudo ("tc filter show dev " +s+ interface +s+ " egress") in
  let show_qdiscs := sudo ("tc qdisc show dev " +s+ interface) in
  never_shows World subprocess_run show_filters "filter" ->
  never_shows World subprocess_run show_qdiscs "clsact" ->
  never_shows World subprocess_run show_qdiscs "root" ->
  reset_qdisc_interface World subprocess_run exc_message interface w
  = (after_commands World subprocess_run [show_filters; show_qdiscs; show_qdiscs] w,
     mkResetResults interface success_result success_result success_result).
Proof.
  intros show_filters show_qdiscs Hf Hc Hr.
  unfold reset_qdisc_interface, show_tc_egress_filters, show_qdisc.
  rewrite (reset_step_clean _ _ _ w Hf).
  rewrite (reset_step_clean _ _ _ _ Hc).
  rewrite (reset_step_clean _ _ _ _ Hr).
  reflexivity.
Qed.

End Batches.

Lemma logging_run_never_raises : never_raises (list string) logging_run.
Proof. intros w line. eexists. eexists. reflexivity. Defined.

Lemma reset_config_ignores_failures_witness :
  reset_config (list string) logging_run "eth0" []
  = ([ "sudo tc filter show dev eth0 egress"; "sudo tc filter del dev eth0 egress";
       "sudo tc qdisc show dev eth0"; "sudo tc qdisc del dev eth0 clsact";
       "sudo tc qdisc show dev eth0"; "sudo tc qdisc del dev eth0 root" ],
     Returned true).
Proof.
  pose proof (reset_config_ignores_failures (list string) logging_run "eth0" []
                logging_run_never_raises) as H.
  destruct (reset_config (list string) logging_run "eth0" []) as [log out] eqn:E.
  cbn [snd] in H. subst out. vm_compute in E. inversion E. reflexivity.
Defined.

Lemma run_tc_commands_counts_failures_witness :
  _run_tc_commands (list string) logging_run
    ["tc qdisc show dev eth0"; "tc qdisc del dev eth0 root"] false []
  = (["sudo tc qdisc show dev eth0"; "sudo tc qdisc del dev eth0 root"], Ok 1).
Proof.
  destruct (proj2 (run_tc_commands_counts_failures (list string) logging_run
                     ["tc qdisc show dev eth0"; "tc qdisc del dev eth0 root"] [])
              ["sudo tc qdisc show dev eth0"; "sudo tc qdisc del dev eth0 root"] 1
              eq_refl) as (_ & _ & _).
  reflexivity.
Defined.

Lemma silent_run_never_shows (line marker : string) :
  marker <> "" -> never_shows (list string) silent_run line marker.
Proof.
  intros Hm w. eexists. eexists. split; [reflexivity|].
  destruct marker; [contradiction|reflexivity].
Defined.

Lemma reset_of_clean_interface_witness :
  reset_qdisc_interface (list string) silent_run (fun _ => "error") "eth0" []
  = ([ "sudo tc filter show dev eth0 egress"; "sudo tc qdisc show dev eth0";
       "sudo tc qdisc show dev eth0" ],
     mkResetResults "eth0" success_result success_result success_result).
Proof.
  apply (reset_of_clean_interface (list string) silent_run (fun _ => "error") "eth0" []);
    apply silent_run_never_shows; discriminate.
Defined.

End ShellFacts.

(* ====================================================================== *)
(** * Searches in the document tree *)
(* ====================================================================== *)

Module SearchFacts.
Import GE Search UP Spec Terms2.

(** Induction on a value, with the hypothesis available for every element
    of a list and every field of a mapping. *)
Lemma PyVal_nested_ind (P : PyVal -> Prop) :
  P VNone ->
  (forall b, P (VBool b)) ->
  (forall z, P (VInt z)) ->
  (forall s, P (VStr s)) ->
  (forall l, Forall P l -> P (VList l)) ->
  (forall d, Forall (fun kv => P (snd kv)) d -> P (VDict d)) ->
  forall v, P v.
Proof.
  intros HN HB HI HS HL HD.
  fix IH 1. intros [| b | z | s | l | d].
  - exact HN.
  - apply HB.
  - apply HI.
  - apply HS.
  - apply HL. induction l as [|x l IHl]; constructor; [apply IH|exact IHl].
  - apply HD. induction d as [|[k x] d IHd]; constructor; [apply IH|exact IHd].
Qed.

(** The closure that appends to [results] adds what the recursive search
    returns. *)
Lemma recursive_search_appends (key : string) (obj : PyVal) :
  forall results,
    _recursive_search key obj results = results ++ _find_all_keys obj key.
Proof.
  induction obj as [| b | z | s | l IH | d IH] using PyVal_nested_ind;
    intros results; try (cbn; now rewrite app_nil_r).
  - cbn [_recursive_search _find_all_keys]. revert results.
    induction IH as [|x l Hx _ IHl]; intros results; [now rewrite app_nil_r|].
    rewrite Hx, IHl, <- app_assoc. reflexivity.
  - cbn [_recursive_search _find_all_keys]. revert results.
    induction IH as [|[k x] d Hx _ IHd]; intros results; [now rewrite app_nil_r|].
    cbn [snd] in Hx. rewrite Hx, IHd.
    destruct (String.eqb k key); rewrite <- ?app_assoc; reflexivity.
Qed.

(** X5. The key searches agree: [find_all_by_key] of the universal and
    of the YAML parser, which fill a shared list, return for the cached
    documents the concatenation of what [_find_all_keys] returns for each,
    and [get_stream_ids] is the text of the values found under
    "stream-id". *)
Theorem key_searches_agree (documents : list PyVal) (key : string) :
  find_all_by_key documents key
  = flat_map (fun doc => _find_all_keys doc key) documents
  /\ get_stream_ids documents
     = map stream_id_text (find_all_by_key documents "stream-id").
Proof.
  assert (Hfind : forall k docs acc,
            fold_left (fun results doc => _recursive_search k doc results) docs acc
            = acc ++ flat_map (fun doc => _find_all_keys doc k) docs).
  { intros k docs. induction docs as [|doc docs IH]; intros acc; cbn.
    - now rewrite app_nil_r.
    - rewrite IH, recursive_search_appends, <- app_assoc. reflexivity. }
  split; [apply (Hfind key documents [])|].
  unfold find_all_by_key, get_stream_ids. rewrite Hfind. cbn [app].
  assert (Hids : forall docs acc,
            fold_left (fun stream_ids doc =>
                         stream_ids
                         ++ map stream_id_text (_find_all_keys doc "stream-id"))
                      docs acc
            = acc ++ map stream_id_text
                         (flat_map (fun doc => _find_all_keys doc "stream-id") docs)).
  { induction docs as [|doc docs IH]; intros acc; cbn.
    - now rewrite app_nil_r.
    - rewrite IH, map_app, <- app_assoc. reflexivity. }
  apply (Hids documents []).
Qed.

(** X6. What [_find_key] returns, when it is not [None], is one of the
    values [_find_all_keys] lists for the key; so it returns [None] when no
    value is stored under the key anywhere in the node. *)
Theorem find_key_among_all (node : PyVal) (key : string) :
  (_find_key node key <> VNone -> In (_find_key node key) (_find_all_keys node key))
  /\ (_find_all_keys node key = [] -> _find_key node key = VNone).
Proof.
  assert (Hin : forall n, _find_key n key <> VNone ->
                          In (_find_key n key) (_find_all_keys n key)).
  { induction n as [| b | z | s | l IH | d IH] using PyVal_nested_ind;
      try (cbn; intros H; now contradiction H).
    - cbn [_find_key _find_all_keys].
      induction IH as [|x l Hx _ IHl]; [intros H; now contradiction H|].
      destruct (_find_key x key) eqn:Hf; intros H; apply in_or_app;
        try (left; apply Hx; discriminate).
      right. now apply IHl.
    - cbn [_find_key _find_all_keys].
      induction IH as [|[k x] d Hx _ IHd]; [intros H; now contradiction H|].
      cbn [snd] in Hx. destruct (String.eqb k key).
      + intros _. now left.
      + cbn [app]. destruct (_find_key x key) eqn:Hf; intros H; apply in_or_app;
          try (left; apply Hx; discriminate).
        right. now apply IHd. }
  split; [apply Hin|].
  intros Hnone. destruct (_find_key node key) eqn:Hf; try reflexivity;
    exfalso; (assert (Hne : _find_key node key <> VNone) by (rewrite Hf; discriminate));
    apply Hin in Hne; rewrite Hnone in Hne; exact Hne.
Qed.

Lemma find_all_keys_items (d : list (string * PyVal)) (key : string) (v : PyVal) :
  In v (_find_all_keys (VDict d) key)
  <-> exists k x, In (k, x) d
                  /\ ((k = key /\ x = v) \/ In v (_find_all_keys x key)).
Proof.
  cbn [_find_all_keys]. induction d as [|[k x] d IH].
  - split; [intros []|]. intros (k & x & [] & _).
  - rewrite !in_app_iff, IH. split.
    + intros [H|[H|(k' & x' & Hin & H)]].
      * destruct (String.eqb_spec k key) as [->|_]; [|destruct H].
        destruct H as [<-|[]]. exists key, x. split; [now left|now left].
      * exists k, x. split; [now left|now right].
      * exists k', x'. split; [now right|assumption].
    + intros (k' & x' & [Heq|Hin] & H).
      * inversion Heq; subst k' x'. destruct H as [[-> ->]|H].
        -- left. rewrite String.eqb_refl. now left.
        -- right. now left.
      * right. right. now exists k', x'.
Qed.

Lemma find_all_keys_elements (l : list PyVal) (key : string) (v : PyVal) :
  In v (_find_all_keys (VList l) key)
  <-> exists x, In x l /\ In v (_find_all_keys x key).
Proof.
  cbn [_find_all_keys]. induction l as [|x l IH].
  - split; [intros []|]. intros (x & [] & _).
  - rewrite in_app_iff, IH. split.
    + intros [H|(x' & Hin & H)]; [exists x|exists x']; split; auto;
        [now left|now right].
    + intros (x' & [<-|Hin] & H); [now left|]. right. now exists x'.
Qed.

(** X20. [_find_all_keys] lists exactly the values stored under the key
    in the mappings of the node, at any depth: a value is in the result if
    and only if some mapping that occurs in the node has it under the
    key. *)
Theorem find_all_keys_complete (node : PyVal) (key : string) (v : PyVal) :
  In v (_find_all_keys node key)
  <-> exists d, occurs_in (VDict d) node /\ In (key, v) d.
Proof.
  split.
  - induction node as [| b | z | s | l IH | d IH] using PyVal_nested_ind;
      try (intros []).
    + intros H. apply find_all_keys_elements in H as (x & Hin & Hx).
      rewrite Forall_forall in IH. destruct (IH x Hin Hx) as (d & Hocc & Hd).
      exists d. split; [now apply occurs_in_element with x|assumption].
    + intros H. apply find_all_keys_items in H as (k & x & Hin & [[-> ->]|Hx]).
      * exists d. split; [constructor|assumption].
      * rewrite Forall_forall in IH. destruct (IH (k, x) Hin Hx) as (d' & Hocc & Hd).
        exists d'. split; [now apply occurs_in_field with k x|assumption].
  - intros (d & Hocc & Hd).
    induction Hocc as [|l x Hx _ IH|d' k x Hx _ IH].
    + apply find_all_keys_items. exists key, v. split; [assumption|now left].
    + apply find_all_keys_elements. now exists x.
    + apply find_all_keys_items. exists k, x. split; [assumption|now right].
Qed.

Lemma find_key_among_all_witness :
  In (VStr "eth0")
     (_find_all_keys (VDict [("interfaces", VDict [("interface",
                                VDict [("name", VStr "eth0")])])]) "name").
Proof.
  apply (proj1 (find_key_among_all
                  (VDict [("interfaces", VDict [("interface",
                             VDict [("name", VStr "eth0")])])]) "name")).
  discriminate.
Defined.

End SearchFacts.

(* ====================================================================== *)
(** * More on the parsers *)
(* ====================================================================== *)

Module ParserMoreFacts.
Import XML UP Spec Terms2.

(** The marker test on the items of a mapping. *)
Lemma contains_chronos_items (d : list (string * PyVal)) :
  _contains_chronos (VDict d) = true
  <-> exists k v, In (k, v) d
                  /\ (has_marker k = true \/ has_marker (py_str v) = true
                      \/ _contains_chronos v = true).
Proof.
  cbn [_contains_chronos]. unfold has_marker.
  induction d as [|[k v] d IH].
  - split; [discriminate|]. intros (k & v & [] & _).
  - destruct (contains "chronos-domain" (lower k)) eqn:Hk; cbn [orb].
    { split; [|reflexivity]. intros _. exists k, v. split; [now left|now left]. }
    destruct (contains "chronos-domain" (lower (py_str v))) eqn:Hv.
    { split; [|reflexivity]. intros _. exists k, v. split; [now left|auto]. }
    destruct (_contains_chronos v) eqn:Hc.
    { split; [|reflexivity]. intros _. exists k, v. split; [now left|auto]. }
    rewrite IH. split.
    + intros (k' & v' & Hin & H). exists k', v'. split; [now right|assumption].
    + intros (k' & v' & [Heq|Hin] & H).
      * inversion Heq; subst. destruct H as [H|[H|H]]; congruence.
      * exists k', v'. split; assumption.
Qed.

(** X7. The marker check answers true exactly when some mapping of the
    document, at any depth, has a key or the text of a value that holds
    "chronos-domain" in any letter case. *)
Theorem marker_found_iff_present (doc : PyVal) :
  _contains_chronos doc = true
  <-> exists d k v,
        occurs_in (VDict d) doc /\ In (k, v) d
        /\ (has_marker k = true \/ has_marker (py_str v) = true).
Proof.
  split.
  - induction doc as [| b | z | s | l IH | d IH] using SearchFacts.PyVal_nested_ind;
      try discriminate.
    + cbn [_contains_chronos]. intros H. apply existsb_exists in H as (x & Hin & Hx).
      rewrite Forall_forall in IH. destruct (IH x Hin Hx) as (d & k & v & Hocc & Hrest).
      exists d, k, v. split; [now apply occurs_in_element with x|assumption].
    + intros H. apply contains_chronos_items in H as (k & v & Hin & [H|[H|H]]).
      * exists d, k, v. split; [constructor|]. split; [assumption|now left].
      * exists d, k, v. split; [constructor|]. split; [assumption|now right].
      * rewrite Forall_forall in IH.
        destruct (IH (k, v) Hin H) as (d' & k' & v' & Hocc & Hrest).
        exists d', k', v'. split; [now apply occurs_in_field with k v|assumption].
  - intros (d & k & v & Hocc & Hin & Hmark).
    induction Hocc as [|l x Hx _ IH|d' k' x Hx _ IH].
    + apply contains_chronos_items. exists k, v. split; [assumption|tauto].
    + cbn [_contains_chronos]. apply existsb_exists. now exists x.
    + apply contains_chronos_items. exists k', x. split; [assumption|auto].
Qed.

Section Parsing.

Variable read_file : string -> result string.
Variable et_fromstring : string -> result XML.Element.
Variable yaml_safe_load_all : string -> result (list PyVal).

(** X8. A parse that raises leaves the cached documents as they were.
    If the extension is not one of .xml, .yaml, .yml the exception is
    [ValueError] and nothing changes at all; otherwise the parser of the
    extension has become the current one and holds no document, so the
    marker check is false and no dictionary helper is handed out, even when
    the cached documents hold the marker. *)
Theorem failed_parse_state (up up' : UniversalParser) (file_path : string) (e : exc) :
  parse read_file et_fromstring yaml_safe_load_all up file_path = (up', Raise e) ->
  documents up' = documents up
  /\ (parsers_get (splitext_ext (lower file_path)) = None ->
      up' = up /\ e = ValueError)
  /\ (forall k,
        parsers_get (splitext_ext (lower file_path)) = Some k ->
        current_parser up' = Some k
        /\ parser_documents up' k = []
        /\ has_chronos_domain up' = false
        /\ get_dictionary_helper up' = None).
Proof.
  unfold parse, format_parse. intros H.
  destruct (parsers_get (splitext_ext (lower file_path))) as [k|].
  - destruct (load read_file et_fromstring yaml_safe_load_all k file_path);
      inversion H; subst.
    split; [destruct k; reflexivity|]. split; [discriminate|].
    intros k' Hk. inversion Hk; subst k'.
    assert (Hfalse : has_chronos_domain
                       (set_parser_documents (set_current_parser up k) k []) = false)
      by (destruct k; reflexivity).
    split; [destruct k; reflexivity|]. split; [destruct k; reflexivity|].
    split; [assumption|]. unfold get_dictionary_helper. now rewrite Hfalse.
  - inversion H; subst. split; [reflexivity|]. split; [auto|]. discriminate.
Qed.

(** X9. After a parse that returns, the cached documents are the
    returned ones, none of them is [None] when the file is YAML, the marker
    check is the check on the returned documents, the dictionary helper is
    bound to them exactly when one of them holds the marker, and the
    documents of the other format parsers are untouched. *)
Theorem successful_parse_state (up up' : UniversalParser) (file_path : string)
  (docs : list PyVal) :
  parse read_file et_fromstring yaml_safe_load_all up file_path = (up', Ok docs) ->
  documents up' = docs
  /\ has_chronos_domain up' = existsb _contains_chronos docs
  /\ get_dictionary_helper up'
     = (if existsb _contains_chronos docs then Some docs else None)
  /\ (exists k, current_parser up' = Some k
                /\ parser_documents up' k = docs
                /\ (k <> XmlParser -> Forall (fun doc => doc <> VNone) docs)
                /\ forall k', k' <> k -> parser_documents up' k' = parser_documents up k').
Proof.
  intros H.
  destruct (ParserFacts.parse_ok read_file et_fromstring yaml_safe_load_all
              up up' file_path docs H) as (k & Hk & Hload & ->).
  assert (Hmarker : has_chronos_domain
            (set_documents (set_parser_documents (set_current_parser up k) k docs) docs)
            = existsb _contains_chronos docs) by (destruct k; reflexivity).
  split; [reflexivity|]. split; [assumption|].
  split; [unfold get_dictionary_helper; rewrite Hmarker; reflexivity|].
  exists k. split; [destruct k; reflexivity|]. split; [destruct k; reflexivity|].
  split.
  - intros Hyaml.
    assert (Hy : yaml_load read_file yaml_safe_load_all file_path = Ok docs)
      by (destruct k; [contradiction|assumption..]).
    unfold yaml_load in Hy.
    destruct (read_file file_path) as [content|]; cbn [bind] in Hy; [|discriminate].
    destruct (yaml_safe_load_all content) as [loaded|]; cbn [bind] in Hy;
      [|discriminate].
    inversion Hy. apply Forall_forall. intros doc Hin.
    apply filter_In in Hin as [_ Hnone]. intros ->. discriminate Hnone.
  - intros k' Hne. destruct k, k'; try contradiction; reflexivity.
Qed.

End Parsing.

Lemma failed_parse_state_witness :
  has_chronos_domain
    (fst (parse example_read_file example_et_fromstring example_yaml_safe_load_all
                init "Config.YAML")) = true
  /\ has_chronos_domain
       (fst (parse example_read_file example_et_fromstring example_yaml_safe_load_all
                   (fst (parse example_read_file example_et_fromstring
                               example_yaml_safe_load_all init "Config.YAML"))
                   "missing.yaml")) = false.
Proof.
  split; [reflexivity|].
  pose (up := fst (parse example_read_file example_et_fromstring
                         example_yaml_safe_load_all init "Config.YAML")).
  pose (up' := fst (parse example_read_file example_et_fromstring
                          example_yaml_safe_load_all up "missing.yaml")).
  assert (H : parse example_read_file example_et_fromstring
                    example_yaml_safe_load_all up "missing.yaml"
              = (up', Raise OSError)) by (vm_compute; reflexivity).
  destruct (failed_parse_state example_read_file example_et_fromstring
              example_yaml_safe_load_all up up' "missing.yaml" OSError H)
    as (_ & _ & Hk).
  exact (proj1 (proj2 (proj2 (Hk YamlParser eq_refl)))).
Defined.

Lemma successful_parse_state_witness :
  get_dictionary_helper
    (fst (parse example_read_file example_et_fromstring example_yaml_safe_load_all
                init "Config.YAML"))
  = Some [ VDict [("cnc-config",
                   VDict [("domain", VDict [("domain-id", VStr "Chronos-Domain")])])];
           VDict [("interfaces", VNone)] ].
Proof.
  pose (up := fst (parse example_read_file example_et_fromstring
                         example_yaml_safe_load_all init "Config.YAML")).
  assert (H : parse example_read_file example_et_fromstring
                    example_yaml_safe_load_all init "Config.YAML"
              = (up, Ok (documents up))) by (vm_compute; reflexivity).
  destruct (successful_parse_state example_read_file example_et_fromstring
              example_yaml_safe_load_all init up "Config.YAML" (documents up) H)
    as (_ & _ & Hhelper & _).
  exact Hhelper.
Defined.

End ParserMoreFacts.

(* ====================================================================== *)
(** * More on the XML conversion *)
(* ====================================================================== *)

Module XMLMoreFacts.
Import XML Spec Terms2 XMLFacts.

Lemma after_last_clean (c : ascii) (s : string) :
  has_char c (after_last c s) = false /\ ends_with s (after_last c s).
Proof.
  induction s as [|a r [IHc IHs]].
  - split; [reflexivity|]. now exists "".
  - cbn [after_last]. destruct (has_char c (String a r)) eqn:H.
    + split; [assumption|]. destruct IHs as (before & Hb).
      exists (String a before). cbn. now rewrite <- Hb.
    + split; [assumption|]. now exists "".
Qed.

Lemma after_last_none (c : ascii) (s : string) :
  has_char c s = false -> after_last c s = s.
Proof. intros H. destruct s; cbn [after_last]; [reflexivity|now rewrite H]. Qed.

(** A text that holds [c] is cut right after its last [c]. *)
Lemma after_last_split (c : ascii) (s : string) :
  has_char c s = true ->
  exists before, s = before +s+ String c (after_last c s).
Proof.
  induction s as [|a r IH]; intros H; [discriminate H|].
  cbn [after_last]. rewrite H.
  destruct (has_char c r) eqn:Hr.
  - destruct (IH eq_refl) as (before & Hb).
    exists (String a before). cbn [String.append]. now rewrite <- Hb.
  - cbn [has_char] in H. rewrite Hr, orb_false_r in H.
    apply Ascii.eqb_eq in H. subst a.
    exists "". now rewrite after_last_none.
Qed.

(** X10. The key a converted element is stored under is the local name
    of its tag: the tag is a namespace part followed by the key, the key
    holds no "}", and the namespace part is empty or ends with "}".  So the
    key is the whole tag when the tag has no "}", and what follows the last
    "}" otherwise; a tag "{urn:ietf:params:xml:ns:yang:ietf-interfaces}interface"
    is stored under "interface". *)
Theorem namespace_stripped (e : Element) :
  (exists namespace,
     tag_of e = namespace +s+ child_tag e
     /\ (namespace = "" \/ ends_with namespace "}"))
  /\ has_char "}" (child_tag e) = false
  /\ child_tag (Elem "{urn:ietf:params:xml:ns:yang:ietf-interfaces}interface"
                     [] None [])
     = "interface".
Proof.
  split; [|split; [|reflexivity]].
  - destruct e as [etag attrib text children]. unfold child_tag.
    cbn [_element_to_dict fst tag_of]. unfold _strip_namespace.
    destruct (has_char "}" etag) eqn:H.
    + destruct (after_last_split "}" etag H) as (before & Hb).
      exists (before +s+ "}"). split.
      * rewrite Hb at 1. rewrite TCFacts.append_assoc. reflexivity.
      * right. now exists before.
    + exists "". split; [reflexivity|now left].
  - destruct e as [etag attrib text children]. unfold child_tag.
    cbn [_element_to_dict fst tag_of]. unfold _strip_namespace.
    destruct (has_char "}" etag) eqn:H.
    + apply after_last_clean.
    + assumption.
Qed.

Lemma attribute_key_eqb (k k' : string) :
  String.eqb ("@" +s+ k') ("@" +s+ k) = String.eqb k' k.
Proof.
  destruct (String.eqb_spec k' k) as [->|Hne].
  - apply String.eqb_refl.
  - apply String.eqb_neq. intros H. inversion H. contradiction.
Qed.

Lemma add_attributes_other (k : string) (attrib : list (string * string))
  (node : list (string * PyVal)) :
  ~ In k (map fst attrib) ->
  lookup ("@" +s+ k) (add_attributes node attrib) = lookup ("@" +s+ k) node.
Proof.
  unfold add_attributes. revert node.
  induction attrib as [|[k0 v0] attrib IH]; intros node Hk; cbn [fold_left fst snd];
    [reflexivity|].
  rewrite IH by (intros Hin; apply Hk; now right).
  rewrite lookup_dict_set, attribute_key_eqb.
  destruct (String.eqb_spec k0 k) as [->|_]; [|reflexivity].
  exfalso. apply Hk. now left.
Qed.

Lemma add_attributes_lookup (k v : string) (attrib : list (string * string))
  (node : list (string * PyVal)) :
  NoDup (map fst attrib) -> In (k, v) attrib ->
  lookup ("@" +s+ k) (add_attributes node attrib) = Some (VStr v).
Proof.
  revert node. induction attrib as [|[k0 v0] attrib IH]; intros node Hnd Hin;
    [destruct Hin|].
  cbn [map fst] in Hnd. inversion Hnd as [|? ? Hfresh Hnd']; subst.
  destruct Hin as [Heq|Hin].
  - inversion Heq; subst k0 v0.
    change (add_attributes node ((k, v) :: attrib))
      with (add_attributes (dict_set node ("@" +s+ k) (VStr v)) attrib).
    rewrite add_attributes_other by assumption.
    now rewrite lookup_dict_set, String.eqb_refl.
  - change (add_attributes node ((k0, v0) :: attrib))
      with (add_attributes (dict_set node ("@" +s+ k0) (VStr v0)) attrib).
    now apply IH.
Qed.

(** No child of an element is stored under an attribute key. *)
Lemma no_child_under_attribute (children : list Element) (k : string) :
  Forall (fun c => is_element_name (child_tag c) = true) children ->
  child_values children ("@" +s+ k) = [].
Proof.
  intros Hnames. unfold child_values.
  induction Hnames as [|c children Hc _ IH]; [reflexivity|].
  cbn [filter]. rewrite String.eqb_sym, (element_name_not_attribute _ k Hc).
  exact IH.
Qed.

(** X11. In the conversion of an element with distinct attribute names,
    every attribute is found under "@" followed by its name; text that is
    not blank is kept under "#text" when the element has children or
    attributes; and an element with neither converts to its trimmed text, or
    to [None] when that is empty. *)
Theorem attributes_and_text_kept (etag : string) (attrib : list (string * string))
  (text : option string) (children : list Element) :
  NoDup (map fst attrib) ->
  Forall (fun c => is_element_name (child_tag c) = true) children ->
  let e := Elem etag attrib text children in
  let trimmed := match text with Some t => strip t | None => "" end in
  (forall k v, In (k, v) attrib ->
     exists node, child_value e = VDict node
                  /\ lookup ("@" +s+ k) node = Some (VStr v))
  /\ (trimmed <> "" -> children <> [] \/ attrib <> [] ->
      exists node, child_value e = VDict node
                   /\ lookup "#text" node = Some (VStr trimmed))
  /\ (children = [] -> attrib = [] ->
      child_value e = if String.eqb trimmed "" then VNone else VStr trimmed).
Proof.
  intros Hnd Hnames e trimmed.
  assert (Hvalue : child_value e
                   = finish_element (nonempty children) (nonempty attrib) text
                                    (node_of e)) by reflexivity.
  split; [|split].
  - intros k v Hin.
    assert (Hnode : lookup ("@" +s+ k) (node_of e) = Some (VStr v)).
    { unfold node_of. cbn [children_of attrib_of e].
      rewrite (merge_onto_value ("@" +s+ k) children _ (VStr v)).
      - now rewrite no_child_under_attribute.
      - now apply add_attributes_lookup.
      - intros (l & Hl). discriminate Hl. }
    assert (Hattrib : nonempty attrib = true) by (destruct attrib; [destruct Hin|reflexivity]).
    rewrite Hvalue, Hattrib. unfold finish_element. fold trimmed.
    rewrite orb_true_r.
    destruct (negb (String.eqb trimmed "")).
    + eexists. split; [reflexivity|].
      rewrite lookup_dict_set. cbn [String.eqb]. assumption.
    + destruct (node_of e) as [|kv node] eqn:Hn; [discriminate Hnode|].
      cbn [nonempty]. eexists. split; [reflexivity|assumption].
  - intros Htext Hsome.
    assert (Hor : nonempty children || nonempty attrib = true).
    { destruct Hsome as [H|H]; [destruct children|destruct attrib];
        try contradiction; cbn; [reflexivity|apply orb_true_r]. }
    rewrite Hvalue. unfold finish_element. fold trimmed. rewrite Hor.
    destruct (String.eqb_spec trimmed "") as [Heq|_]; [contradiction|]. cbn [negb].
    eexists. split; [reflexivity|]. now rewrite lookup_dict_set, String.eqb_refl.
  - intros -> ->. rewrite Hvalue. unfold finish_element. fold trimmed.
    cbn. destruct (String.eqb trimmed ""); reflexivity.
Qed.

Lemma attributes_and_text_kept_witness :
  exists node,
    child_value example_element = VDict node
    /\ lookup "@id" node = Some (VStr "7").
Proof.
  refine (proj1 (attributes_and_text_kept "{urn:tsn}a" [("id", "7")] (Some " ")
                   (children_of example_element) _ example_children_named)
                "id" "7" _).
  - repeat constructor. intros [].
  - now left.
Defined.

End XMLMoreFacts.

(* ====================================================================== *)
(** * More on the talker records *)
(* ====================================================================== *)

Module TalkerMoreFacts.
Import GE Spec Terms2 TalkerFacts.

(** *** The result is a talker map *)

Lemma append_under_Forall (Q : PyVal * list PyVal -> Prop) (m : TalkerMap)
  (k e : PyVal) :
  (forall k' es, Q (k', es) -> Q (k', es ++ [e])) ->
  Q (k, [e]) ->
  Forall Q m -> Forall Q (append_under m k e).
Proof.
  intros Hgrow Hnew. induction 1 as [|[k' es] m Hq Hm IH]; cbn [append_under].
  - repeat constructor. assumption.
  - destruct (key_eqb k' k); constructor; try assumption. now apply Hgrow.
Qed.

Lemma append_under_distinct (m : TalkerMap) (k e : PyVal) :
  distinct_keys m -> distinct_keys (append_under m k e).
Proof.
  induction m as [|[k' es] m IH]; cbn [append_under distinct_keys].
  - intros _. split; [constructor|exact I].
  - intros [Hk Hm]. destruct (key_eqb k' k) eqn:Heq; cbn [distinct_keys].
    + split; assumption.
    + split; [|now apply IH].
      apply append_under_Forall; [intros ? ? H; exact H|exact Heq|assumption].
Qed.

(** What the loops keep true of the map under construction. *)
Lemma append_under_talker_map (m : TalkerMap) (k e : PyVal) :
  truthy k = true -> is_hashable k = true -> is_dict e ->
  talker_map m /\ stream_keys_ok m ->
  talker_map (append_under m k e) /\ stream_keys_ok (append_under m k e).
Proof.
  intros Ht Hh He [[Hkeys Hdicts] Hok]. split; [split|].
  - now apply append_under_distinct.
  - apply append_under_Forall; [| |assumption]; cbn [snd].
    + intros k' es H. apply Forall_app. split; [assumption|now constructor].
    + now constructor.
  - apply append_under_Forall; [| |assumption]; cbn [fst snd].
    + intros k' es (H1 & H2 & _). repeat split; try assumption.
      intros H. now apply app_eq_nil in H as [_ H].
    + repeat split; try assumption. discriminate.
Qed.

Lemma talker_entry_is_dict (talker rec : PyVal) :
  talker_entry talker = Ok rec -> is_dict rec.
Proof.
  intros H. destruct (talker_entry_time_aware talker rec H)
    as (_ & fields & _ & _ & -> & _). exact I.
Qed.

Lemma stream_step_talker_map (m m' : TalkerMap) (stream : PyVal) :
  talker_map m /\ stream_keys_ok m -> stream_step m stream = Ok m' ->
  talker_map m' /\ stream_keys_ok m'.
Proof.
  intros Hm H. unfold stream_step in H.
  destruct (py_get stream "stream-id") as [sid|]; cbn [bind] in H; [|discriminate H].
  destruct (truthy sid) eqn:Hsid; cbn [negb] in H; [|now inversion H; subst].
  destruct (py_get_default stream "talker" (VList [])) as [talkers|];
    cbn [bind] in H; [|discriminate H].
  apply (for_each_invariant (fun m => talker_map m /\ stream_keys_ok m)
           (talker_step sid) (as_list talkers)) with (st := m); [|assumption..].
  intros st talker st' _ Hst Hstep. unfold talker_step in Hstep.
  destruct (talker_entry talker) as [entry|] eqn:He; cbn [bind] in Hstep;
    [|discriminate Hstep].
  unfold setdefault_append in Hstep.
  destruct (is_hashable sid) eqn:Hh; [|discriminate Hstep].
  inversion Hstep; subst st'.
  apply append_under_talker_map; try assumption.
  now apply talker_entry_is_dict with talker.
Qed.

Lemma loop_talker_map (step : TalkerMap -> PyVal -> result TalkerMap)
  (xs : list PyVal) (m m' : TalkerMap) :
  (forall x m m', talker_map m /\ stream_keys_ok m -> step m x = Ok m' ->
                  talker_map m' /\ stream_keys_ok m') ->
  talker_map m /\ stream_keys_ok m -> for_each step xs m = Ok m' ->
  talker_map m' /\ stream_keys_ok m'.
Proof.
  intros Hstep Hm H.
  apply (for_each_invariant (fun m => talker_map m /\ stream_keys_ok m) step xs)
    with (st := m); [|assumption..].
  intros st x st' _. apply Hstep.
Qed.

Lemma doc_step_talker_map (m m' : TalkerMap) (doc : PyVal) :
  talker_map m /\ stream_keys_ok m -> doc_step m doc = Ok m' ->
  talker_map m' /\ stream_keys_ok m'.
Proof.
  intros Hm H. unfold doc_step in H.
  destruct (py_get_default doc "cnc-config" (VDict [])) as [cnc|];
    cbn [bind] in H; [|discriminate H].
  destruct (py_get_default cnc "domain" (VList [])) as [domains|];
    cbn [bind] in H; [|discriminate H].
  apply (loop_talker_map domain_step (as_list domains) m m'); [|assumption..].
  clear. intros domain m m' Hm H. unfold domain_step in H.
  destruct (py_get_default domain "cuc" (VList [])) as [cucs|];
    cbn [bind] in H; [|discriminate H].
  apply (loop_talker_map cuc_step (as_list cucs) m m'); [|assumption..].
  clear. intros cuc m m' Hm H. unfold cuc_step in H.
  destruct (py_get_default cuc "stream" (VList [])) as [streams|];
    cbn [bind] in H; [|discriminate H].
  apply (loop_talker_map stream_step (as_list streams) m m'); [|assumption..].
  clear. intros stream m m'. apply stream_step_talker_map.
Qed.

(** X12. What [get_all_talker_stream_info] returns is a talker map: its
    stream ids are pairwise different, truthy and hashable, no stream has an
    empty list, every record is a mapping.  So both VLAN filters return on
    it, with the per-stream selections. *)
Theorem extracted_info_is_talker_map (documents : list PyVal) (info : TalkerMap) :
  get_all_talker_stream_info documents = Ok info ->
  talker_map info
  /\ stream_keys_ok info
  /\ get_vlan_tagged_time_aware_talker_info info = Ok (select vlan_time_aware info)
  /\ get_vlan_tagged_non_time_aware_talker_info info
     = Ok (select vlan_non_time_aware info).
Proof.
  intros H.
  assert (Hmap : talker_map info /\ stream_keys_ok info).
  { unfold get_all_talker_stream_info in H.
    destruct (negb (nonempty documents)).
    - inversion H; subst. repeat split; constructor.
    - apply (loop_talker_map doc_step documents [] info); [|repeat split; constructor
                                                           |assumption].
      intros doc m m'. apply doc_step_talker_map. }
  destruct Hmap as [Hmap Hkeys]. repeat split; try assumption; try apply Hmap.
  - apply FilterFacts.filter_select;
      [apply FilterFacts.is_vlan_time_aware_dict|assumption].
  - apply FilterFacts.filter_select;
      [apply FilterFacts.is_vlan_non_time_aware_dict|assumption].
Qed.

Lemma extracted_info_is_talker_map_witness :
  exists info,
    get_all_talker_stream_info [example_stream_document] = Ok info
    /\ talker_map info
    /\ get_vlan_tagged_non_time_aware_talker_info info
       = Ok (select vlan_non_time_aware info).
Proof.
  destruct (get_all_talker_stream_info [example_stream_document]) as [info|] eqn:E;
    [|discriminate E].
  exists info. split; [reflexivity|].
  destruct (extracted_info_is_talker_map [example_stream_document] info E)
    as (Hmap & _ & _ & Hnon).
  split; assumption.
Defined.

(** *** The VLAN flag and the MAC addresses *)

Lemma replace_dash_clean (s : string) : has_char "-" (replace_dash s) = false.
Proof.
  unfold replace_dash. induction s as [|c s IH]; [reflexivity|].
  cbn [map_chars has_char]. rewrite IH, orb_false_r.
  destruct (Ascii.eqb_spec c "-") as [->|Hc]; [reflexivity|].
  destruct (Ascii.eqb_spec "-" c) as [<-|_]; [contradiction|reflexivity].
Qed.

Lemma normalize_mac_field (m r : PyVal) : normalize_mac m = Ok r -> mac_field r.
Proof.
  unfold normalize_mac. destruct (truthy m).
  - destruct m; try discriminate. intros H. inversion H. right.
    eexists. split; [reflexivity|apply replace_dash_clean].
  - intros H. inversion H. now left.
Qed.

(** The blocks other than the VLAN one leave the VLAN locals alone. *)
Lemma other_blocks_keep_vlan (vars vars' : TalkerVars) (cfg : PyVal) :
  cfg_mac vars cfg = Ok vars' \/ cfg_ipv4 vars cfg = Ok vars'
  \/ cfg_offset vars cfg = Ok vars' \/ cfg_time_block vars cfg = Ok vars' ->
  vlan_tag vars' = vlan_tag vars /\ vlan_id vars' = vlan_id vars
  /\ pcp vars' = pcp vars.
Proof.
  unfold cfg_mac, cfg_ipv4, cfg_offset, cfg_time_block.
  intros [H|[H|[H|H]]]; run_ok H; inversion H; subst; auto.
Qed.

(** The blocks other than the MAC one leave the destination MAC alone. *)
Lemma other_blocks_keep_mac (vars vars' : TalkerVars) (cfg : PyVal) :
  cfg_vlan vars cfg = Ok vars' \/ cfg_ipv4 vars cfg = Ok vars'
  \/ cfg_offset vars cfg = Ok vars' \/ cfg_time_block vars cfg = Ok vars' ->
  dst_mac vars' = dst_mac vars.
Proof.
  unfold cfg_vlan, cfg_ipv4, cfg_offset, cfg_time_block.
  intros [H|[H|[H|H]]]; run_ok H; inversion H; subst; auto.
Qed.

Lemma cfg_mac_field (vars vars' : TalkerVars) (cfg : PyVal) :
  cfg_mac vars cfg = Ok vars' -> mac_field (dst_mac vars) -> mac_field (dst_mac vars').
Proof.
  unfold cfg_mac. intros H Hold. run_ok H; inversion H; subst; [|assumption].
  cbn [dst_mac]. eapply normalize_mac_field. eassumption.
Qed.

(** The VLAN block raises the flag exactly for an entry that carries a
    VLAN-tag mapping, and changes nothing otherwise. *)
Lemma cfg_vlan_flag (vars vars' : TalkerVars) (cfg : PyVal) :
  cfg_vlan vars cfg = Ok vars' ->
  (vlan_tag vars' = true
   /\ exists d block, cfg = VDict d /\ lookup "ieee802-vlan-tag" d = Some (VDict block))
  \/ (vars' = vars
      /\ forall d block, cfg = VDict d ->
                         lookup "ieee802-vlan-tag" d <> Some (VDict block)).
Proof.
  unfold cfg_vlan. intros H.
  destruct cfg as [| | |s|l|d]; cbn [py_in bind] in H; try discriminate H.
  - destruct (contains _ s); [discriminate H|]. inversion H; subst. right.
    split; [reflexivity|]. intros d block Hd. discriminate Hd.
  - destruct (existsb _ l); [discriminate H|]. inversion H; subst. right.
    split; [reflexivity|]. intros d block Hd. discriminate Hd.
  - unfold py_getitem in H.
    destruct (lookup "ieee802-vlan-tag" d) as [vlan|] eqn:Hl; cbn [bind] in H.
    + destruct vlan as [| | | | |block]; try discriminate H.
      run_ok H. inversion H; subst. left. split; [reflexivity|]. now exists d, block.
    + inversion H; subst. right. split; [reflexivity|].
      intros d' block Hd. inversion Hd; subst. congruence.
Qed.

Lemma cfg_step_vlan (vars vars' : TalkerVars) (cfg : PyVal) :
  cfg_step vars cfg = Ok vars' ->
  (vlan_tag vars' = true
   <-> vlan_tag vars = true
       \/ exists d block, cfg = VDict d
                          /\ lookup "ieee802-vlan-tag" d = Some (VDict block))
  /\ (vlan_tag vars' = false ->
      vlan_id vars' = vlan_id vars /\ pcp vars' = pcp vars)
  /\ (mac_field (dst_mac vars) -> mac_field (dst_mac vars')).
Proof.
  unfold cfg_step. intros H.
  destruct (cfg_mac vars cfg) as [v1|] eqn:H1; cbn [bind] in H; [|discriminate H].
  destruct (cfg_vlan v1 cfg) as [v2|] eqn:H2; cbn [bind] in H; [|discriminate H].
  destruct (cfg_ipv4 v2 cfg) as [v3|] eqn:H3; cbn [bind] in H; [|discriminate H].
  destruct (cfg_offset v3 cfg) as [v4|] eqn:H4; cbn [bind] in H; [|discriminate H].
  pose proof (cfg_mac_field vars v1 cfg H1) as Hmac.
  pose proof (other_blocks_keep_mac v1 v2 cfg (or_introl H2)) as M2.
  pose proof (other_blocks_keep_mac v2 v3 cfg (or_intror (or_introl H3))) as M3.
  pose proof (other_blocks_keep_mac v3 v4 cfg (or_intror (or_intror (or_introl H4))))
    as M4.
  pose proof (other_blocks_keep_mac v4 vars' cfg
                (or_intror (or_intror (or_intror H)))) as M5.
  pose proof (other_blocks_keep_vlan vars v1 cfg (or_introl H1)) as (A1 & B1 & C1).
  pose proof (other_blocks_keep_vlan v2 v3 cfg (or_intror (or_introl H3)))
    as (A3 & B3 & C3).
  pose proof (other_blocks_keep_vlan v3 v4 cfg (or_intror (or_intror (or_introl H4))))
    as (A4 & B4 & C4).
  pose proof (other_blocks_keep_vlan v4 vars' cfg (or_intror (or_intror (or_intror H))))
    as (A5 & B5 & C5).
  rewrite A5, A4, A3, B5, B4, B3, C5, C4, C3, M5, M4, M3, M2, <- A1, <- B1, <- C1.
  split; [|split; [|exact Hmac]].
  - destruct (cfg_vlan_flag v1 v2 cfg H2) as [[Ht Hb]|[-> Hnone]].
    + rewrite Ht. split; [intros _; now right|reflexivity].
    + split; [now left|]. intros [Hf|(d & block & Hd & Hl)]; [assumption|].
      exfalso. now apply (Hnone d block).
  - destruct (cfg_vlan_flag v1 v2 cfg H2) as [[Ht _]|[-> _]].
    + rewrite Ht. discriminate.
    + auto.
Qed.

Lemma cfg_loop_vlan (cfg_lists : list PyVal) (vars vars' : TalkerVars) :
  for_each cfg_step cfg_lists vars = Ok vars' ->
  (vlan_tag vars' = true <-> vlan_tag vars = true \/ has_vlan_block cfg_lists)
  /\ (vlan_tag vars' = false ->
      vlan_id vars' = vlan_id vars /\ pcp vars' = pcp vars)
  /\ (mac_field (dst_mac vars) -> mac_field (dst_mac vars')).
Proof.
  revert vars. induction cfg_lists as [|cfg rest IH]; intros vars H; simpl in H.
  - inversion H; subst. split; [|split; auto]. split; [auto|].
    intros [Hf|(cfg & d & b & [] & _)]. assumption.
  - destruct (cfg_step vars cfg) as [v1|] eqn:H1; cbn [bind] in H; [|discriminate H].
    destruct (IH v1 H) as (Hflag & Hids & Hmac).
    destruct (cfg_step_vlan vars v1 cfg H1) as (Hflag1 & Hids1 & Hmac1).
    split; [|split].
    + rewrite Hflag, Hflag1. unfold has_vlan_block. split.
      * intros [[Hf|(d & b & Hd & Hl)]|(c & d & b & Hin & Hd & Hl)].
        -- now left.
        -- right. exists cfg, d, b. split; [now left|split; assumption].
        -- right. exists c, d, b. split; [now right|split; assumption].
      * intros [Hf|(c & d & b & [<-|Hin] & Hd & Hl)].
        -- now left; left.
        -- left. right. now exists d, b.
        -- right. now exists c, d, b.
    + intros Hfalse. destruct (Hids Hfalse) as [-> ->]. apply Hids1.
      destruct (vlan_tag v1) eqn:Hv1; [|reflexivity].
      assert (Htrue : vlan_tag vars' = true) by (apply Hflag; now left). congruence.
    + auto.
Qed.

(** The fields of a record, read off the locals of its loop. *)
Lemma talker_entry_fields (talker rec : PyVal) :
  talker_entry talker = Ok rec ->
  exists cfg_lists vars fields source interface_mac,
    talker_cfg_lists talker = Ok cfg_lists
    /\ for_each cfg_step cfg_lists default_vars = Ok vars
    /\ rec = VDict fields
    /\ mac_field source /\ mac_field interface_mac
    /\ lookup "source_mac" fields = Some source
    /\ lookup "interface_mac" fields = Some interface_mac
    /\ lookup "destination_mac" fields = Some (dst_mac vars)
    /\ lookup "vlan_tag" fields = Some (VBool (vlan_tag vars))
    /\ lookup "vlan_id" fields = Some (vlan_id vars)
    /\ lookup "vlan_priority" fields = Some (pcp vars).
Proof.
  unfold talker_entry, talker_cfg_lists. intros H.
  destruct (py_get_default talker "end-station-interfaces" (VDict []))
    as [end_iface|]; cbn [bind] in H; [|discriminate H].
  destruct (py_get end_iface "mac-address") as [m1|]; cbn [bind] in H;
    [|discriminate H].
  destruct (normalize_mac m1) as [src|] eqn:Hsrc; cbn [bind] in H; [|discriminate H].
  destruct (talker_iface_list talker) as [iface_list|]; cbn [bind] in H |- *;
    [|discriminate H].
  destruct (py_get iface_list "mac-address") as [m2|]; cbn [bind] in H;
    [|discriminate H].
  destruct (normalize_mac m2) as [imac|] eqn:Himac; cbn [bind] in H; [|discriminate H].
  destruct (py_get iface_list "interface-name") as [name|]; cbn [bind] in H;
    [|discriminate H].
  destruct (py_get_default iface_list "config-list" (VList [])) as [cfgs|];
    cbn [bind] in H |- *; [|discriminate H].
  destruct (for_each cfg_step (as_list cfgs) default_vars) as [vars|] eqn:Hloop;
    cbn [bind] in H; [|discriminate H].
  inversion H; subst rec. clear H.
  exists (as_list cfgs), vars. eexists. exists src, imac.
  split; [reflexivity|]. split; [assumption|]. split; [reflexivity|].
  split; [now apply normalize_mac_field with m1|].
  split; [now apply normalize_mac_field with m2|].
  repeat split.
Qed.


(** X14. In every talker record of [get_all_talker_stream_info] the
    three MAC address fields are [None] or text without a hyphen. *)
Theorem mac_fields_normalized (documents : list PyVal) (info : TalkerMap)
  (sid : PyVal) (recs : list PyVal) (rec : PyVal) :
  get_all_talker_stream_info documents = Ok info ->
  In (sid, recs) info ->
  In rec recs ->
  exists fields source interface_mac destination,
    rec = VDict fields
    /\ lookup "source_mac" fields = Some source /\ mac_field source
    /\ lookup "interface_mac" fields = Some interface_mac /\ mac_field interface_mac
    /\ lookup "destination_mac" fields = Some destination /\ mac_field destination.
Proof.
  intros Hinfo Hin Hrec.
  destruct (get_all_talker_stream_info_from documents info Hinfo sid recs rec Hin Hrec)
    as (talker & Hnode & Hentry).
  destruct (talker_entry_fields talker rec Hentry)
    as (cfgs & vars & fields & src & imac & Hcfg & Hloop & Hfields & Hsrc & Himac
        & Hl1 & Hl2 & Hl3 & _).
  destruct (cfg_loop_vlan cfgs default_vars vars Hloop) as (_ & _ & Hmac).
  exists fields, src, imac, (dst_mac vars).
  repeat split; try assumption. apply Hmac. now left.
Qed.


Lemma mac_fields_normalized_witness :
  exists fields source,
    lookup "source_mac" fields = Some source /\ mac_field source.
Proof.
  edestruct (mac_fields_normalized [example_stream_document])
    as (fields & src & _ & _ & _ & Hl & Hm & _).
  - vm_compute. reflexivity.
  - left. reflexivity.
  - left. reflexivity.
  - exists fields, src. split; assumption.
Defined.

End TalkerMoreFacts.

(* ====================================================================== *)
(** * More on the gate-control entries and the schedule commands *)
(* ====================================================================== *)

Module ScheduleFacts.
Import GE TC Spec Terms2.

(** A loop whose body only appends to its accumulator can be run from the
    empty list. *)
Lemma for_each_from_empty {A B : Type} (body : list B -> A -> result (list B)) :
  (forall acc x, body acc x = (e <- body [] x ;; Ok (acc ++ e))) ->
  forall xs acc,
    for_each body xs acc = (e <- for_each body xs [] ;; Ok (acc ++ e)).
Proof.
  intros Hbody. induction xs as [|x xs IH]; intros acc; cbn [for_each].
  - cbn. now rewrite app_nil_r.
  - rewrite (Hbody acc x). destruct (body [] x) as [e|]; cbn [bind app]; [|reflexivity].
    rewrite (IH (acc ++ e)), (IH e).
    destruct (for_each body xs []) as [r|]; cbn [bind]; [|reflexivity].
    now rewrite app_assoc.
Qed.

Lemma iface_gate_entries_appends (acc : list PyVal) (iface : PyVal) :
  iface_gate_entries acc iface = (e <- iface_gate_entries [] iface ;; Ok (acc ++ e)).
Proof.
  unfold iface_gate_entries.
  destruct (negb (truthy (_find_key iface "gate-parameter-table")));
    [cbn; now rewrite app_nil_r|].
  destruct (negb (truthy (_find_key _ "admin-control-list")));
    [cbn; now rewrite app_nil_r|].
  destruct (py_get _ "gate-control-entry") as [g|]; cbn [bind]; [|reflexivity].
  destruct (negb (truthy g)); cbn; [now rewrite app_nil_r|reflexivity].
Qed.

Lemma doc_gate_entries_appends (acc : list PyVal) (doc : PyVal) :
  doc_gate_entries acc doc = (e <- doc_gate_entries [] doc ;; Ok (acc ++ e)).
Proof.
  unfold doc_gate_entries.
  destruct (negb (truthy (_find_key doc "interfaces")));
    [cbn; now rewrite app_nil_r|].
  destruct (py_get _ "interface") as [il|]; cbn [bind]; [|reflexivity].
  destruct (negb (truthy il)); [cbn; now rewrite app_nil_r|].
  rewrite (for_each_from_empty iface_gate_entries iface_gate_entries_appends).
  destruct (for_each iface_gate_entries (as_list il) []); reflexivity.
Qed.

(** X15. The documents are searched one after another: the gate-control
    entries of two document lists put together are the entries of the first
    followed by those of the second, and an exception in either is an
    exception of the whole. *)
Theorem gate_entries_of_appended_documents (first second : list PyVal) :
  get_gate_control_entries (first ++ second)
  = (entries <- get_gate_control_entries first ;;
     more <- get_gate_control_entries second ;;
     Ok (entries ++ more)).
Proof.
  unfold get_gate_control_entries. rewrite for_each_app.
  destruct (for_each doc_gate_entries first []) as [entries|]; cbn [bind];
    [|reflexivity].
  apply (for_each_from_empty doc_gate_entries doc_gate_entries_appends).
Qed.

Lemma format_entry_one_line (acc acc' : list string) (entry : PyVal) :
  format_entry acc entry = Ok acc' ->
  exists line, acc' = acc ++ [line] /\ String.prefix "sched-entry " line = true.
Proof.
  unfold format_entry. intros H.
  destruct (py_get entry "operation-name") as [op|]; cbn [bind] in H; [|discriminate H].
  destruct (py_get entry "gate-states-value") as [sv|]; cbn [bind] in H;
    [|discriminate H].
  destruct (py_get entry "time-interval-value") as [iv|]; cbn [bind] in H;
    [|discriminate H].
  destruct (is_str_eq set_gate_states op).
  - destruct (py_int _) as [v|]; cbn [bind] in H; [|discriminate H].
    inversion H. eexists. split; reflexivity.
  - inversion H. eexists. split; reflexivity.
Qed.

(** X16. Whenever [get_gate_control_entries_formatted] returns, it
    returns one line per gate-control entry, whatever the entries hold, and
    every line begins with "sched-entry ". *)
Theorem one_line_per_gate_entry (documents : list PyVal) (lines : list string) :
  get_gate_control_entries_formatted documents = Ok lines ->
  exists entries,
    get_gate_control_entries documents = Ok entries
    /\ List.length lines = List.length entries
    /\ Forall (fun line => String.prefix "sched-entry " line = true) lines.
Proof.
  unfold get_gate_control_entries_formatted. intros H.
  destruct (get_gate_control_entries documents) as [entries|]; cbn [bind] in H;
    [|discriminate H].
  exists entries. split; [reflexivity|].
  assert (Hloop : forall es acc out,
            for_each format_entry es acc = Ok out ->
            exists added, out = acc ++ added
                          /\ List.length added = List.length es
                          /\ Forall (fun line => String.prefix "sched-entry " line = true)
                                    added).
  { induction es as [|e es IH]; intros acc out Hrun; cbn [for_each] in Hrun.
    - inversion Hrun. exists []. rewrite app_nil_r. repeat split. constructor.
    - destruct (format_entry acc e) as [acc1|] eqn:He; cbn [bind] in Hrun;
        [|discriminate Hrun].
      apply format_entry_one_line in He as (line & -> & Hline).
      apply IH in Hrun as (added & -> & Hlen & Hall).
      exists (line :: added). rewrite <- app_assoc. cbn [List.length].
      repeat split; [now rewrite Hlen|now constructor]. }
  destruct (Hloop entries [] lines H) as (added & -> & Hlen & Hall).
  split; assumption.
Qed.

Lemma one_line_per_gate_entry_witness :
  exists entries,
    get_gate_control_entries [example_gate_document] = Ok entries
    /\ List.length ["sched-entry S 0F 500000"; "sched-entry ? 7 1000"]
       = List.length entries.
Proof.
  destruct (one_line_per_gate_entry [example_gate_document]
              ["sched-entry S 0F 500000"; "sched-entry ? 7 1000"] eq_refl)
    as (entries & He & Hlen & _).
  exists entries. split; assumption.
Defined.

(** X17. With a traffic-class count of zero or less no ETF command is
    generated: the result is the taprio command of each interface, in
    order. *)
Theorem no_etf_without_traffic_classes (now : Z) (interfaces gcl : list string)
  (num_tc : Z) (base_time : option Z) (map_str queues_str handle_id : option string)
  (flags : string) (txtime_delay delta : Z) :
  num_tc <= 0 ->
  create_tc_qdisc_gcl_command now interfaces gcl num_tc base_time map_str
                              queues_str handle_id flags txtime_delay delta
  = map (fun iface =>
           taprio_command iface gcl num_tc (or_else base_time now)
             (or_else map_str "0 1 2 3 0 0 0 0 0 0 0 0 0 0 0 0")
             (or_else queues_str "1@0 1@1 1@2 1@3") (or_else handle_id "100")
             flags txtime_delay)
        interfaces.
Proof.
  intros Hn. unfold create_tc_qdisc_gcl_command.
  replace (match map_str with
           | Some m => m
           | None => "0 1 2 3" +s+ repeat_str " 0" 12
           end) with (or_else map_str "0 1 2 3 0 0 0 0 0 0 0 0 0 0 0 0")
    by (destruct map_str; reflexivity).
  change (match base_time with Some t => t | None => now end)
    with (or_else base_time now).
  change (match queues_str with Some q => q | None => "1@0 1@1 1@2 1@3" end)
    with (or_else queues_str "1@0 1@1 1@2 1@3").
  change (match handle_id with Some h => h | None => "100" end)
    with (or_else handle_id "100").
  rewrite <- (app_nil_l (map _ interfaces)). generalize (@nil string).
  induction interfaces as [|iface rest IH]; intros acc; cbn [fold_left map].
  - now rewrite app_nil_r.
  - rewrite TCFacts.iface_commands_block, IH.
    replace (Z.to_nat num_tc) with 0%nat by lia. cbn [seq map].
    now rewrite <- app_assoc.
Qed.

Lemma no_etf_without_traffic_classes_witness :
  List.length (create_tc_qdisc_gcl_command 0 ["eth0"; "eth1"] ["sched-entry S 01 100"]
                 0 None None None None default_flags default_txtime_delay
                 default_delta) = 2%nat.
Proof.
  rewrite (no_etf_without_traffic_classes 0 ["eth0"; "eth1"] ["sched-entry S 01 100"]
             0 None None None None default_flags default_txtime_delay default_delta);
    [reflexivity|lia].
Defined.

(** X18. The taprio command lists the gate-control entries in their
    order, each between two blanks before and one after, between the base
    time and the flags. *)
Theorem taprio_command_layout (iface : string) (gcl : list string) (num_tc base_time : Z)
  (map_str queues_str handle_id flags : string) (txtime_delay : Z) :
  taprio_command iface gcl num_tc base_time map_str queues_str handle_id flags
                 txtime_delay
  = "tc qdisc replace dev " +s+ iface +s+ " parent root handle " +s+ handle_id
    +s+ " taprio  num_tc " +s+ str_of_Z num_tc +s+ " map " +s+ map_str
    +s+ "  queues " +s+ queues_str
    +s+ "  base-time " +s+ str_of_Z base_time
    +s+ glue (map (fun entry => "  " +s+ entry +s+ " ") gcl)
    +s+ " flags " +s+ flags
    +s+ " txtime-delay " +s+ str_of_Z txtime_delay +s+ "  clockid CLOCK_TAI ".
Proof. apply TCFacts.taprio_command_text. Qed.

End ScheduleFacts.

(* ====================================================================== *)
(** * More on the flow-classification generators *)
(* ====================================================================== *)

Module FlowMoreFacts.
Import GE TC Spec Terms2.

Lemma usable_talkers_raises (talkers : list PyVal) (t : PyVal) (e : exc) :
  In t talkers -> filter_command t = Raise e ->
  exists e', usable_talkers talkers = Raise e'.
Proof.
  induction talkers as [|t0 rest IH]; intros Hin Hbad; [destruct Hin|].
  cbn [usable_talkers]. destruct Hin as [->|Hin].
  - rewrite Hbad. now exists e.
  - destruct (filter_command t0) as [fc|e0]; cbn [bind]; [|now exists e0].
    destruct (IH Hin Hbad) as (e' & ->). now exists e'.
Qed.

Lemma time_aware_loop_usable (tc_qdisc_show : string -> option string)
  (talkers : list PyVal) (st st' : GenState) :
  for_each (time_aware_step tc_qdisc_show) talkers st = Ok st' ->
  exists items, usable_talkers talkers = Ok items.
Proof.
  revert st. induction talkers as [|t rest IH]; intros st H; [now exists []|].
  cbn [for_each] in H.
  destruct (time_aware_step tc_qdisc_show st t) as [st1|] eqn:Hstep;
    cbn [bind] in H; [|discriminate H].
  destruct (IH st1 H) as (items & Hitems).
  unfold time_aware_step in Hstep. destruct st as [commands processed].
  cbn [usable_talkers].
  destruct (filter_command t) as [fc|]; cbn [bind] in Hstep |- *; [|discriminate Hstep].
  rewrite Hitems. cbn [bind]. eexists. reflexivity.
Qed.

(** X19. One talker whose filter command cannot be built makes both
    generators raise: no command is returned for the other talkers either.
    A mapping with an interface name whose [ip_protocol] is not [None] and
    does not convert to an integer is such a talker. *)
Theorem one_bad_talker_aborts_the_batch (info : TalkerMap) (t : PyVal) (e : exc) :
  In t (talkers_of_map info) ->
  filter_command t = Raise e ->
  (exists e', create_tc_filter_commands_for_non_time_aware_talkers info = Raise e')
  /\ (forall tc_qdisc_show,
        exists e',
          create_tc_filter_commands_for_time_aware_talkers tc_qdisc_show info
          = Raise e')
  /\ (forall d name proto e0,
        lookup "interface_name" d = Some name -> truthy name = true ->
        lookup "ip_protocol" d = Some proto -> proto <> VNone ->
        py_int proto = Raise e0 ->
        filter_command (VDict d) = Raise e0).
Proof.
  intros Hin Hbad.
  destruct (usable_talkers_raises (talkers_of_map info) t e Hin Hbad) as (e' & He').
  split; [|split].
  - exists e'. unfold create_tc_filter_commands_for_non_time_aware_talkers.
    rewrite (FlowFacts.nested_loops_flat non_time_aware_step),
      FlowFacts.non_time_aware_loop, He'. reflexivity.
  - intros tc_qdisc_show. unfold create_tc_filter_commands_for_time_aware_talkers.
    rewrite (FlowFacts.nested_loops_flat (time_aware_step tc_qdisc_show)).
    destruct (for_each (time_aware_step tc_qdisc_show) (talkers_of_map info) ([], []))
      as [st|e1] eqn:Hrun; [|now exists e1].
    apply time_aware_loop_usable in Hrun as (items & Hitems). congruence.
  - intros d name proto e0 Hname Htruthy Hproto Hnone Hint.
    unfold filter_command. rewrite !GateFacts.py_get_dict, Hname, Hproto.
    cbn [bind]. rewrite Htruthy. cbn [negb bind]. unfold int_or at 1.
    destruct proto; try (now contradiction Hnone); cbn [is_none]; rewrite Hint;
      reflexivity.
Qed.

Lemma interleaved_all_present (present : PyVal -> bool) (seen : list PyVal)
  (items : list (PyVal * string)) (out : list string) :
  Forall (fun item => present (fst item) = true) items ->
  interleaved present seen items out ->
  out = map snd items.
Proof.
  intros Hall Hout.
  induction Hout as [seen|seen iface cmd items out _ Hmissing _ IH
                     |seen iface cmd items out _ _ _ IH
                     |seen iface cmd items out _ _ IH];
    [reflexivity|..]; inversion Hall as [|? ? Hp Hrest]; subst; cbn [fst] in Hp.
  - congruence.
  - cbn [map snd]. f_equal. now apply IH.
  - cbn [map snd]. f_equal. now apply IH.
Qed.

(** X21. When the query shows a clsact qdisc on every interface, the
    time-aware generator emits no command to create one: on talkers whose
    interface names are text it returns exactly what the non-time-aware
    generator returns for the same talkers. *)
Theorem generators_agree_when_clsact_present (tc_qdisc_show : string -> option string)
  (info : TalkerMap) (items : list (PyVal * string)) :
  (forall name, exists shown,
      tc_qdisc_show name = Some shown /\ contains "clsact" shown = true) ->
  usable_talkers (talkers_of_map info) = Ok items ->
  Forall (fun item => exists name, fst item = VStr name) items ->
  create_tc_filter_commands_for_time_aware_talkers tc_qdisc_show info
  = Ok (map snd items)
  /\ create_tc_filter_commands_for_non_time_aware_talkers info = Ok (map snd items).
Proof.
  intros Hshow Hitems Hnames. split.
  - unfold create_tc_filter_commands_for_time_aware_talkers.
    rewrite (FlowFacts.nested_loops_flat (time_aware_step tc_qdisc_show)).
    destruct (FlowFacts.time_aware_loop tc_qdisc_show (talkers_of_map info) items
                [] [] Hitems) as (out & processed & Hrun & Hout).
    { apply Forall_forall. intros item Hin. rewrite Forall_forall in Hnames.
      destruct (Hnames item Hin) as (name & ->). reflexivity. }
    rewrite Hrun. cbn [bind fst app]. f_equal.
    apply (interleaved_all_present (_clsact_exists tc_qdisc_show) [] items out);
      [|assumption].
    apply Forall_forall. intros item Hin. rewrite Forall_forall in Hnames.
    destruct (Hnames item Hin) as (name & ->). cbn [_clsact_exists].
    destruct (Hshow name) as (shown & -> & Hc). exact Hc.
  - unfold create_tc_filter_commands_for_non_time_aware_talkers.
    rewrite (FlowFacts.nested_loops_flat non_time_aware_step),
      FlowFacts.non_time_aware_loop, Hitems. reflexivity.
Qed.

Lemma generators_agree_when_clsact_present_witness :
  create_tc_filter_commands_for_time_aware_talkers
    (fun _ => Some "qdisc clsact ffff: parent ffff:fff1") minimal_data
  = create_tc_filter_commands_for_non_time_aware_talkers minimal_data.
Proof.
  edestruct (generators_agree_when_clsact_present
               (fun _ => Some "qdisc clsact ffff: parent ffff:fff1") minimal_data)
    as (Ha & Hn).
  - intros name. eexists. split; reflexivity.
  - vm_compute. reflexivity.
  - repeat constructor. eexists. reflexivity.
  - rewrite Ha, Hn. reflexivity.
Defined.

Lemma rstrip_by_app (p : ascii -> bool) (a b : string) :
  rstrip_by p b <> "" -> rstrip_by p (a +s+ b) = a +s+ rstrip_by p b.
Proof.
  intros Hb. induction a as [|c a IH]; [reflexivity|].
  cbn [String.append rstrip_by]. rewrite IH.
  destruct (a +s+ rstrip_by p b) eqn:E; [|reflexivity].
  destruct a; [cbn in E; contradiction|discriminate E].
Qed.

(** X22. A talker with an interface name but without VLAN id and
    priority raises no error: its filter command pushes the literal "None"
    as id and priority.  The optional matches are those of the present
    fields, and nothing is trimmed from the command. *)
Theorem missing_vlan_renders_none (d : list (string * PyVal)) (name : PyVal) :
  lookup "interface_name" d = Some name -> truthy name = true ->
  lookup "vlan_id" d = None -> lookup "vlan_priority" d = None ->
  lookup "ip_protocol" d = None ->
  lookup "destination_port" d = None -> lookup "source_port" d = None ->
  filter_command (VDict d)
  = Ok (Some (name,
       "tc filter add dev " +s+ py_str name +s+ " egress protocol ip flower "
       +s+ opt_match "src_mac" (field_or_none "source_mac" d)
       +s+ opt_match "dst_mac" (field_or_none "destination_mac" d)
       +s+ opt_match "src_ip" (field_or_none "source_ip" d)
       +s+ opt_match "dst_ip" (field_or_none "destination_ip" d)
       +s+ "action vlan push id None protocol 802.1Q priority None pipe action skbedit priority None")).
Proof.
  intros Hname Htruthy Hid Hprio Hproto Hdport Hsport.
  unfold filter_command. rewrite !GateFacts.py_get_dict.
  rewrite Hname, Hid, Hprio, Hproto, Hdport, Hsport. cbn [bind].
  rewrite Htruthy. cbn [negb bind int_or is_none].
  fold (field_or_none "source_mac" d) (field_or_none "destination_mac" d)
       (field_or_none "source_ip" d) (field_or_none "destination_ip" d).
  change (_get_ip_protocol_and_ports_filter_configuration 65535 0 0) with "".
  cbn [String.eqb negb py_str py_repr].
  do 3 f_equal. unfold strip, strip_by.
  change (lstrip_by is_space ("tc filter add dev " +s+ ?x)) with ("tc filter add dev " +s+ x).
  rewrite <- !TCFacts.append_assoc.
  rewrite rstrip_by_app by (vm_compute; discriminate).
  change (rstrip_by is_space "None") with "None".
  rewrite !TCFacts.append_assoc. cbn [String.append]. reflexivity.
Qed.

Lemma missing_vlan_renders_none_witness :
  filter_command (VDict [("interface_name", VStr "eth0");
                         ("source_mac", VStr "aa:bb:cc:dd:ee:ff")])
  = Ok (Some (VStr "eth0",
       "tc filter add dev eth0 egress protocol ip flower src_mac aa:bb:cc:dd:ee:ff action vlan push id None protocol 802.1Q priority None pipe action skbedit priority None")).
Proof.
  apply (missing_vlan_renders_none
           [("interface_name", VStr "eth0"); ("source_mac", VStr "aa:bb:cc:dd:ee:ff")]
           (VStr "eth0")); reflexivity.
Defined.

Lemma one_bad_talker_aborts_the_batch_witness :
  create_tc_filter_commands_for_non_time_aware_talkers example_bad_protocol_info
  = Raise ValueError.
Proof.
  destruct (one_bad_talker_aborts_the_batch example_bad_protocol_info
              (VDict [("interface_name", VStr "eth1"); ("ip_protocol", VStr "udp");
                      ("vlan_id", VInt 11); ("vlan_priority", VInt 2)])
              ValueError (or_intror (or_introl eq_refl)) eq_refl)
    as ((e' & He') & _).
  rewrite He'. vm_compute in He'. inversion He'. reflexivity.
Defined.

End FlowMoreFacts.
